(** * RAG-Upload-Service: the document-to-chunk pipeline

    A shallow embedding of the algorithmic core of the service:

    - [services/ocr_service.py]        (class [OCRService]),
    - [services/document_processor.py] (class [DocumentProcessor]),
    - the per-chunk metadata loop of [services/embedding_service.py]
      ([process_textbook_document]).

    Python values are modelled as follows.  A [str] is the list of its
    Unicode code points, an [int] is a [Z], a [list] is a [list], a
    [dict] with a fixed set of keys is a record, a constant [dict] used
    as a lookup table is an association list.  Exceptions are values of
    [PyExc]; code that can raise, or that talks to a library outside the
    repository (PyMuPDF, Pillow, OpenCV, Tesseract, the langchain
    splitter), lives in a state-and-error monad whose state survives an
    exception, exactly as the heap of a Python program does.  Calls to
    [logger] have no influence on any result and are left out. *)

From Stdlib Require Import List ZArith NArith QArith Lia Bool String Ascii.
From Stdlib Require Import DecimalString.
From Stdlib Require Import Sorted.
Import ListNotations.

Local Open Scope Z_scope.

(* ================================================================== *)
(** * Part I: definitions                                              *)
(* ================================================================== *)

(** ** Python strings *)

(** A code point. *)
Definition char := N.

(** A Python [str]. *)
Definition pystr := list char.

(** [len(s)] *)
Definition len {A : Type} (l : list A) : Z := Z.of_nat (List.length l).

(** Decoding of a UTF-8 source literal into code points; it is only used
    to write the string constants of the program. *)
Fixpoint utf8_decode (bs : list N) : pystr :=
  match bs with
  | [] => []
  | b0 :: r0 =>
    if (b0 <? 128)%N then b0 :: utf8_decode r0
    else
      match r0 with
      | [] => []
      | b1 :: r1 =>
        if (b0 <? 224)%N then
          ((b0 mod 32) * 64 + b1 mod 64)%N :: utf8_decode r1
        else
          match r1 with
          | [] => []
          | b2 :: r2 =>
            if (b0 <? 240)%N then
              ((b0 mod 16) * 4096 + (b1 mod 64) * 64 + b2 mod 64)%N
                :: utf8_decode r2
            else
              match r2 with
              | [] => []
              | b3 :: r3 =>
                ((b0 mod 8) * 262144 + (b1 mod 64) * 4096
                 + (b2 mod 64) * 64 + b3 mod 64)%N :: utf8_decode r3
              end
          end
      end
  end.

(** The string constant written [s] in the source. *)
Definition lit (s : string) : pystr :=
  utf8_decode (map N_of_ascii (list_ascii_of_string s)).

(** [a == b] on strings. *)
Fixpoint str_eqb (a b : pystr) : bool :=
  match a, b with
  | [], [] => true
  | x :: a', y :: b' => (x =? y)%N && str_eqb a' b'
  | _, _ => false
  end.

(** [c.isspace()]: the code points Python's [str.strip()] and
    [str.split()] treat as whitespace. *)
Definition is_space (c : char) : bool :=
  ((9 <=? c) && (c <=? 13) || (28 <=? c) && (c <=? 32)
   || (c =? 133) || (c =? 160) || (c =? 5760)
   || (8192 <=? c) && (c <=? 8202)
   || (c =? 8232) || (c =? 8233) || (c =? 8239) || (c =? 8287)
   || (c =? 12288))%N.

(** [s.lstrip()] *)
Fixpoint lstrip (s : pystr) : pystr :=
  match s with
  | [] => []
  | c :: r => if is_space c then lstrip r else s
  end.

(** [s.rstrip()] *)
Definition rstrip (s : pystr) : pystr := rev (lstrip (rev s)).

(** [s.strip()] *)
Definition strip (s : pystr) : pystr := rstrip (lstrip s).

(** [s.split()]: the maximal runs of non-whitespace characters. *)
Fixpoint split_ws (s : pystr) : list pystr :=
  match s with
  | [] => []
  | c :: r =>
    if is_space c then split_ws r
    else
      match r with
      | [] => [[c]]
      | d :: _ =>
        if is_space d then [c] :: split_ws r
        else
          match split_ws r with
          | w :: ws => (c :: w) :: ws
          | [] => [[c]]
          end
      end
  end.

(** [s.split(sep)] for a one-character separator: one field more than
    there are separators, empty fields included. *)
Fixpoint split_on (sep : char) (s : pystr) : list pystr :=
  match s with
  | [] => [[]]
  | c :: r =>
    if (c =? sep)%N then [] :: split_on sep r
    else
      match split_on sep r with
      | p :: ps => (c :: p) :: ps
      | [] => [[c]]
      end
  end.

(** [sep.join(parts)] *)
Fixpoint join (sep : pystr) (parts : list pystr) : pystr :=
  match parts with
  | [] => []
  | [p] => p
  | p :: rest => p ++ sep ++ join sep rest
  end.

(** [s.startswith(sub)] *)
Fixpoint startswith (s sub : pystr) : bool :=
  match sub, s with
  | [], _ => true
  | x :: sub', y :: s' => (x =? y)%N && startswith s' sub'
  | _ :: _, [] => false
  end.

(** The lowest index at which [sub] occurs in [s], counted from [off];
    [-1] when there is none. *)
Fixpoint find_at (s sub : pystr) (off : Z) : Z :=
  if startswith s sub then off
  else
    match s with
    | [] => -1
    | _ :: r => find_at r sub (off + 1)
    end.

(** Python's normalisation of a slice bound against a length. *)
Definition clamp_index (i n : Z) : Z :=
  if i <? 0 then Z.max 0 (i + n) else Z.min i n.

(** [s.find(sub, start)] *)
Definition find (s sub : pystr) (start : Z) : Z :=
  let n := len s in
  let st := if start <? 0 then Z.max 0 (start + n) else start in
  if n <? st then -1
  else find_at (skipn (Z.to_nat st) s) sub st.

(** [s[a:b]] *)
Definition slice {A : Type} (s : list A) (a b : Z) : list A :=
  let n := len s in
  let a' := clamp_index a n in
  let b' := clamp_index b n in
  firstn (Z.to_nat (b' - a')) (skipn (Z.to_nat a') s).

(** [str(n)] for an [int]. *)
Definition str_of_int (n : Z) : pystr :=
  lit (NilZero.string_of_int (Z.to_int n)).

(** [sum(l)] *)
Definition py_sum (l : list Z) : Z := fold_left Z.add l 0.

(** ** Python integers, lists and dictionaries *)

(** The exceptions ([Exception] subclasses) that the modelled code can
    meet.  [LibraryError] stands for whatever a library outside the
    repository raises. *)
Inductive PyExc : Type :=
| ZeroDivisionError
| IndexError
| ValueError
| LibraryError (code : N).

(** The outcome of a computation that may raise. *)
Definition result (A : Type) : Type := (PyExc + A)%type.

(** [l[i]] *)
Definition getitem {A : Type} (l : list A) (i : Z) : result A :=
  let j := if i <? 0 then i + len l else i in
  if (j <? 0) || (len l <=? j) then inl IndexError
  else
    match nth_error l (Z.to_nat j) with
    | Some x => inr x
    | None => inl IndexError
    end.

(** [min(l)] and [max(l)] *)
Definition py_min (l : list Z) : result Z :=
  match l with
  | [] => inl ValueError
  | x :: r => inr (fold_left Z.min r x)
  end.

Definition py_max (l : list Z) : result Z :=
  match l with
  | [] => inl ValueError
  | x :: r => inr (fold_left Z.max r x)
  end.

(** [a / b] on integers.  The quotient is kept exact; the program only
    compares it with [0.5], and the double nearest to [a / b] lies on the
    same side of [0.5] as [a / b] itself as long as [b < 2^53]. *)
Definition truediv (a b : Z) : result Q :=
  if b =? 0 then inl ZeroDivisionError else inr (a # Z.to_pos b).

(** [d.get(k, default)] for a constant dictionary. *)
Fixpoint dict_get (d : list (pystr * pystr)) (k default : pystr) : pystr :=
  match d with
  | [] => default
  | (k', v) :: d' => if str_eqb k k' then v else dict_get d' k default
  end.

(** [x or d] for an optional integer: [None] and [0] are falsy. *)
Definition int_or (x : option Z) (d : Z) : Z :=
  match x with
  | Some v => if v =? 0 then d else v
  | None => d
  end.

(** The truth value of an optional integer. *)
Definition truthy (x : option Z) : bool :=
  match x with
  | Some v => negb (v =? 0)
  | None => false
  end.

(** [sorted(list(set(l)))] *)
Fixpoint insert_uniq (x : Z) (l : list Z) : list Z :=
  match l with
  | [] => [x]
  | y :: r =>
    if x <? y then x :: l
    else if x =? y then l
    else y :: insert_uniq x r
  end.

Definition sorted_set (l : list Z) : list Z := fold_right insert_uniq [] l.

(** ** The monad of effectful code

    [M W A] is a computation over a mutable world [W] that returns an [A]
    or raises.  The world is kept when an exception is raised. *)

Definition M (W A : Type) : Type := W -> result A * W.

Definition ret {W A : Type} (a : A) : M W A := fun w => (inr a, w).

Definition bind {W A B : Type} (c : M W A) (k : A -> M W B) : M W B :=
  fun w =>
    match c w with
    | (inr a, w') => k a w'
    | (inl e, w') => (inl e, w')
    end.

Definition raise {W A : Type} (e : PyExc) : M W A := fun w => (inl e, w).

(** [try: c  except Exception as e: h e] *)
Definition try_except {W A : Type} (c : M W A) (h : PyExc -> M W A) : M W A :=
  fun w =>
    match c w with
    | (inr a, w') => (inr a, w')
    | (inl e, w') => h e w'
    end.

(** A pure computation that may raise, run inside [M]. *)
Definition lift {W A : Type} (r : result A) : M W A := fun w => (r, w).

Definition get_world {W : Type} : M W W := fun w => (inr w, w).

Definition modify {W : Type} (f : W -> W) : M W unit := fun w => (inr tt, f w).

Declare Scope py_scope.
Delimit Scope py_scope with py.
Notation "x <- c ;; k" := (bind c (fun x => k))
  (at level 61, c at next level, right associativity) : py_scope.
Notation "c ;;; k" := (bind c (fun _ => k))
  (at level 61, right associativity) : py_scope.

(** ** The libraries outside the repository

    Every call into PyMuPDF ([fitz]), Pillow, OpenCV ([cv2]) or Tesseract
    is recorded in a history, and what the call returns (a value or an
    exception) is an arbitrary function of its arguments and of the
    history so far. *)

Definition bytes := list Byte.byte.

Inductive Call (ndarray FitzPage Pixmap : Type) : Type :=
| CallFitzOpen (file_content : bytes)
| CallGetText (page : FitzPage)
| CallGetPixmap (page : FitzPage) (zoom_x zoom_y : Z)
| CallToBytes (pix : Pixmap) (format : pystr)
| CallImageOpen (image_content : bytes)
| CallImageToString (img : ndarray) (lang config : pystr)
| CallEnhance (img : ndarray).

Arguments CallFitzOpen {ndarray FitzPage Pixmap}.
Arguments CallGetText {ndarray FitzPage Pixmap}.
Arguments CallGetPixmap {ndarray FitzPage Pixmap}.
Arguments CallToBytes {ndarray FitzPage Pixmap}.
Arguments CallImageOpen {ndarray FitzPage Pixmap}.
Arguments CallImageToString {ndarray FitzPage Pixmap}.
Arguments CallEnhance {ndarray FitzPage Pixmap}.

Class Libraries : Type := {
  (** [numpy.ndarray], a loaded image *)
  ndarray : Type;
  (** a page of an open [fitz] document *)
  FitzPage : Type;
  (** [fitz.Pixmap] *)
  Pixmap : Type;
  (** [fitz.open(stream=..., filetype="pdf")], with the pages
      [doc[0], ..., doc[len(doc) - 1]] of the document *)
  fitz_open : list (Call ndarray FitzPage Pixmap) -> bytes -> result (list FitzPage);
  (** [page.get_text()] *)
  fitz_get_text : list (Call ndarray FitzPage Pixmap) -> FitzPage -> result pystr;
  (** [page.get_pixmap(matrix=fitz.Matrix(zx, zy))] *)
  fitz_get_pixmap :
    list (Call ndarray FitzPage Pixmap) -> FitzPage -> Z -> Z -> result Pixmap;
  (** [pix.tobytes(format)] *)
  fitz_tobytes : list (Call ndarray FitzPage Pixmap) -> Pixmap -> pystr -> result bytes;
  (** [Image.open], [convert('RGB')], [np.array], [cv2.cvtColor] *)
  pil_open_bgr : list (Call ndarray FitzPage Pixmap) -> bytes -> result ndarray;
  (** [cv2.cvtColor], [Image.fromarray], [pytesseract.image_to_string] *)
  tesseract_image_to_string :
    list (Call ndarray FitzPage Pixmap) -> ndarray -> pystr -> pystr -> result pystr;
  (** the OpenCV pipeline of [_enhance_for_ocr]: resize, grayscale,
      denoising, CLAHE, Otsu threshold *)
  cv2_enhance : list (Call ndarray FitzPage Pixmap) -> ndarray -> result ndarray
}.

(** The calls made so far. *)
Definition History `{Libraries} : Type := list (Call ndarray FitzPage Pixmap).

(** One call into a library: it is appended to the history, and its
    outcome is the library's answer in the history before the call. *)
Definition external `{Libraries} {A : Type}
    (c : Call ndarray FitzPage Pixmap) (answer : History -> result A) : M History A :=
  fun h => (answer h, h ++ [c]).

(** ** services/ocr_service.py *)

Section OCRService.
Context `{Libraries}.
Local Open Scope py_scope.

(** [OCRService._is_poor_result] *)
Definition _is_poor_result (text : pystr) : result bool :=
  if (len text =? 0) || (len (strip text) <? 10) then inr true
  else
    let words := split_ws text in
    if len words =? 0 then inr true
    else
      let single_chars :=
        py_sum (map (fun _ => 1) (filter (fun w => len w =? 1) words)) in
      match truediv single_chars (len words) with
      | inl e => inl e
      | inr ratio =>
        if negb (Qle_bool ratio (1 # 2)) then inr true else inr false
      end.

(** [OCRService._ocr_image] *)
Definition _ocr_image (img : ndarray) (lang : pystr) : M History pystr :=
  try_except
    (let custom_config := lit "--oem 3 --psm 6" in
     text <- external (CallImageToString img lang custom_config)
               (fun h => tesseract_image_to_string h img lang custom_config) ;;
     let text := strip text in
     ret text)
    (fun e => ret (lit "")).

(** [OCRService._load_image] *)
Definition _load_image (image_content : bytes) : M History ndarray :=
  try_except
    (external (CallImageOpen image_content)
       (fun h => pil_open_bgr h image_content))
    (fun e => raise e).

(** [OCRService._enhance_for_ocr] *)
Definition _enhance_for_ocr (img : ndarray) : M History ndarray :=
  try_except
    (external (CallEnhance img) (fun h => cv2_enhance h img))
    (fun e => ret img).

(** [OCRService.extract_text] *)
Definition extract_text (image_content : bytes) (enhance : bool)
    (language : pystr) : M History pystr :=
  try_except
    (img <- _load_image image_content ;;
     let lang_config :=
       if str_eqb language (lit "vi") then lit "vie"
       else if str_eqb language (lit "en") || str_eqb language (lit "code")
            then lit "eng"
            else lit "eng+vie" in
     text <- _ocr_image img lang_config ;;
     poor <- (if enhance then lift (_is_poor_result text) else ret false) ;;
     text <- (if poor then
                img_enhanced <- _enhance_for_ocr img ;;
                text_enhanced <- _ocr_image img_enhanced lang_config ;;
                ret (if len text_enhanced >? len text then text_enhanced
                     else text)
              else ret text) ;;
     ret text)
    (fun e => ret (lit "")).

End OCRService.

(** ** config/config.py and the langchain splitter *)

(** The two settings the pipeline reads. *)
Class Settings : Type := {
  CHUNK_SIZE : Z;
  CHUNK_OVERLAP : Z
}.

(** The defaults of [class Settings]. *)
Definition default_settings : Settings :=
  {| CHUNK_SIZE := 800; CHUNK_OVERLAP := 150 |}.

(** [RecursiveCharacterTextSplitter(chunk_size, chunk_overlap, separators,
    length_function=len).split_text(text)]: the splitter belongs to
    langchain, the pipeline only consumes the list it returns. *)
Class TextSplitter : Type := {
  split_text : Z -> Z -> list pystr -> pystr -> result (list pystr)
}.

(** ** services/document_processor.py *)

(** The dictionary returned by [parse_textbook_metadata]. *)
Module BookMetadata.
Record t : Type := mk {
  book_type : pystr;
  subject : pystr;
  publisher : pystr;
  grade : pystr;
  full_name : pystr
}.
End BookMetadata.

(** An entry of [page_info]. *)
Module PageInfo.
Record t : Type := mk {
  page_number : Z;
  text : pystr;
  char_start : Z;
  char_end : Z;
  ocr_used : bool
}.
End PageInfo.

(** An entry of [chunks_with_pages]. *)
Module Chunk.
Record t : Type := mk {
  text : pystr;
  pages : list Z;
  char_start : Z;
  char_end : Z
}.
End Chunk.

Section ParseTextbookMetadata.
Import BookMetadata.
Local Open Scope py_scope.

Definition book_type_map : list (pystr * pystr) :=
  [ (lit "SGK", lit "Sách giáo khoa");
    (lit "SBT", lit "Sách bài tập");
    (lit "STK", lit "Sách tham khảo") ].

Definition subject_map : list (pystr * pystr) :=
  [ (lit "TIN", lit "Tin học");
    (lit "TOAN", lit "Toán");
    (lit "VAN", lit "Ngữ văn");
    (lit "ANH", lit "Tiếng Anh");
    (lit "LY", lit "Vật lý");
    (lit "HOA", lit "Hóa học");
    (lit "SINH", lit "Sinh học");
    (lit "SU", lit "Lịch sử");
    (lit "DIA", lit "Địa lý");
    (lit "GDCD", lit "Giáo dục công dân") ].

Definition publisher_map : list (pystr * pystr) :=
  [ (lit "CD", lit "Cánh Diều");
    (lit "KN", lit "Kết Nối Tri Thức");
    (lit "CT", lit "Chân Trời Sáng Tạo");
    (lit "CK", lit "Cánh Diền");
    (lit "NXB", lit "Nhà xuất bản") ].

(** The dictionary [metadata] as first bound. *)
Definition empty_metadata : BookMetadata.t :=
  mk (lit "") (lit "") (lit "") (lit "") (lit "").

Definition set_book_type (v : pystr) (m : BookMetadata.t) : BookMetadata.t :=
  mk v (subject m) (publisher m) (grade m) (full_name m).
Definition set_subject (v : pystr) (m : BookMetadata.t) : BookMetadata.t :=
  mk (book_type m) v (publisher m) (grade m) (full_name m).
Definition set_publisher (v : pystr) (m : BookMetadata.t) : BookMetadata.t :=
  mk (book_type m) (subject m) v (grade m) (full_name m).
Definition set_grade (v : pystr) (m : BookMetadata.t) : BookMetadata.t :=
  mk (book_type m) (subject m) (publisher m) v (full_name m).
Definition set_full_name (v : pystr) (m : BookMetadata.t) : BookMetadata.t :=
  mk (book_type m) (subject m) (publisher m) (grade m) v.

(** The body of the [try] block of [parse_textbook_metadata]; the world
    is the dictionary [metadata] it updates in place. *)
Definition parse_textbook_metadata_try (filename : pystr) : M BookMetadata.t unit :=
  name_without_ext <- lift (getitem (split_on 46%N filename) 0) ;;
  let parts := split_on 95%N name_without_ext in
  if 4 <=? len parts then
    book_type_code <- lift (getitem parts 0) ;;
    subject_code <- lift (getitem parts 1) ;;
    publisher_code <- lift (getitem parts 2) ;;
    grade_code <- lift (getitem parts 3) ;;
    modify (set_book_type (dict_get book_type_map book_type_code book_type_code)) ;;;
    modify (set_subject (dict_get subject_map subject_code subject_code)) ;;;
    modify (set_publisher (dict_get publisher_map publisher_code publisher_code)) ;;;
    modify (set_grade (lit "Lớp " ++ grade_code)) ;;;
    metadata <- get_world ;;
    modify (set_full_name
              (book_type metadata ++ lit " " ++ subject metadata ++ lit " "
               ++ publisher metadata ++ lit " " ++ grade metadata))
  else ret tt.

(** [DocumentProcessor.parse_textbook_metadata]: what the function
    returns, or the exception that leaves it. *)
Definition parse_textbook_metadata (filename : pystr) : result BookMetadata.t :=
  let c :=
    try_except
      (parse_textbook_metadata_try filename ;;;
       metadata <- get_world ;;
       ret metadata)
      (fun e =>
         modify (set_full_name filename) ;;;
         metadata <- get_world ;;
         ret metadata) in
  fst (c empty_metadata).

(** The file name without its extension, as the parser computes it: the
    part before the first dot. *)
Definition stem (filename : pystr) : pystr := hd [] (split_on 46%N filename).

End ParseTextbookMetadata.

Section DocumentProcessor.
Context `{Libraries} `{Settings} `{TextSplitter}.
Local Open Scope py_scope.

(** The separator list both splitters are constructed with. *)
Definition separators : list pystr :=
  [[10; 10]%N; [10]%N; lit ". "; lit " "; lit ""].

(** The page separator ["\n\n"]. *)
Definition page_separator : pystr := [10; 10]%N.

(** [DocumentProcessor._clean_ocr_text] *)
Definition _clean_ocr_text (text : pystr) : pystr :=
  let lines := map strip (split_on 10%N text) in
  let lines := filter (fun line => negb (len line =? 0)) lines in
  let cleaned := join [10%N] lines in
  cleaned.

(** [DocumentProcessor.extract_from_image] *)
Definition extract_from_image (image_content : bytes) : M History pystr :=
  try_except
    (text <- extract_text image_content true (lit "auto") ;;
     let text := _clean_ocr_text text in
     ret text)
    (fun e => raise e).

(** One iteration of the page loop of [extract_from_pdf_with_pages]:
    from the lists [full_text] and [page_info] built so far to the lists
    after page [page_num]. *)
Definition pdf_page_step (page : FitzPage) (page_num : Z)
    (full_text : list pystr) (page_info : list PageInfo.t)
    : M History (list pystr * list PageInfo.t) :=
  text <- external (CallGetText page) (fun h => fitz_get_text h page) ;;
  page_text <-
    (if len (strip text) <? 50 then
       pix <- external (CallGetPixmap page 2 2)
                (fun h => fitz_get_pixmap h page 2 2) ;;
       img_data <- external (CallToBytes pix (lit "png"))
                     (fun h => fitz_tobytes h pix (lit "png")) ;;
       ocr_text <- extract_from_image img_data ;;
       ret ocr_text
     else ret text) ;;
  let full_text := full_text ++ [page_text] in
  let page_info :=
    page_info ++
    [ PageInfo.mk
        (page_num + 1)
        page_text
        (py_sum (map (fun t => len t + 2) (removelast full_text)))
        (py_sum (map (fun t => len t + 2) (removelast full_text)) + len page_text)
        (len (strip text) <? 50) ] in
  ret (full_text, page_info).

(** The loop [for page_num in range(total_pages)]. *)
Fixpoint pdf_page_loop (pages : list FitzPage) (page_num : Z)
    (full_text : list pystr) (page_info : list PageInfo.t)
    : M History (list pystr * list PageInfo.t) :=
  match pages with
  | [] => ret (full_text, page_info)
  | page :: rest =>
    st <- pdf_page_step page page_num full_text page_info ;;
    pdf_page_loop rest (page_num + 1) (fst st) (snd st)
  end.

(** [DocumentProcessor.extract_from_pdf_with_pages] *)
Definition extract_from_pdf_with_pages (file_content : bytes)
    : M History (pystr * list PageInfo.t) :=
  try_except
    (doc <- external (CallFitzOpen file_content)
              (fun h => fitz_open h file_content) ;;
     st <- pdf_page_loop doc 0 [] [] ;;
     let result := join page_separator (fst st) in
     ret (result, snd st))
    (fun e => raise e).

(** [DocumentProcessor._find_chunk_pages] *)
Definition _find_chunk_pages (chunk_start chunk_end : Z)
    (page_info : list PageInfo.t) : list Z :=
  let chunk_pages :=
    map PageInfo.page_number
      (filter (fun page =>
                 (chunk_start <? PageInfo.char_end page)
                 && (chunk_end >? PageInfo.char_start page))
              page_info) in
  sorted_set chunk_pages.

(** The splitter the two chunking functions use: a new one when either
    argument is truthy, [self.text_splitter] otherwise. *)
Definition choose_splitter (chunk_size chunk_overlap : option Z)
    : pystr -> result (list pystr) :=
  if truthy chunk_size || truthy chunk_overlap then
    split_text (int_or chunk_size CHUNK_SIZE) (int_or chunk_overlap CHUNK_OVERLAP)
      separators
  else
    split_text CHUNK_SIZE CHUNK_OVERLAP separators.

(** One iteration of the loop [for chunk in chunks] of
    [chunk_text_with_pages], on the pair [(current_pos, chunks_with_pages)]. *)
Definition locate_chunk (text : pystr) (page_info : list PageInfo.t)
    (st : Z * list Chunk.t) (chunk : pystr) : Z * list Chunk.t :=
  let '(current_pos, chunks_with_pages) := st in
  if len (strip chunk) <=? 20 then
    (find text chunk current_pos + len chunk, chunks_with_pages)
  else
    let chunk_start := find text chunk current_pos in
    let chunk_end := chunk_start + len chunk in
    let chunk_pages := _find_chunk_pages chunk_start chunk_end page_info in
    (chunk_end,
     chunks_with_pages ++ [Chunk.mk chunk chunk_pages chunk_start chunk_end]).

(** [DocumentProcessor.chunk_text_with_pages] *)
Definition chunk_text_with_pages (text : pystr) (page_info : list PageInfo.t)
    (chunk_size chunk_overlap : option Z) : result (list Chunk.t) :=
  match choose_splitter chunk_size chunk_overlap text with
  | inl e => inl e
  | inr chunks => inr (snd (fold_left (locate_chunk text page_info) chunks (0, [])))
  end.

(** [DocumentProcessor.chunk_text] *)
Definition chunk_text (text : pystr) (chunk_size chunk_overlap : option Z)
    : result (list pystr) :=
  match choose_splitter chunk_size chunk_overlap text with
  | inl e => inl e
  | inr chunks => inr (filter (fun chunk => len (strip chunk) >? 20) chunks)
  end.

End DocumentProcessor.

(** ** services/embedding_service.py *)

(** The dictionary [meta] built for every chunk by
    [process_textbook_document]. *)
Module ChunkMeta.
Record t : Type := mk {
  filename : pystr;
  file_type : pystr;
  file_hash : pystr;
  chunk_index : Z;
  total_chunks : Z;
  product_name : pystr;
  book_name : pystr;
  publisher : pystr;
  grade : option pystr;
  book_full_name : pystr;
  pages : list Z;
  page_range : pystr;
  char_start : Z;
  char_end : Z
}.
End ChunkMeta.

(** The dictionary [book_metadata] of [process_textbook_document]. *)
Module TextbookInfo.
Record t : Type := mk {
  book_name : pystr;
  publisher : pystr;
  grade : option pystr;
  full_name : pystr
}.
End TextbookInfo.

Section EmbeddingService.

(** The value of the key ["page_range"]:
    [f"{min(p)}-{max(p)}" if len(p) > 1 else f"Trang {p[0]}" if p else ""]. *)
Definition page_range_of (pages : list Z) : result pystr :=
  if len pages >? 1 then
    match py_min pages with
    | inl e => inl e
    | inr lo =>
      match py_max pages with
      | inl e => inl e
      | inr hi => inr (str_of_int lo ++ lit "-" ++ str_of_int hi)
      end
    end
  else if negb (len pages =? 0) then
    match getitem pages 0 with
    | inl e => inl e
    | inr p => inr (lit "Trang " ++ str_of_int p)
    end
  else inr (lit "").

(** The loop [for idx, chunk_info in enumerate(chunks_with_pages)] that
    fills [metadata_list]; [file_hash] is the MD5 digest of the upload. *)
Fixpoint textbook_metadata_loop (filename file_type file_hash : pystr)
    (product_name : option pystr) (book_metadata : TextbookInfo.t)
    (total : Z) (idx : Z) (chunks_with_pages : list Chunk.t)
    (metadata_list : list ChunkMeta.t) : result (list ChunkMeta.t) :=
  match chunks_with_pages with
  | [] => inr metadata_list
  | chunk_info :: rest =>
    match page_range_of (Chunk.pages chunk_info) with
    | inl e => inl e
    | inr range =>
      let meta :=
        ChunkMeta.mk filename file_type file_hash idx total
          (match product_name with
           | Some n => if len n =? 0 then TextbookInfo.full_name book_metadata else n
           | None => TextbookInfo.full_name book_metadata
           end)
          (TextbookInfo.book_name book_metadata)
          (TextbookInfo.publisher book_metadata)
          (TextbookInfo.grade book_metadata)
          (TextbookInfo.full_name book_metadata)
          (Chunk.pages chunk_info)
          range
          (Chunk.char_start chunk_info)
          (Chunk.char_end chunk_info) in
      textbook_metadata_loop filename file_type file_hash product_name
        book_metadata total (idx + 1) rest (metadata_list ++ [meta])
    end
  end.

(** [metadata_list] as [process_textbook_document] returns it. *)
Definition textbook_metadata (filename file_type file_hash : pystr)
    (product_name : option pystr) (book_metadata : TextbookInfo.t)
    (chunks_with_pages : list Chunk.t) : result (list ChunkMeta.t) :=
  textbook_metadata_loop filename file_type file_hash product_name
    book_metadata (len chunks_with_pages) 0 chunks_with_pages [].

End EmbeddingService.

(** ** Notions used in the statements *)

(** The number of one-character tokens of a text. *)
Definition single_char_tokens (text : pystr) : Z :=
  len (filter (fun w => len w =? 1) (split_ws text)).

(** The page records [page_info] agree with the page texts [full_text]:
    record [i] carries page number [i + 1] and the text of page [i], it
    starts where the pages before it, each followed by the two-character
    separator, end, and it is as long as its text. *)
Definition offsets_ok (full_text : list pystr) (page_info : list PageInfo.t) : Prop :=
  map PageInfo.text page_info = full_text
  /\ forall (i : nat) (r : PageInfo.t),
       nth_error page_info i = Some r ->
       PageInfo.page_number r = Z.of_nat i + 1
       /\ PageInfo.char_start r
          = py_sum (map (fun t => len t + 2) (firstn i full_text))
       /\ PageInfo.char_end r = PageInfo.char_start r + len (PageInfo.text r).

Section PageRuns.
Context `{Libraries}.

(** The processing of one page, from the history [h] in which the page
    is reached to the history [h'] in which its record [r] is complete:
    the native text is read; when its trimmed length is below 50 the page
    is rendered with [fitz.Matrix(2, 2)], converted to PNG and given to
    [extract_text] with enhancement and the language hint ["auto"], and
    the record holds the cleaned OCR text; otherwise no further call is
    made and the record holds the native text. *)
Definition page_run (h : History) (page : FitzPage) (r : PageInfo.t)
    (h' : History) : Prop :=
  exists text : pystr,
    fitz_get_text h page = inr text
    /\ PageInfo.ocr_used r = (len (strip text) <? 50)
    /\ (len (strip text) < 50 ->
        exists (pix : Pixmap) (img_data : bytes) (ocr_text : pystr),
          fitz_get_pixmap (h ++ [CallGetText page]) page 2 2 = inr pix
          /\ fitz_tobytes (h ++ [CallGetText page] ++ [CallGetPixmap page 2 2])
               pix (lit "png") = inr img_data
          /\ extract_text img_data true (lit "auto")
               (h ++ [CallGetText page] ++ [CallGetPixmap page 2 2]
                  ++ [CallToBytes pix (lit "png")])
             = (inr ocr_text, h')
          /\ PageInfo.text r = _clean_ocr_text ocr_text
          /\ PageInfo.ocr_used r = true)
    /\ (50 <= len (strip text) ->
        PageInfo.text r = text
        /\ PageInfo.ocr_used r = false
        /\ h' = h ++ [CallGetText page]).

(** The processing of the pages of a document, one after the other. *)
Inductive pages_run : History -> list FitzPage -> list PageInfo.t -> History -> Prop :=
| pages_run_nil (h : History) : pages_run h [] [] h
| pages_run_cons (h h1 h2 : History) (page : FitzPage) (r : PageInfo.t)
    (pages : list FitzPage) (rs : list PageInfo.t) :
    page_run h page r h1 ->
    pages_run h1 pages rs h2 ->
    pages_run h (page :: pages) (r :: rs) h2.

End PageRuns.

(** ** A three-page document

    A PDF whose second page is a scan: the text layer of pages 1 and 3 is
    long enough, that of page 2 holds a page number only, and Tesseract
    reads a line of text from the rendered page. *)

Definition scan_page_texts : list pystr :=
  [ lit "Bai 1. May tinh va em. Cac thanh phan co ban cua may tinh de ban.";
    lit "  12 ";
    lit "Bai 3. An toan ve dien khi su dung may tinh o nha va o truong." ].

Definition scan_libraries : Libraries :=
  {| ndarray := bytes;
     FitzPage := nat;
     Pixmap := nat;
     fitz_open := fun _ _ => inr [0; 1; 2]%nat;
     fitz_get_text := fun _ page => inr (nth page scan_page_texts []);
     fitz_get_pixmap := fun _ page _ _ => inr page;
     fitz_tobytes := fun _ _ _ => inr [];
     pil_open_bgr := fun _ image_content => inr image_content;
     tesseract_image_to_string := fun _ _ _ _ =>
       inr (lit "  Bai 2. Thong tin xung quanh ta  ");
     cv2_enhance := fun _ img => inr img |}.

(** ** Two small documents for the chunker *)

(** Three words of 25 letters.  With [chunk_size=60] and
    [chunk_overlap=30] the splitter breaks the text at its spaces into
    pieces of 25, 26 and 26 characters and merges them while they fit:
    the first two make a chunk of 51 characters, the third would make 77;
    the first piece is then dropped, 51 being more than the overlap, and
    the second and third make the next chunk, which the splitter trims.
    The second chunk starts with the last word of the first. *)
Definition overlap_text : pystr :=
  lit "aaaaaaaaaaaaaaaaaaaaaaaaa bbbbbbbbbbbbbbbbbbbbbbbbb ccccccccccccccccccccccccc".

Definition overlap_chunks : list pystr :=
  [ lit "aaaaaaaaaaaaaaaaaaaaaaaaa bbbbbbbbbbbbbbbbbbbbbbbbb";
    lit "bbbbbbbbbbbbbbbbbbbbbbbbb ccccccccccccccccccccccccc" ].

Definition overlap_splitter : TextSplitter :=
  {| split_text := fun _ _ _ _ => inr overlap_chunks |}.

(** A text in which a word of 25 letters comes twice, split with
    [chunk_size=46] and [chunk_overlap=10].  The splitter breaks the text
    at its spaces into pieces of 18, 26, 2, 19 and 26 characters.  The
    first three make a chunk of 46 characters; the fourth does not fit,
    the first two pieces are dropped until at most 10 characters are
    left, and the third and fourth make a fragment of 20 characters after
    trimming; the fifth does not fit either, both pieces are dropped, and
    it makes the last chunk alone.  The fragment in the middle starts with
    the last letter of the first chunk. *)
Definition repeated_text : pystr :=
  lit "xxxxxxxxxxxxxxxxxx ddddddddddddddddddddddddd b cccccccccccccccccc ddddddddddddddddddddddddd".

Definition repeated_first : pystr :=
  lit "xxxxxxxxxxxxxxxxxx ddddddddddddddddddddddddd b".

Definition repeated_short : pystr := lit "b cccccccccccccccccc".

Definition repeated_last : pystr := lit "ddddddddddddddddddddddddd".

Definition repeated_fragments : list pystr :=
  [repeated_first; repeated_short; repeated_last].

Definition repeated_splitter : TextSplitter :=
  {| split_text := fun _ _ _ _ => inr repeated_fragments |}.

(** A heading of seven letters in front of a paragraph of 65, split with
    [chunk_size=60] and no overlap: the heading is a fragment of its own,
    and the paragraph is broken after its second sentence. *)
Definition heading_text : pystr :=
  lit "Muc luc" ++ [10; 10]%N
  ++ lit "Bai 1. May tinh va em. Cac thanh phan co ban cua may tinh de ban.".

Definition heading_fragments : list pystr :=
  [ lit "Muc luc";
    lit "Bai 1. May tinh va em";
    lit ". Cac thanh phan co ban cua may tinh de ban." ].

Definition heading_settings : Settings :=
  {| CHUNK_SIZE := 60; CHUNK_OVERLAP := 0 |}.

Definition heading_splitter : TextSplitter :=
  {| split_text := fun _ _ _ _ => inr heading_fragments |}.

(** The offset at which page [i] starts in the full text: the lengths of
    the pages before it, each followed by the separator. *)
Definition page_offset (full_text : list pystr) (i : nat) : Z :=
  py_sum (map (fun t => len t + 2) (firstn i full_text)).

(** The three-page document split with [chunk_size=70] and no overlap:
    one chunk per page. *)
Definition scan_settings : Settings :=
  {| CHUNK_SIZE := 70; CHUNK_OVERLAP := 0 |}.

Definition scan_splitter : TextSplitter :=
  {| split_text := fun _ _ _ _ =>
       inr [ lit "Bai 1. May tinh va em. Cac thanh phan co ban cua may tinh de ban.";
             lit "Bai 2. Thong tin xung quanh ta";
             lit "Bai 3. An toan ve dien khi su dung may tinh o nha va o truong." ] |}.

(** ** An image that needs the second pass

    The recogniser reads two stray letters from the raw image and a line
    of text once the image has been enhanced. *)
Definition retry_libraries : Libraries :=
  {| ndarray := bytes;
     FitzPage := nat;
     Pixmap := nat;
     fitz_open := fun _ _ => inr [];
     fitz_get_text := fun _ _ => inr [];
     fitz_get_pixmap := fun _ page _ _ => inr page;
     fitz_tobytes := fun _ _ _ => inr [];
     pil_open_bgr := fun _ image_content => inr image_content;
     tesseract_image_to_string := fun h _ _ _ =>
       if existsb (fun c => match c with CallEnhance _ => true | _ => false end) h
       then inr (lit "Bai 2. Thong tin xung quanh ta ")
       else inr (lit " a b ");
     cv2_enhance := fun _ img => inr img |}.

(** ** Values, dictionaries and ranges *)

(** The values found in a metadata dictionary. *)
#[local] Unset Elimination Schemes.
Inductive PyVal : Type :=
| VNone
| VBool (b : bool)
| VInt (n : Z)
| VStr (s : pystr)
| VList (l : list PyVal)
| VDict (d : list (pystr * PyVal)).
#[local] Set Elimination Schemes.

(** A [dict] with string keys, in insertion order. *)
Definition pydict : Type := list (pystr * PyVal).

(** [d.get(k)] *)
Fixpoint dict_lookup (d : pydict) (k : pystr) : option PyVal :=
  match d with
  | [] => None
  | (k', v) :: d' => if str_eqb k k' then Some v else dict_lookup d' k
  end.

(** [d[k] = v]: the value of an existing key is replaced in place, a new
    key goes to the end. *)
Fixpoint dict_set (d : pydict) (k : pystr) (v : PyVal) : pydict :=
  match d with
  | [] => [(k, v)]
  | (k', v') :: d' =>
    if str_eqb k k' then (k', v) :: d' else (k', v') :: dict_set d' k v
  end.

(** [range(0, stop, step)] for a positive [step]. *)
Definition range_step (stop step : Z) : list Z :=
  map (fun k => step * Z.of_nat k)
      (seq 0 (Z.to_nat ((stop + step - 1) / step))).

(** ** services/qdrant_service.py *)

(** [qdrant_client.models.Distance] *)
Inductive Distance : Type := COSINE | EUCLID | DOT | MANHATTAN.

(** [PointStruct] *)
Module PointStruct.
Record t (Vector : Type) : Type := mk {
  id : pystr;
  vector : Vector;
  payload : pydict
}.
Arguments mk {Vector}.
Arguments id {Vector}.
Arguments vector {Vector}.
Arguments payload {Vector}.
End PointStruct.

(** The calls [QdrantService] makes: to its client, to [uuid.uuid4] and
    to [datetime.utcnow]. *)
Inductive QCall (Vector : Type) : Type :=
| QGetCollections
| QDeleteCollection (collection_name : pystr)
| QCreateCollection (collection_name : pystr) (size : Z) (distance : Distance)
| QUpsert (collection_name : pystr) (points : list (PointStruct.t Vector))
| QDelete (collection_name key value : pystr)
| QUuid4
| QUtcnow.

Arguments QGetCollections {Vector}.
Arguments QDeleteCollection {Vector}.
Arguments QCreateCollection {Vector}.
Arguments QUpsert {Vector}.
Arguments QDelete {Vector}.
Arguments QUuid4 {Vector}.
Arguments QUtcnow {Vector}.

(** The Qdrant client and the two sources of fresh values, each answer
    an arbitrary function of the calls made so far. *)
Class Qdrant : Type := {
  (** an embedding vector, [List[float]] *)
  Vector : Type;
  (** [str(uuid.uuid4())] *)
  uuid4 : list (QCall Vector) -> pystr;
  (** [datetime.utcnow().isoformat()] *)
  utcnow_isoformat : list (QCall Vector) -> pystr;
  (** [client.get_collections()], as the names of the collections *)
  client_get_collections : list (QCall Vector) -> result (list pystr);
  (** [client.delete_collection(name)] *)
  client_delete_collection : list (QCall Vector) -> pystr -> result unit;
  (** [client.create_collection(name, VectorParams(size, distance))] *)
  client_create_collection :
    list (QCall Vector) -> pystr -> Z -> Distance -> result unit;
  (** [client.upsert(collection_name, points)] *)
  client_upsert :
    list (QCall Vector) -> pystr -> list (PointStruct.t Vector) -> result unit;
  (** [client.delete(name, Filter(must=[FieldCondition(key, MatchValue(value))]))] *)
  client_delete : list (QCall Vector) -> pystr -> pystr -> pystr -> result unit
}.

Definition QLog `{Qdrant} : Type := list (QCall Vector).

(** One call, appended to the log. *)
Definition qcall `{Qdrant} {A : Type}
    (c : QCall Vector) (answer : QLog -> result A) : M QLog A :=
  fun log => (answer log, log ++ [c]).

Section QdrantService.
Context `{Qdrant}.
Local Open Scope py_scope.

(** [QdrantService.init_collection] *)
Definition init_collection (collection_name : pystr) (vector_size : Z)
    (distance : Distance) (recreate : bool) : M QLog unit :=
  try_except
    (collections <- qcall QGetCollections client_get_collections ;;
     let collection_exists :=
       existsb (fun name => str_eqb name collection_name) collections in
     collection_exists <-
       (if recreate && collection_exists then
          qcall (QDeleteCollection collection_name)
            (fun log => client_delete_collection log collection_name) ;;;
          ret false
        else ret collection_exists) ;;
     if negb collection_exists then
       qcall (QCreateCollection collection_name vector_size distance)
         (fun log => client_create_collection log collection_name vector_size
                       distance)
     else ret tt)
    (fun e => raise e).

(** The loop of [upsert_documents] that builds the points. *)
Fixpoint upsert_points_loop (doc_id : pystr)
    (items : list (pystr * Vector * pydict)) (idx : Z)
    (points : list (PointStruct.t Vector))
    : M QLog (list (PointStruct.t Vector)) :=
  match items with
  | [] => ret points
  | (doc, emb, meta) :: rest =>
    point_id <- qcall QUuid4 (fun log => inr (uuid4 log)) ;;
    timestamp <- qcall QUtcnow (fun log => inr (utcnow_isoformat log)) ;;
    let payload :=
      [ (lit "text", VStr doc);
        (lit "metadata",
         VDict (dict_set
                  (dict_set
                     (dict_set meta (lit "document_id") (VStr doc_id))
                     (lit "chunk_index") (VInt idx))
                  (lit "timestamp") (VStr timestamp))) ] in
    let point := PointStruct.mk point_id emb payload in
    upsert_points_loop doc_id rest (idx + 1) (points ++ [point])
  end.

(** The loop of [upsert_documents] that sends the points, 100 at a time. *)
Fixpoint upsert_batches_loop (collection_name : pystr)
    (points : list (PointStruct.t Vector)) (starts : list Z) : M QLog unit :=
  match starts with
  | [] => ret tt
  | i :: rest =>
    let batch_points := slice points i (i + 100) in
    qcall (QUpsert collection_name batch_points)
      (fun log => client_upsert log collection_name batch_points) ;;;
    upsert_batches_loop collection_name points rest
  end.

(** [QdrantService.upsert_documents] *)
Definition upsert_documents (collection_name : pystr) (documents : list pystr)
    (embeddings : list Vector) (metadata : list pydict) : M QLog pystr :=
  try_except
    (if negb ((len documents =? len embeddings)
              && (len embeddings =? len metadata)) then
       raise ValueError
     else
       doc_id <- qcall QUuid4 (fun log => inr (uuid4 log)) ;;
       points <- upsert_points_loop doc_id
                   (combine (combine documents embeddings) metadata) 0 [] ;;
       let batch_size := 100 in
       upsert_batches_loop collection_name points
         (range_step (len points) batch_size) ;;;
       ret doc_id)
    (fun e => raise e).

(** [QdrantService.delete_document] *)
Definition delete_document (collection_name document_id : pystr) : M QLog bool :=
  try_except
    (qcall (QDelete collection_name (lit "document_id") document_id)
       (fun log => client_delete log collection_name (lit "document_id")
                     document_id) ;;;
     ret true)
    (fun e => ret false).

(** [QdrantService.health_check] *)
Definition health_check : M QLog bool :=
  try_except
    (qcall QGetCollections client_get_collections ;;; ret true)
    (fun e => ret false).

End QdrantService.

(** The points sent to the store by the calls of a log, in order. *)
Definition upserted_points {Vector : Type} (log : list (QCall Vector))
    : list (PointStruct.t Vector) :=
  flat_map (fun c => match c with QUpsert _ points => points | _ => [] end) log.

(** The batches sent to the store by the calls of a log, each with its
    collection. *)
Definition upsert_calls {Vector : Type} (log : list (QCall Vector))
    : list (pystr * list (PointStruct.t Vector)) :=
  flat_map (fun c => match c with
                     | QUpsert name points => [(name, points)]
                     | _ => []
                     end) log.

(** The point built from document [doc], vector [emb] and metadata [meta]
    at position [idx] of the batch with identifier [doc_id]. *)
Definition point_carries {Vector : Type} (doc_id : pystr) (idx : Z)
    (doc : pystr) (emb : Vector) (meta : pydict)
    (p : PointStruct.t Vector) : Prop :=
  PointStruct.vector p = emb
  /\ dict_lookup (PointStruct.payload p) (lit "text") = Some (VStr doc)
  /\ exists md : pydict,
       dict_lookup (PointStruct.payload p) (lit "metadata") = Some (VDict md)
       /\ dict_lookup md (lit "document_id") = Some (VStr doc_id)
       /\ dict_lookup md (lit "chunk_index") = Some (VInt idx)
       /\ (exists ts, dict_lookup md (lit "timestamp") = Some (VStr ts))
       /\ forall k : pystr,
            k <> lit "document_id" -> k <> lit "chunk_index" ->
            k <> lit "timestamp" ->
            dict_lookup md k = dict_lookup meta k.

(** ** A store that accepts everything

    Identifiers are numbered by the length of the log, the clock stands
    still, and one collection, ["docs"], exists. *)
Definition demo_qdrant : Qdrant :=
  {| Vector := list Z;
     uuid4 := fun log => lit "id-" ++ str_of_int (len log);
     utcnow_isoformat := fun _ => lit "2024-01-01T00:00:00";
     client_get_collections := fun _ => inr [lit "docs"];
     client_delete_collection := fun _ _ => inr tt;
     client_create_collection := fun _ _ _ _ => inr tt;
     client_upsert := fun _ _ _ => inr tt;
     client_delete := fun _ _ _ _ => inr tt |}.

(** Two chunks; the metadata of the second already has a [chunk_index]. *)
Definition demo_documents : list pystr := [lit "first chunk"; lit "second chunk"].

Definition demo_embeddings : list (list Z) := [[1; 2]; [3; 4]].

Definition demo_metadata : list pydict :=
  [ [(lit "filename", VStr (lit "a.txt"))];
    [(lit "chunk_index", VInt 7); (lit "filename", VStr (lit "a.txt"))] ].

(** ** services/embedder.py *)

(** The calls of [OpenAIEmbedder.embed]. *)
Inductive ECall : Type :=
| ECreate (input : list pystr) (model : pystr)
| ESleep (seconds : Q).

(** [client.embeddings.create(input, model)], as the embeddings of
    [response.data], an arbitrary function of the calls made so far. *)
Class OpenAI : Type := {
  Embedding : Type;
  embeddings_create : list ECall -> list pystr -> pystr -> result (list Embedding)
}.

Definition ecall {A : Type} (c : ECall) (answer : list ECall -> result A)
    : M (list ECall) A :=
  fun log => (answer log, log ++ [c]).

Section OpenAIEmbedder.
Context `{OpenAI}.
Local Open Scope py_scope.

(** [self.model] *)
Definition embedder_model : pystr := lit "text-embedding-3-small".

(** The loop [for i in range(0, len(texts), batch_size)] of [embed]. *)
Fixpoint embed_loop (texts : list pystr) (starts : list Z)
    (all_embeddings : list Embedding) : M (list ECall) (list Embedding) :=
  match starts with
  | [] => ret all_embeddings
  | i :: rest =>
    let batch := slice texts i (i + 100) in
    embeddings <- ecall (ECreate batch embedder_model)
                    (fun log => embeddings_create log batch embedder_model) ;;
    let all_embeddings := all_embeddings ++ embeddings in
    (if i + 100 <? len texts then
       ecall (ESleep (1 # 10)) (fun _ => inr tt)
     else ret tt) ;;;
    embed_loop texts rest all_embeddings
  end.

(** [OpenAIEmbedder.embed] *)
Definition embed (texts : list pystr) : M (list ECall) (list Embedding) :=
  try_except
    (if len texts =? 0 then ret []
     else
       let batch_size := 100 in
       embed_loop texts (range_step (len texts) batch_size) [])
    (fun e => raise e).

(** [OpenAIEmbedder.embed_single] *)
Definition embed_single (text : pystr) : M (list ECall) Embedding :=
  embeddings <- embed [text] ;;
  lift (getitem embeddings 0).

End OpenAIEmbedder.

(** The log of requests for the given batches, each followed by the
    pause of 0.1 s. *)
Definition paused_requests (batches : list (list pystr)) : list ECall :=
  flat_map (fun batch => [ECreate batch embedder_model; ESleep (1 # 10)])
    batches.

(** An embedding service that answers every text with its length. *)
Definition demo_openai : OpenAI :=
  {| Embedding := Z;
     embeddings_create := fun _ input _ => inr (map len input) |}.

(** ** main.py

    The endpoints run in a monad of their own: besides the exceptions of
    the services they can raise [HTTPException], which is an [Exception]
    too and so is caught by [except Exception]. *)

Inductive ApiExc : Type :=
| HTTPException (status_code : Z) (detail : pystr)
| ServiceError (e : PyExc)
| AttributeError (name : pystr)
| ValidationError.

Definition Api (W A : Type) : Type := W -> (ApiExc + A) * W.

Definition api_ret {W A : Type} (a : A) : Api W A := fun w => (inr a, w).

Definition api_bind {W A B : Type} (c : Api W A) (k : A -> Api W B) : Api W B :=
  fun w =>
    match c w with
    | (inr a, w') => k a w'
    | (inl e, w') => (inl e, w')
    end.

Definition api_raise {W A : Type} (e : ApiExc) : Api W A := fun w => (inl e, w).

(** [try: c  except ...: h e] *)
Definition api_try {W A : Type} (c : Api W A) (h : ApiExc -> Api W A) : Api W A :=
  fun w =>
    match c w with
    | (inr a, w') => (inr a, w')
    | (inl e, w') => h e w'
    end.

(** A call into a service, whose exceptions are those of the services. *)
Definition await {W A : Type} (c : M W A) : Api W A :=
  fun w =>
    match c w with
    | (inr a, w') => (inr a, w')
    | (inl e, w') => (inl (ServiceError e), w')
    end.

(** A constructor or an expression that may raise. *)
Definition api_lift {W A : Type} (r : ApiExc + A) : Api W A := fun w => (r, w).

Declare Scope api_scope.
Delimit Scope api_scope with api.
Notation "x <- c ;; k" := (api_bind c (fun x => k))
  (at level 61, c at next level, right associativity) : api_scope.
Notation "c ;;; k" := (api_bind c (fun _ => k))
  (at level 61, right associativity) : api_scope.

(** [model.schemas.ExtractResponse] *)
Module ExtractResponse.
Record t : Type := mk {
  text : pystr;
  filename : pystr;
  file_type : pystr;
  char_count : Z;
  status : pystr;
  message : option pystr
}.
End ExtractResponse.

(** [model.schemas.DocumentResponse]; its [metadata] is left at [None]
    by every endpoint. *)
Module DocumentResponse.
Record t : Type := mk {
  document_id : pystr;
  filename : pystr;
  chunks_count : Z;
  status : pystr;
  message : pystr
}.
End DocumentResponse.

(** The dictionary returned by [process_document] and
    [process_textbook_document]; the key [book_metadata] is present in
    the second only. *)
Module ProcessResult.
Record t (Vec : Type) : Type := mk {
  chunks : list pystr;
  embeddings : list Vec;
  metadata : list pydict;
  book_metadata : option TextbookInfo.t
}.
Arguments mk {Vec}.
Arguments chunks {Vec}.
Arguments embeddings {Vec}.
Arguments metadata {Vec}.
Arguments book_metadata {Vec}.
End ProcessResult.

(** [fastapi.UploadFile] *)
Module UploadFile.
Record t (W : Type) : Type := mk {
  filename : option pystr;
  content_type : option pystr;
  read : M W bytes
}.
Arguments mk {W}.
Arguments filename {W}.
Arguments content_type {W}.
Arguments read {W}.
End UploadFile.

(** The truth value of an optional string: [None] and [""] are falsy. *)
Definition truthy_str (s : option pystr) : bool :=
  match s with
  | Some v => negb (len v =? 0)
  | None => false
  end.

(** A required [str] field of a pydantic model rejects [None]. *)
Definition required_str (s : option pystr) : ApiExc + pystr :=
  match s with
  | Some v => inr v
  | None => inl ValidationError
  end.

Module Main.
Section Endpoints.
Local Open Scope api_scope.

(** The world the services act on, and an embedding vector. *)
Variables (W Vec : Type).

(** [settings.MAX_FILE_SIZE_MB] and [settings.COLLECTION_NAME] *)
Variable MAX_FILE_SIZE_MB : Z.
Variable COLLECTION_NAME : pystr.

(** [embedding_service._extract_text(file_content, filename, file_type)] *)
Variable service_extract_text : bytes -> option pystr -> option pystr -> M W pystr.

(** [embedding_service.process_document(file_content, filename, file_type,
    additional_metadata)] *)
Variable service_process_document :
  bytes -> option pystr -> option pystr -> option pystr -> M W (ProcessResult.t Vec).

(** [embedding_service.process_textbook_document(file_content, filename,
    file_type, book_name, publisher, grade, product_name)] *)
Variable service_process_textbook_document :
  bytes -> option pystr -> option pystr -> pystr -> pystr -> option pystr ->
  option pystr -> M W (ProcessResult.t Vec).

(** [qdrant_service.upsert_documents] and [qdrant_service.delete_document] *)
Variable qdrant_upsert_documents :
  pystr -> list pystr -> list Vec -> list pydict -> M W pystr.
Variable qdrant_delete_document : pystr -> pystr -> M W bool.

(** [str(e)] *)
Variable exc_str : ApiExc -> pystr.

(** The detail [f"File size {file_size_mb:.2f}MB exceeds limit of ...MB"],
    as a function of the size in bytes. *)
Variable size_detail : Z -> pystr.

(** [ExtractResponse(...)] *)
Definition new_extract_response (text : pystr) (filename file_type : option pystr)
    (char_count : Z) (status : pystr) (message : option pystr)
    : ApiExc + ExtractResponse.t :=
  match required_str filename with
  | inl e => inl e
  | inr filename =>
    match required_str file_type with
    | inl e => inl e
    | inr file_type =>
      inr (ExtractResponse.mk text filename file_type char_count status message)
    end
  end.

(** [DocumentResponse(...)] *)
Definition new_document_response (document_id : pystr) (filename : option pystr)
    (chunks_count : Z) (status message : pystr) : ApiExc + DocumentResponse.t :=
  match required_str filename with
  | inl e => inl e
  | inr filename =>
    inr (DocumentResponse.mk document_id filename chunks_count status message)
  end.

(** The endpoint [POST /extract].  The size test
    [len(content) / (1024 * 1024) > MAX_FILE_SIZE_MB] is taken on the
    integers; the division by a power of two is exact. *)
Definition extract_text (file : UploadFile.t W) : Api W ExtractResponse.t :=
  api_try
    ((if negb (truthy_str (UploadFile.filename file)) then
        api_raise (HTTPException 400 (lit "Invalid file"))
      else api_ret tt) ;;;
     content <- await (UploadFile.read file) ;;
     (if len content >? MAX_FILE_SIZE_MB * (1024 * 1024) then
        api_raise (HTTPException 400 (size_detail (len content)))
      else api_ret tt) ;;;
     extracted_text <-
       await (service_extract_text content (UploadFile.filename file)
                (UploadFile.content_type file)) ;;
     (if (len extracted_text =? 0) || (len (strip extracted_text) =? 0) then
        api_raise (HTTPException 400
                     (lit "No text could be extracted from the file"))
      else api_ret tt) ;;;
     api_lift
       (new_extract_response extracted_text (UploadFile.filename file)
          (UploadFile.content_type file) (len extracted_text) (lit "success")
          (Some (lit "Successfully extracted "
                 ++ str_of_int (len extracted_text) ++ lit " characters"))))
    (fun e =>
       match e with
       | HTTPException _ _ => api_raise e
       | _ => api_raise (HTTPException 500
                           (lit "Text extraction failed: " ++ exc_str e))
       end).

(** The endpoint [POST /upload-document]. *)
Definition upload_document (file : UploadFile.t W) (metadata : option pystr)
    : Api W DocumentResponse.t :=
  api_try
    ((if negb (truthy_str (UploadFile.filename file)) then
        api_raise (HTTPException 400 (lit "Invalid file"))
      else api_ret tt) ;;;
     content <- await (UploadFile.read file) ;;
     result <-
       await (service_process_document content (UploadFile.filename file)
                (UploadFile.content_type file) metadata) ;;
     doc_id <-
       await (qdrant_upsert_documents COLLECTION_NAME
                (ProcessResult.chunks result) (ProcessResult.embeddings result)
                (ProcessResult.metadata result)) ;;
     api_lift
       (new_document_response doc_id (UploadFile.filename file)
          (len (ProcessResult.chunks result)) (lit "success")
          (lit "Document processed and indexed successfully")))
    (fun e => api_raise (HTTPException 500 (exc_str e))).

(** The loop of the endpoint [POST /upload-batch]. *)
Fixpoint upload_batch_loop (files : list (UploadFile.t W))
    (results : list DocumentResponse.t) : Api W (list DocumentResponse.t) :=
  match files with
  | [] => api_ret results
  | file :: rest =>
    results <-
      api_try
        (result <- upload_document file None ;;
         api_ret (results ++ [result]))
        (fun e =>
           failed <- api_lift
                       (new_document_response (lit "") (UploadFile.filename file)
                          0 (lit "failed") (exc_str e)) ;;
           api_ret (results ++ [failed])) ;;
    upload_batch_loop rest results
  end.

(** The endpoint [POST /upload-batch]. *)
Definition upload_batch (files : list (UploadFile.t W))
    : Api W (list DocumentResponse.t) :=
  upload_batch_loop files [].

(** The endpoint [POST /upload-textbook]. *)
Definition upload_textbook (file : UploadFile.t W) (book_name publisher : pystr)
    (grade product_name : option pystr) : Api W DocumentResponse.t :=
  api_try
    ((if negb (truthy_str (UploadFile.filename file)) then
        api_raise (HTTPException 400 (lit "Invalid file"))
      else api_ret tt) ;;;
     (if (len book_name =? 0) || (len (strip book_name) =? 0) then
        api_raise (HTTPException 400 (lit "Book name is required"))
      else api_ret tt) ;;;
     (if (len publisher =? 0) || (len (strip publisher) =? 0) then
        api_raise (HTTPException 400 (lit "Publisher is required"))
      else api_ret tt) ;;;
     content <- await (UploadFile.read file) ;;
     result <-
       await (service_process_textbook_document content
                (UploadFile.filename file) (UploadFile.content_type file)
                book_name publisher grade product_name) ;;
     doc_id <-
       await (qdrant_upsert_documents COLLECTION_NAME
                (ProcessResult.chunks result) (ProcessResult.embeddings result)
                (ProcessResult.metadata result)) ;;
     filename <- api_lift (required_str (UploadFile.filename file)) ;;
     api_lift
       (new_document_response doc_id (UploadFile.filename file)
          (len (ProcessResult.chunks result)) (lit "success")
          (lit "Textbook processed successfully. Book: "
           ++ match ProcessResult.book_metadata result with
              | Some book => TextbookInfo.full_name book
              | None => filename
              end)))
    (fun e => api_raise (HTTPException 500 (exc_str e))).

(** The endpoint [DELETE /document/{document_id}]. *)
Definition delete_document (document_id : pystr) : Api W pydict :=
  api_try
    (success <- await (qdrant_delete_document COLLECTION_NAME document_id) ;;
     if success then
       api_ret [ (lit "status", VStr (lit "success"));
                 (lit "message",
                  VStr (lit "Document " ++ document_id ++ lit " deleted")) ]
     else api_raise (HTTPException 404 (lit "Document not found")))
    (fun e => api_raise (HTTPException 500 (exc_str e))).

(** The endpoint [GET /document/{document_id}/metadata].  It calls
    [qdrant_service.search_documents], a method [QdrantService] does not
    define: evaluating the attribute raises [AttributeError]. *)
Definition get_document_metadata (document_id : pystr) : Api W pydict :=
  api_try
    (points <-
       (api_raise (AttributeError (lit "search_documents"))
        : Api W (list (PointStruct.t Vec))) ;;
     (if len points =? 0 then
        api_raise (HTTPException 404 (lit "Document not found"))
      else api_ret tt) ;;;
     first <-
       api_lift match getitem points 0 with
                | inl e => inl (ServiceError e)
                | inr p => inr p
                end ;;
     let metadata := PointStruct.payload first in
     api_ret [ (lit "document_id", VStr document_id);
               (lit "metadata", VDict metadata);
               (lit "status", VStr (lit "success")) ])
    (fun e =>
       match e with
       | HTTPException _ _ => api_raise e
       | _ => api_raise (HTTPException 500 (exc_str e))
       end).

End Endpoints.
End Main.

(** ** A run of the endpoints

    The endpoints over the store that accepts everything: an uploaded
    text file of three bytes, an extraction that reads it as ["abc"], a
    processing step that returns the two chunks above, and [str(e)] as
    Starlette prints an [HTTPException]. *)
Definition demo_exc_str (e : ApiExc) : pystr :=
  match e with
  | HTTPException status_code detail =>
    str_of_int status_code ++ lit ": " ++ detail
  | ServiceError _ => lit "service error"
  | AttributeError name => lit "no attribute " ++ name
  | ValidationError => lit "validation error"
  end.

Definition demo_size_detail (size : Z) : pystr :=
  lit "File size " ++ str_of_int size ++ lit " bytes exceeds limit".

Definition demo_file (filename : option pystr)
    : UploadFile.t (@QLog demo_qdrant) :=
  UploadFile.mk filename (Some (lit "text/plain"))
    (ret [Byte.x61; Byte.x62; Byte.x63]).

Definition demo_extract_text (content : bytes)
    (filename file_type : option pystr) : M (@QLog demo_qdrant) pystr :=
  ret (lit "abc").

Definition demo_process_document (content : bytes)
    (filename file_type additional_metadata : option pystr)
    : M (@QLog demo_qdrant) (ProcessResult.t (list Z)) :=
  ret (ProcessResult.mk demo_documents demo_embeddings demo_metadata None).

Definition demo_process_textbook_document (content : bytes)
    (filename file_type : option pystr) (book_name publisher : pystr)
    (grade product_name : option pystr)
    : M (@QLog demo_qdrant) (ProcessResult.t (list Z)) :=
  ret (ProcessResult.mk demo_documents demo_embeddings demo_metadata None).

(* ================================================================== *)
(** * Part II: properties                                              *)
(* ================================================================== *)

(** ** Strings *)

Example lit_vi : lit "Lớp" = [76; 7899; 112]%N.
Proof. reflexivity. Qed.

Example find_ex : find (lit "abcabc") (lit "bc") 2 = 4.
Proof. reflexivity. Qed.

Example find_ex2 : find (lit "abcabc") (lit "bc") 5 = -1.
Proof. reflexivity. Qed.

Example find_ex3 : find (lit "abc") (lit "") 3 = 3 /\ find (lit "abc") (lit "") 4 = -1.
Proof. split; reflexivity. Qed.

Example slice_ex : slice (lit "abcdef") (-1) 3 = [] /\ slice (lit "abcdef") 1 3 = lit "bc".
Proof. split; reflexivity. Qed.

Example str_ex : str_of_int 0 = lit "0" /\ str_of_int 42 = lit "42" /\ str_of_int (-7) = lit "-7".
Proof. repeat split; reflexivity. Qed.

Example split_ex : split_on 46%N (lit "a.b..c") = [lit "a"; lit "b"; lit ""; lit "c"].
Proof. reflexivity. Qed.

Example split_ws_ex : split_ws (lit "  ab  c d ") = [lit "ab"; lit "c"; lit "d"].
Proof. reflexivity. Qed.

Example strip_ex : strip (lit "  a b  ") = lit "a b".
Proof. reflexivity. Qed.

Example clean_ocr_text_ex :
  _clean_ocr_text (lit "  a b " ++ [10; 10]%N ++ lit " c  ") = lit "a b" ++ [10%N] ++ lit "c".
Proof. reflexivity. Qed.

Example sorted_set_ex : sorted_set [3; 1; 3; 2; 1] = [1; 2; 3].
Proof. reflexivity. Qed.

Lemma len_nonneg {A : Type} (l : list A) : 0 <= len l.
Proof. unfold len. lia. Qed.

Lemma len_nil_iff {A : Type} (l : list A) : len l = 0 <-> l = [].
Proof.
  unfold len. split.
  - destruct l; [reflexivity | cbn [List.length]; lia].
  - intros ->. reflexivity.
Qed.

Lemma len_app {A : Type} (l1 l2 : list A) : len (l1 ++ l2) = len l1 + len l2.
Proof. unfold len. rewrite length_app. lia. Qed.

Lemma len_cons {A : Type} (x : A) (l : list A) : len (x :: l) = 1 + len l.
Proof. unfold len. cbn [List.length]. lia. Qed.

Lemma str_eqb_eq (a b : pystr) : str_eqb a b = true <-> a = b.
Proof.
  revert b. induction a as [|x a IH]; intros [|y b]; simpl; split;
    try congruence; try reflexivity.
  - intros E. apply andb_prop in E. destruct E as [E1 E2].
    apply N.eqb_eq in E1. apply IH in E2. congruence.
  - intros E. injection E as -> ->. rewrite N.eqb_refl. simpl.
    apply IH. reflexivity.
Qed.

Lemma str_eqb_refl (a : pystr) : str_eqb a a = true.
Proof. apply str_eqb_eq. reflexivity. Qed.

Lemma lstrip_all_space (s : pystr) :
  forallb is_space s = true -> lstrip s = [].
Proof.
  induction s as [|c r IH]; simpl; [reflexivity|].
  intros E. apply andb_prop in E. destruct E as [Ec Er].
  rewrite Ec. auto.
Qed.

Lemma strip_all_space (s : pystr) :
  forallb is_space s = true -> strip s = [].
Proof.
  intros E. unfold strip, rstrip. rewrite (lstrip_all_space s E). reflexivity.
Qed.

(** A string without tokens consists of whitespace only. *)
Lemma split_ws_nil (s : pystr) :
  split_ws s = [] -> forallb is_space s = true.
Proof.
  induction s as [|c r IH]; [reflexivity|].
  simpl. destruct (is_space c) eqn:Ec; simpl.
  - exact IH.
  - destruct r as [|d r']; [discriminate|].
    destruct (is_space d); [discriminate|].
    destruct (split_ws (d :: r')); discriminate.
Qed.

Lemma py_sum_from (l : list Z) (a : Z) : fold_left Z.add l a = a + py_sum l.
Proof.
  unfold py_sum. revert a. induction l as [|x l IH]; intros a; cbn [fold_left].
  - lia.
  - rewrite IH. rewrite (IH (0 + x)). lia.
Qed.

Lemma py_sum_app (l1 l2 : list Z) : py_sum (l1 ++ l2) = py_sum l1 + py_sum l2.
Proof.
  unfold py_sum at 1. rewrite fold_left_app. rewrite py_sum_from.
  reflexivity.
Qed.

Lemma py_sum_ones {A : Type} (l : list A) : py_sum (map (fun _ => 1) l) = len l.
Proof.
  induction l as [|x l IH]; [reflexivity|].
  change (map (fun _ => 1) (x :: l)) with ([1] ++ map (fun _ : A => 1) l).
  rewrite py_sum_app, IH, len_cons. reflexivity.
Qed.

(** ** The OCR quality gate *)

(** What [_is_poor_result] computes, without the guards. *)
Lemma _is_poor_result_eq (text : pystr) :
  _is_poor_result text =
  inr ((len (strip text) <? 10)
       || (len (split_ws text) <? 2 * single_char_tokens text)).
Proof.
  unfold _is_poor_result, single_char_tokens.
  destruct (len text =? 0) eqn:E0.
  - apply Z.eqb_eq in E0. apply len_nil_iff in E0. subst text. reflexivity.
  - cbn [orb]. destruct (len (strip text) <? 10) eqn:E10; [reflexivity|].
    cbn [orb].
    destruct (len (split_ws text) =? 0) eqn:Ew.
    + apply Z.eqb_eq in Ew. apply len_nil_iff in Ew.
      apply split_ws_nil, strip_all_space in Ew.
      rewrite Ew in E10. discriminate.
    + rewrite py_sum_ones. unfold truediv. rewrite Ew.
      apply Z.eqb_neq in Ew.
      pose proof (len_nonneg (split_ws text)) as Hn.
      set (n := len (split_ws text)) in *.
      set (k := len (filter (fun w : list char => len w =? 1) (split_ws text))).
      unfold Qle_bool. cbn [Qnum Qden].
      rewrite Z2Pos.id by lia.
      destruct (n <? 2 * k) eqn:Ek.
      * apply Z.ltb_lt in Ek.
        destruct (k * 2 <=? 1 * n) eqn:Ek'; [apply Z.leb_le in Ek'; lia|].
        reflexivity.
      * apply Z.ltb_ge in Ek.
        destruct (k * 2 <=? 1 * n) eqn:Ek'; [reflexivity|].
        apply Z.leb_gt in Ek'. lia.
Qed.

Lemma poor_verdict_bool (text : pystr) :
  (len (strip text) <? 10)
  || (len (split_ws text) <? 2 * single_char_tokens text) = true
  <-> (len (strip text) < 10
       \/ len (split_ws text) < 2 * single_char_tokens text).
Proof. rewrite orb_true_iff, !Z.ltb_lt. reflexivity. Qed.

(** C7.  The quality gate answers "poor" exactly when the trimmed length
    of the text is below 10 or more than half of its whitespace-separated
    tokens are single characters, and answers "not poor" otherwise;
    ["a b c d e f"] is poor and ["hello world this is fine"] is not. *)
Theorem is_poor_result_iff :
  (forall text : pystr,
     _is_poor_result text = inr true <->
     (len (strip text) < 10
      \/ len (split_ws text) < 2 * single_char_tokens text))
  /\ (forall text : pystr,
        _is_poor_result text = inr false <->
        ~ (len (strip text) < 10
           \/ len (split_ws text) < 2 * single_char_tokens text))
  /\ _is_poor_result (lit "a b c d e f") = inr true
  /\ _is_poor_result (lit "hello world this is fine") = inr false.
Proof.
  split; [|split; [|split]].
  - intros text. rewrite _is_poor_result_eq. split.
    + intros E. injection E as E. apply poor_verdict_bool. exact E.
    + intros Hd. f_equal. apply poor_verdict_bool. exact Hd.
  - intros text. rewrite _is_poor_result_eq. split.
    + intros E Hd. apply poor_verdict_bool in Hd. rewrite Hd in E. discriminate.
    + intros Hn. f_equal.
      destruct ((len (strip text) <? 10)
                || (len (split_ws text) <? 2 * single_char_tokens text)) eqn:E;
        [|reflexivity].
      exfalso. apply Hn, poor_verdict_bool, E.
  - reflexivity.
  - reflexivity.
Qed.

(** C10.  The classifier returns a verdict on every string and never
    raises: on the empty string and on a whitespace-only string the
    verdict is "poor", reached before any division, and the division by
    the number of tokens only happens when there is a token. *)
Theorem is_poor_result_total :
  (forall text : pystr, exists b : bool, _is_poor_result text = inr b)
  /\ _is_poor_result (lit "") = inr true
  /\ (forall text : pystr,
        forallb is_space text = true -> _is_poor_result text = inr true)
  /\ (forall text : pystr,
        split_ws text = [] -> _is_poor_result text = inr true)
  /\ (forall text : pystr,
        _is_poor_result text <> inl ZeroDivisionError).
Proof.
  split; [|split; [|split; [|split]]].
  - intros text. rewrite _is_poor_result_eq. eexists. reflexivity.
  - reflexivity.
  - intros text Hs. rewrite _is_poor_result_eq.
    rewrite (strip_all_space text Hs). reflexivity.
  - intros text Hw. rewrite _is_poor_result_eq.
    rewrite (strip_all_space text (split_ws_nil text Hw)). reflexivity.
  - intros text. rewrite _is_poor_result_eq. discriminate.
Qed.

(** ** The metadata parser *)

Lemma getitem_nth {A : Type} (l : list A) (i : Z) (x : A) :
  0 <= i -> nth_error l (Z.to_nat i) = Some x -> getitem l i = inr x.
Proof.
  intros Hi Hn. unfold getitem.
  assert (Hlt : (Z.to_nat i < List.length l)%nat).
  { apply nth_error_Some. congruence. }
  destruct (i <? 0) eqn:E; [apply Z.ltb_lt in E; lia|].
  rewrite E. cbn [orb].
  destruct (len l <=? i) eqn:E'.
  - apply Z.leb_le in E'. unfold len in E'. lia.
  - rewrite Hn. reflexivity.
Qed.

Lemma split_on_cons (sep : char) (s : pystr) :
  exists p ps, split_on sep s = p :: ps.
Proof.
  induction s as [|c r [p [ps IH]]]; simpl.
  - eauto.
  - destruct (c =? sep)%N; [eauto|]. rewrite IH. eauto.
Qed.

Lemma split_on_no_sep (sep : char) (s : pystr) :
  Forall (fun c => c <> sep) s -> split_on sep s = [s].
Proof.
  induction 1 as [|c r Hc Hr IH]; simpl; [reflexivity|].
  apply N.eqb_neq in Hc. rewrite Hc, IH. reflexivity.
Qed.

Lemma split_on_app_sep (sep : char) (p rest : pystr) :
  Forall (fun c => c <> sep) p ->
  split_on sep (p ++ sep :: rest) = p :: split_on sep rest.
Proof.
  induction 1 as [|c r Hc Hr IH]; cbn [app split_on].
  - rewrite N.eqb_refl. reflexivity.
  - apply N.eqb_neq in Hc. rewrite Hc, IH. reflexivity.
Qed.

(** The stem of a name whose part before the extension has no dot. *)
Lemma stem_no_dot (name ext : pystr) :
  Forall (fun c => c <> 46%N) name ->
  stem (name ++ 46%N :: ext) = name /\ stem name = name.
Proof.
  intros Hname. unfold stem.
  rewrite (split_on_app_sep _ _ _ Hname), (split_on_no_sep _ _ Hname).
  split; reflexivity.
Qed.

Lemma dict_get_unknown (d : list (pystr * pystr)) (k default : pystr) :
  ~ In k (map fst d) -> dict_get d k default = default.
Proof.
  induction d as [|[k' v] d IH]; simpl; [reflexivity|].
  intros Hn. destruct (str_eqb k k') eqn:E.
  - apply str_eqb_eq in E. subst. exfalso. apply Hn. left. reflexivity.
  - apply IH. intros Hin. apply Hn. right. exact Hin.
Qed.

(** What the parser returns when the stem has at least four fields. *)
Lemma parse_textbook_metadata_fields
    (filename b s p g : pystr) (rest : list pystr) :
  split_on 95%N (stem filename) = b :: s :: p :: g :: rest ->
  parse_textbook_metadata filename =
  inr (BookMetadata.mk
         (dict_get book_type_map b b)
         (dict_get subject_map s s)
         (dict_get publisher_map p p)
         (lit "Lớp " ++ g)
         (dict_get book_type_map b b ++ lit " " ++ dict_get subject_map s s
          ++ lit " " ++ dict_get publisher_map p p ++ lit " "
          ++ (lit "Lớp " ++ g))).
Proof.
  unfold stem. intros Hparts.
  destruct (split_on_cons 46%N filename) as [name [others Hname]].
  rewrite Hname in Hparts. cbn [hd] in Hparts.
  unfold parse_textbook_metadata, parse_textbook_metadata_try, try_except.
  unfold bind at 1 2. unfold lift at 1.
  rewrite Hname. rewrite (getitem_nth (name :: others) 0 name) by (reflexivity || lia).
  rewrite Hparts.
  assert (Hlen : (4 <=? len (b :: s :: p :: g :: rest)) = true).
  { apply Z.leb_le. rewrite !len_cons. pose proof (len_nonneg rest). lia. }
  rewrite Hlen.
  unfold bind, lift.
  rewrite (getitem_nth _ 0 b), (getitem_nth _ 1 s), (getitem_nth _ 2 p),
    (getitem_nth _ 3 g) by (reflexivity || lia).
  reflexivity.
Qed.

(** What the parser returns when the stem has fewer than four fields. *)
Lemma parse_textbook_metadata_short (filename : pystr) :
  len (split_on 95%N (stem filename)) < 4 ->
  parse_textbook_metadata filename = inr empty_metadata.
Proof.
  unfold stem. intros Hparts.
  destruct (split_on_cons 46%N filename) as [name [others Hname]].
  rewrite Hname in Hparts. cbn [hd] in Hparts.
  unfold parse_textbook_metadata, parse_textbook_metadata_try, try_except.
  unfold bind at 1 2. unfold lift at 1.
  rewrite Hname. rewrite (getitem_nth (name :: others) 0 name) by (reflexivity || lia).
  apply Z.leb_gt in Hparts. rewrite Hparts. reflexivity.
Qed.

Lemma split_fields_of_stem (code : pystr) :
  Forall (fun c => c <> 46%N) code ->
  Forall (fun c => c <> 95%N) code ->
  split_on 95%N (stem ([97; 95; 98; 95; 99; 95]%N ++ code))
  = [[97%N]; [98%N]; [99%N]; code].
Proof.
  intros Hdot Hus. unfold stem.
  rewrite (split_on_no_sep 46%N).
  - simpl. rewrite (split_on_no_sep _ code Hus). reflexivity.
  - cbn [app]. repeat (constructor; [discriminate|]). exact Hdot.
Qed.

Lemma repeat_Forall_neq (a b : char) (n : nat) :
  a <> b -> Forall (fun c => c <> b) (repeat a n).
Proof.
  intros Hab. induction n; simpl; constructor; assumption.
Qed.

(** C2.  On ["random.pdf"], whose stem has one field, the parser returns
    without raising and leaves the four structured fields empty, but
    [full_name] is empty as well: it is not the file name.  The same
    holds for every file name whose stem has fewer than four fields. *)
Theorem parse_random_pdf_full_name_empty :
  parse_textbook_metadata (lit "random.pdf")
  = inr (BookMetadata.mk (lit "") (lit "") (lit "") (lit "") (lit ""))
  /\ lit "" <> lit "random.pdf"
  /\ (forall filename : pystr,
        len (split_on 95%N (stem filename)) < 4 ->
        parse_textbook_metadata filename
        = inr (BookMetadata.mk (lit "") (lit "") (lit "") (lit "") (lit ""))).
Proof.
  split; [reflexivity|]. split; [discriminate|].
  exact parse_textbook_metadata_short.
Qed.

(** C5 as stated does not hold: there is no lookup table for the
    grade.  Whatever the table, some grade code is neither translated by
    it nor passed through unchanged. *)
Lemma grade_is_not_a_table_lookup :
  ~ exists grade_map : list (pystr * pystr),
      forall (filename b s p g : pystr) (rest : list pystr),
        split_on 95%N (stem filename) = b :: s :: p :: g :: rest ->
        exists m, parse_textbook_metadata filename = inr m
                  /\ BookMetadata.grade m = dict_get grade_map g g.
Proof.
  intros [grade_map Htable].
  set (n := S (list_max (map (fun kv => List.length (fst kv)) grade_map))).
  set (code := repeat 65%N n).
  assert (Hfields := split_fields_of_stem code
            (repeat_Forall_neq 65%N 46%N n ltac:(discriminate))
            (repeat_Forall_neq 65%N 95%N n ltac:(discriminate))).
  destruct (Htable _ _ _ _ _ _ Hfields) as [m [Hm Hgrade]].
  rewrite (parse_textbook_metadata_fields _ _ _ _ _ _ Hfields) in Hm.
  injection Hm as Hm. subst m. cbn [BookMetadata.grade] in Hgrade.
  rewrite dict_get_unknown in Hgrade.
  - apply (f_equal (@List.length char)) in Hgrade.
    cbn [List.length] in Hgrade. lia.
  - intros Hin. apply in_map_iff in Hin. destruct Hin as [[k v] [Hk Hin]].
    cbn [fst] in Hk. subst k.
    assert (Hle : (List.length code
                   <= list_max (map (fun kv => List.length (fst kv)) grade_map))%nat).
    { pose proof (proj1 (list_max_le _ _) (Nat.le_refl
        (list_max (map (fun kv : pystr * pystr => List.length (fst kv)) grade_map))))
        as Hall.
      rewrite Forall_forall in Hall. apply Hall.
      apply in_map_iff. exists (code, v). split; [reflexivity | exact Hin]. }
    unfold code in Hle. rewrite repeat_length in Hle. unfold n in Hle. lia.
Qed.

(** C5, amended.  For a file name made of a stem without a dot, alone
    or followed by a dot and an extension: when the stem has at least
    four fields, the first three codes are resolved through the
    book-type, subject and publisher tables, a code missing from its
    table being its own label; the grade is the fourth code after the
    prefix ["Lớp "]; [full_name] is the four labels joined by single
    spaces.  ["SGK_TIN_CD_3.pdf"] gives "Sách giáo khoa", "Tin học",
    "Cánh Diều" and "Lớp 3". *)
Theorem parse_textbook_metadata_four_fields :
  (forall (name : pystr) (ext : option pystr) (b s p g : pystr)
          (rest : list pystr),
     Forall (fun c => c <> 46%N) name ->
     split_on 95%N name = b :: s :: p :: g :: rest ->
     exists m : BookMetadata.t,
       parse_textbook_metadata
         match ext with
         | Some e => name ++ 46%N :: e
         | None => name
         end
       = inr m
       /\ BookMetadata.book_type m = dict_get book_type_map b b
       /\ BookMetadata.subject m = dict_get subject_map s s
       /\ BookMetadata.publisher m = dict_get publisher_map p p
       /\ BookMetadata.grade m = lit "Lớp " ++ g
       /\ BookMetadata.full_name m
          = join (lit " ")
              [BookMetadata.book_type m; BookMetadata.subject m;
               BookMetadata.publisher m; BookMetadata.grade m]
       /\ (~ In b (map fst book_type_map) -> BookMetadata.book_type m = b)
       /\ (~ In s (map fst subject_map) -> BookMetadata.subject m = s)
       /\ (~ In p (map fst publisher_map) -> BookMetadata.publisher m = p))
  /\ parse_textbook_metadata (lit "SGK_TIN_CD_3.pdf")
     = inr (BookMetadata.mk
              (lit "Sách giáo khoa") (lit "Tin học") (lit "Cánh Diều")
              (lit "Lớp 3") (lit "Sách giáo khoa Tin học Cánh Diều Lớp 3")).
Proof.
  split; [|reflexivity].
  intros name ext b s p g rest Hname Hfields.
  assert (Hstem : split_on 95%N
                    (stem match ext with
                          | Some e => name ++ 46%N :: e
                          | None => name
                          end)
                  = b :: s :: p :: g :: rest).
  { destruct ext as [e|];
      [rewrite (proj1 (stem_no_dot name e Hname))
      |rewrite (proj2 (stem_no_dot name [] Hname))]; exact Hfields. }
  eexists. split; [apply (parse_textbook_metadata_fields _ _ _ _ _ _ Hstem)|].
  cbn [BookMetadata.book_type BookMetadata.subject BookMetadata.publisher
       BookMetadata.grade BookMetadata.full_name join].
  repeat split; try reflexivity; intros Hn; apply dict_get_unknown; exact Hn.
Qed.

(** The amended C5 on a name with five fields and an unknown subject. *)
Lemma parse_textbook_metadata_four_fields_witness :
  split_on 95%N (lit "STK_XYZ_KN_12_tap1")
  = [lit "STK"; lit "XYZ"; lit "KN"; lit "12"; lit "tap1"]
  /\ exists m : BookMetadata.t,
       parse_textbook_metadata (lit "STK_XYZ_KN_12_tap1.pdf") = inr m
       /\ BookMetadata.subject m = lit "XYZ"
       /\ BookMetadata.full_name m = lit "Sách tham khảo XYZ Kết Nối Tri Thức Lớp 12".
Proof.
  split; [reflexivity|].
  destruct (proj1 parse_textbook_metadata_four_fields
              (lit "STK_XYZ_KN_12_tap1") (Some (lit "pdf"))
              (lit "STK") (lit "XYZ") (lit "KN") (lit "12") [lit "tap1"])
    as [m [Hm [Hb [Hs [Hp [Hg [Hf _]]]]]]].
  { repeat constructor; discriminate. }
  { reflexivity. }
  exists m. split; [exact Hm|]. split; [rewrite Hs; reflexivity|].
  rewrite Hf, Hb, Hs, Hp, Hg. reflexivity.
Defined.

(** ** The page-range label *)

Lemma fold_min_spec (r : list Z) (x : Z) :
  In (fold_left Z.min r x) (x :: r)
  /\ Forall (fun y => fold_left Z.min r x <= y) (x :: r).
Proof.
  revert x. induction r as [|y r IH]; intros x; cbn [fold_left].
  - split; [left; reflexivity | constructor; [lia | constructor]].
  - destruct (IH (Z.min x y)) as [Hin Hall].
    inversion Hall as [|? ? Hhd Htl]; subst.
    split.
    + destruct Hin as [Hin | Hin].
      * destruct (Z.min_spec x y) as [[_ E] | [_ E]];
          [left | right; left]; rewrite <- Hin; lia.
      * right. right. exact Hin.
    + constructor; [lia|]. constructor; [lia | exact Htl].
Qed.

Lemma fold_max_spec (r : list Z) (x : Z) :
  In (fold_left Z.max r x) (x :: r)
  /\ Forall (fun y => y <= fold_left Z.max r x) (x :: r).
Proof.
  revert x. induction r as [|y r IH]; intros x; cbn [fold_left].
  - split; [left; reflexivity | constructor; [lia | constructor]].
  - destruct (IH (Z.max x y)) as [Hin Hall].
    inversion Hall as [|? ? Hhd Htl]; subst.
    split.
    + destruct Hin as [Hin | Hin].
      * destruct (Z.max_spec x y) as [[_ E] | [_ E]];
          [right; left | left]; rewrite <- Hin; lia.
      * right. right. exact Hin.
    + constructor; [lia|]. constructor; [lia | exact Htl].
Qed.

(** The label of a list of pages, case by case. *)
Lemma page_range_of_cases :
  (forall pages : list Z,
     1 < len pages ->
     exists lo hi : Z,
       In lo pages /\ Forall (fun p => lo <= p) pages
       /\ In hi pages /\ Forall (fun p => p <= hi) pages
       /\ page_range_of pages = inr (str_of_int lo ++ lit "-" ++ str_of_int hi))
  /\ (forall n : Z, page_range_of [n] = inr (lit "Trang " ++ str_of_int n))
  /\ page_range_of [] = inr (lit "").
Proof.
  split; [|split; [|reflexivity]].
  - intros pages Hlen. unfold page_range_of.
    apply Z.gtb_lt in Hlen. rewrite Hlen.
    destruct pages as [|x r]; [discriminate|].
    cbn [py_min py_max].
    destruct (fold_min_spec r x) as [Hmin1 Hmin2].
    destruct (fold_max_spec r x) as [Hmax1 Hmax2].
    exists (fold_left Z.min r x), (fold_left Z.max r x). auto.
  - intros n. reflexivity.
Qed.

Lemma page_range_of_total (pages : list Z) :
  exists label : pystr, page_range_of pages = inr label.
Proof.
  destruct pages as [|x [|y r]].
  - eexists. reflexivity.
  - eexists. reflexivity.
  - destruct (proj1 page_range_of_cases (x :: y :: r)) as [lo [hi H]].
    + rewrite !len_cons. pose proof (len_nonneg r). lia.
    + eexists. apply H.
Qed.

Lemma textbook_metadata_loop_spec
    (filename file_type file_hash : pystr) (product_name : option pystr)
    (book_metadata : TextbookInfo.t) (total : Z)
    (chunks_with_pages : list Chunk.t) :
  forall (idx : Z) (metadata_list : list ChunkMeta.t),
  exists rest : list ChunkMeta.t,
    textbook_metadata_loop filename file_type file_hash product_name
      book_metadata total idx chunks_with_pages metadata_list
    = inr (metadata_list ++ rest)
    /\ Forall2
         (fun chunk_info meta =>
            ChunkMeta.pages meta = Chunk.pages chunk_info
            /\ ChunkMeta.char_start meta = Chunk.char_start chunk_info
            /\ ChunkMeta.char_end meta = Chunk.char_end chunk_info
            /\ page_range_of (Chunk.pages chunk_info)
               = inr (ChunkMeta.page_range meta))
         chunks_with_pages rest.
Proof.
  induction chunks_with_pages as [|chunk_info chunks IH]; intros idx acc.
  - exists []. rewrite app_nil_r. split; [reflexivity | constructor].
  - cbn [textbook_metadata_loop].
    destruct (page_range_of_total (Chunk.pages chunk_info)) as [label Hlabel].
    rewrite Hlabel.
    match goal with
    | |- context [acc ++ [?m]] => set (meta := m)
    end.
    destruct (IH (idx + 1) (acc ++ [meta])) as [rest [Hrun Hall]].
    exists (meta :: rest). split.
    + rewrite Hrun, <- app_assoc. reflexivity.
    + constructor; [|exact Hall].
      unfold meta. cbn. auto.
Qed.

(** C4 as stated does not hold: a chunk on page 3 alone is
    labelled "Trang 3", not "Page 3". *)
Lemma page_range_single_page_is_not_Page :
  page_range_of [3] = inr (lit "Trang 3")
  /\ page_range_of [3] <> inr (lit "Page " ++ str_of_int 3).
Proof. split; [reflexivity | discriminate]. Qed.

(** C4, amended.  In the metadata of every chunk of a textbook, the
    page-range label is "<min>-<max>" when the chunk has more than one
    page, "Trang <n>" when it has the single page n, and empty when it
    has no page. *)
Theorem page_range_label :
  forall (filename file_type file_hash : pystr) (product_name : option pystr)
         (book_metadata : TextbookInfo.t) (chunks_with_pages : list Chunk.t),
  exists metadata_list : list ChunkMeta.t,
    textbook_metadata filename file_type file_hash product_name
      book_metadata chunks_with_pages = inr metadata_list
    /\ Forall2
         (fun chunk_info meta =>
            let pages := Chunk.pages chunk_info in
            ChunkMeta.pages meta = pages
            /\ (1 < len pages ->
                exists lo hi : Z,
                  In lo pages /\ Forall (fun p => lo <= p) pages
                  /\ In hi pages /\ Forall (fun p => p <= hi) pages
                  /\ ChunkMeta.page_range meta
                     = str_of_int lo ++ lit "-" ++ str_of_int hi)
            /\ (forall n : Z,
                  pages = [n] ->
                  ChunkMeta.page_range meta = lit "Trang " ++ str_of_int n)
            /\ (pages = [] -> ChunkMeta.page_range meta = lit ""))
         chunks_with_pages metadata_list.
Proof.
  intros filename file_type file_hash product_name book_metadata chunks.
  destruct (textbook_metadata_loop_spec filename file_type file_hash
              product_name book_metadata (len chunks) chunks 0 [])
    as [ms [Hrun Hall]].
  exists ms. split; [exact Hrun|].
  eapply Forall2_impl; [|exact Hall].
  intros c m [Hp [_ [_ Hl]]]. cbn zeta. split; [exact Hp|].
  destruct page_range_of_cases as [Hmany [Hone Hnone]].
  split; [|split].
  - intros Hlen. destruct (Hmany _ Hlen) as [lo [hi [H1 [H2 [H3 [H4 H5]]]]]].
    exists lo, hi. rewrite H5 in Hl. injection Hl as Hl. auto.
  - intros n Hn. rewrite Hn, Hone in Hl. injection Hl as Hl. auto.
  - intros Hn. rewrite Hn, Hnone in Hl. injection Hl as Hl. auto.
Qed.

(** ** Exceptions in the OCR service *)

Section OCRServiceFacts.
Context `{Libraries}.

Lemma bind_run {W A B : Type} (c : M W A) (k : A -> M W B) (w : W) :
  bind c k w
  = match c w with
    | (inr a, w') => k a w'
    | (inl e, w') => (inl e, w')
    end.
Proof. reflexivity. Qed.

(** A [try] block whose handler returns a value never raises. *)
Lemma try_except_ret {W A : Type} (c : M W A) (a : A) (w : W) :
  exists (x : A) (w' : W), try_except c (fun _ => ret a) w = (inr x, w').
Proof.
  unfold try_except, ret. destruct (c w) as [[e | x] w']; eauto.
Qed.

(** [_ocr_image] makes one recognition call and never raises; when the
    call raises, the text is empty. *)
Lemma _ocr_image_run (img : ndarray) (lang : pystr) (h : History) :
  _ocr_image img lang h
  = (inr match tesseract_image_to_string h img lang (lit "--oem 3 --psm 6") with
         | inl _ => lit ""
         | inr text => strip text
         end,
     h ++ [CallImageToString img lang (lit "--oem 3 --psm 6")]).
Proof.
  unfold _ocr_image, try_except, bind, external, ret.
  destruct (tesseract_image_to_string h img lang (lit "--oem 3 --psm 6"));
    reflexivity.
Qed.

(** [_enhance_for_ocr] never raises. *)
Lemma _enhance_for_ocr_run (img : ndarray) (h : History) :
  _enhance_for_ocr img h
  = (inr match cv2_enhance h img with
         | inl _ => img
         | inr img' => img'
         end,
     h ++ [CallEnhance img]).
Proof.
  unfold _enhance_for_ocr, try_except, external, ret.
  destruct (cv2_enhance h img); reflexivity.
Qed.

Lemma external_run {A : Type} (c : Call ndarray FitzPage Pixmap)
    (answer : History -> result A) (h : History) :
  external c answer h = (answer h, h ++ [c]).
Proof. reflexivity. Qed.

(** [extract_text] never raises. *)
Lemma extract_text_returns (image_content : bytes) (enhance : bool)
    (language : pystr) (h : History) :
  exists (text : pystr) (h' : History),
    extract_text image_content enhance language h = (inr text, h').
Proof. apply try_except_ret. Qed.

(** [extract_from_image] returns the cleaned text of [extract_text],
    called with enhancement and the language hint ["auto"]. *)
Lemma extract_from_image_run (image_content : bytes) (h : History) :
  exists (text : pystr) (h' : History),
    extract_text image_content true (lit "auto") h = (inr text, h')
    /\ extract_from_image image_content h = (inr (_clean_ocr_text text), h').
Proof.
  destruct (extract_text_returns image_content true (lit "auto") h)
    as [text [h' Hrun]].
  exists text, h'. split; [exact Hrun|].
  unfold extract_from_image, try_except. rewrite bind_run, Hrun. reflexivity.
Qed.

(** C9.  [extract_text] returns a string for every image, flag, language
    hint and behaviour of the libraries; when the image cannot be loaded
    the string is empty; [_ocr_image] never raises and yields the empty
    string when recognition raises; when every recognition call raises,
    [extract_text] yields the empty string; and a page image that cannot
    be loaded makes [extract_from_image] return the empty string instead
    of raising. *)
Theorem extract_text_never_raises :
  (forall (image_content : bytes) (enhance : bool) (language : pystr)
          (h : History),
     exists (text : pystr) (h' : History),
       extract_text image_content enhance language h = (inr text, h'))
  /\ (forall (image_content : bytes) (enhance : bool) (language : pystr)
             (h : History) (e : PyExc),
        pil_open_bgr h image_content = inl e ->
        extract_text image_content enhance language h
        = (inr (lit ""), h ++ [CallImageOpen image_content]))
  /\ (forall (img : ndarray) (lang : pystr) (h : History),
        exists (text : pystr) (h' : History),
          _ocr_image img lang h = (inr text, h')
          /\ (forall e : PyExc,
                tesseract_image_to_string h img lang (lit "--oem 3 --psm 6")
                = inl e ->
                text = lit ""))
  /\ (forall (image_content : bytes) (enhance : bool) (language : pystr)
             (h : History),
        (forall h1 img lang config,
           exists e : PyExc,
             tesseract_image_to_string h1 img lang config = inl e) ->
        exists h' : History,
          extract_text image_content enhance language h = (inr (lit ""), h'))
  /\ (forall (image_content : bytes) (h : History) (e : PyExc),
        pil_open_bgr h image_content = inl e ->
        extract_from_image image_content h
        = (inr (lit ""), h ++ [CallImageOpen image_content])).
Proof.
  assert (Hload : forall image_content enhance language h e,
             pil_open_bgr h image_content = inl e ->
             extract_text image_content enhance language h
             = (inr (lit ""), h ++ [CallImageOpen image_content])).
  { intros image_content enhance language h e He.
    unfold extract_text, try_except at 1, bind at 1, _load_image,
      try_except at 1, external, raise, ret.
    rewrite He. reflexivity. }
  split; [|split; [exact Hload|split; [|split]]].
  - apply extract_text_returns.
  - intros img lang h. rewrite _ocr_image_run. eexists. eexists.
    split; [reflexivity|]. intros e He. rewrite He. reflexivity.
  - intros image_content enhance language h Hfail.
    destruct (pil_open_bgr h image_content) as [e | img] eqn:Hopen.
    + eexists. apply (Hload _ _ _ _ e Hopen).
    + unfold extract_text, try_except at 1, bind at 1, _load_image,
        try_except at 1, external, raise, ret.
      rewrite Hopen.
      unfold bind at 1. rewrite _ocr_image_run.
      match goal with
      | |- context [tesseract_image_to_string ?a ?b ?c ?d] =>
        destruct (Hfail a b c d) as [e1 He1]; rewrite He1
      end.
      destruct enhance.
      * unfold bind at 1, lift.
        change (_is_poor_result (lit "")) with (@inr PyExc bool true).
        cbv iota beta.
        rewrite !bind_run, _enhance_for_ocr_run. cbv iota beta.
        rewrite bind_run, _ocr_image_run. cbv iota beta.
        match goal with
        | |- context [tesseract_image_to_string ?a ?b ?c ?d] =>
          destruct (Hfail a b c d) as [e2 He2]; rewrite He2
        end.
        eexists. reflexivity.
      * eexists. reflexivity.
  - intros image_content h e He.
    unfold extract_from_image, try_except at 1, bind at 1.
    rewrite (Hload _ _ _ _ e He). reflexivity.
Qed.

End OCRServiceFacts.

(** ** Page records *)

Section PdfExtractionFacts.
Context `{Libraries}.

(** What one iteration of the page loop does when it does not raise. *)
Lemma pdf_page_step_inv (page : FitzPage) (page_num : Z)
    (full_text : list pystr) (page_info : list PageInfo.t)
    (h h' : History) (st : list pystr * list PageInfo.t) :
  pdf_page_step page page_num full_text page_info h = (inr st, h') ->
  exists text page_text : pystr,
    fitz_get_text h page = inr text
    /\ st = (full_text ++ [page_text],
             page_info ++
             [PageInfo.mk (page_num + 1) page_text
                (py_sum (map (fun t => len t + 2) full_text))
                (py_sum (map (fun t => len t + 2) full_text) + len page_text)
                (len (strip text) <? 50)])
    /\ (len (strip text) < 50 ->
        exists (pix : Pixmap) (img_data : bytes) (ocr_text : pystr),
          fitz_get_pixmap (h ++ [CallGetText page]) page 2 2 = inr pix
          /\ fitz_tobytes (h ++ [CallGetText page] ++ [CallGetPixmap page 2 2])
               pix (lit "png") = inr img_data
          /\ extract_text img_data true (lit "auto")
               (h ++ [CallGetText page] ++ [CallGetPixmap page 2 2]
                  ++ [CallToBytes pix (lit "png")])
             = (inr ocr_text, h')
          /\ page_text = _clean_ocr_text ocr_text)
    /\ (50 <= len (strip text) ->
        page_text = text /\ h' = h ++ [CallGetText page]).
Proof.
  unfold pdf_page_step. rewrite bind_run, external_run.
  destruct (fitz_get_text h page) as [e | text] eqn:Htext; [discriminate|].
  rewrite bind_run.
  destruct (len (strip text) <? 50) eqn:Hshort.
  - rewrite bind_run, external_run.
    destruct (fitz_get_pixmap (h ++ [CallGetText page]) page 2 2)
      as [e | pix] eqn:Hpix; [discriminate|].
    rewrite bind_run, external_run.
    destruct (fitz_tobytes ((h ++ [CallGetText page]) ++ [CallGetPixmap page 2 2])
                pix (lit "png")) as [e | img_data] eqn:Himg; [discriminate|].
    rewrite bind_run.
    destruct (extract_from_image_run img_data
                (((h ++ [CallGetText page]) ++ [CallGetPixmap page 2 2])
                   ++ [CallToBytes pix (lit "png")]))
      as [ocr_text [h1 [Hocr Hrun]]].
    rewrite Hrun. unfold ret. rewrite removelast_last.
    intros E. injection E as E1 E2. subst st h1.
    exists text, (_clean_ocr_text ocr_text).
    split; [reflexivity|]. split; [rewrite Hshort; reflexivity|]. split.
    + intros _. exists pix, img_data, ocr_text.
      rewrite !app_assoc. auto.
    + intros Hge. apply Z.ltb_lt in Hshort. lia.
  - unfold ret. rewrite removelast_last.
    intros E. injection E as E1 E2. subst st h'.
    exists text, text.
    split; [reflexivity|]. split; [rewrite Hshort; reflexivity|]. split.
    + intros Hlt. apply Z.ltb_ge in Hshort. lia.
    + intros _. auto.
Qed.

Lemma firstn_succ_nth_error {A : Type} (l : list A) (i : nat) (x : A) :
  nth_error l i = Some x -> firstn (S i) l = firstn i l ++ [x].
Proof.
  revert i. induction l as [|y l IH]; intros [|i]; cbn [nth_error firstn].
  - discriminate.
  - discriminate.
  - intros E. injection E as ->. reflexivity.
  - intros E. cbn [app]. f_equal. apply IH. exact E.
Qed.

Lemma offsets_ok_nil : offsets_ok [] [].
Proof.
  split; [reflexivity|]. intros [|i] r; discriminate.
Qed.

(** Appending a page and its record keeps the records in step with the
    texts. *)
Lemma offsets_ok_snoc (full_text : list pystr) (page_info : list PageInfo.t)
    (page_text : pystr) (used : bool) :
  offsets_ok full_text page_info ->
  offsets_ok (full_text ++ [page_text])
    (page_info ++
     [PageInfo.mk (len page_info + 1) page_text
        (py_sum (map (fun t => len t + 2) full_text))
        (py_sum (map (fun t => len t + 2) full_text) + len page_text)
        used]).
Proof.
  intros [Htexts Hrecs].
  assert (Hlen : List.length page_info = List.length full_text).
  { rewrite <- Htexts. rewrite length_map. reflexivity. }
  split.
  - rewrite map_app, Htexts. reflexivity.
  - intros i r Hi.
    destruct (Nat.lt_ge_cases i (List.length page_info)) as [Hlt | Hge].
    + rewrite nth_error_app1 in Hi by exact Hlt.
      rewrite firstn_app.
      replace (i - List.length full_text)%nat with 0%nat by lia.
      cbn [firstn]. rewrite app_nil_r. apply Hrecs. exact Hi.
    + rewrite nth_error_app2 in Hi by exact Hge.
      destruct (i - List.length page_info)%nat as [|k] eqn:Hk.
      * cbn [nth_error] in Hi. injection Hi as <-.
        assert (i = List.length page_info) by lia. subst i.
        cbn [PageInfo.page_number PageInfo.char_start PageInfo.char_end
             PageInfo.text].
        rewrite firstn_app, Hlen, Nat.sub_diag, firstn_all.
        cbn [firstn]. rewrite app_nil_r.
        unfold len. rewrite Hlen. auto.
      * cbn [nth_error] in Hi. destruct k; discriminate.
Qed.

(** The page loop, when it does not raise, appends one record per page,
    in page order. *)
Lemma pdf_page_loop_spec (pages : list FitzPage) :
  forall (page_num : Z) (full_text : list pystr) (page_info : list PageInfo.t)
         (h h' : History) (st : list pystr * list PageInfo.t),
    pdf_page_loop pages page_num full_text page_info h = (inr st, h') ->
    page_num = len page_info ->
    offsets_ok full_text page_info ->
    exists rs : list PageInfo.t,
      snd st = page_info ++ rs
      /\ offsets_ok (fst st) (snd st)
      /\ pages_run h pages rs h'.
Proof.
  induction pages as [|page pages IH];
    intros page_num full_text page_info h h' st Hrun Hnum Hok.
  - cbn [pdf_page_loop] in Hrun. unfold ret in Hrun.
    injection Hrun as <- <-. exists []. rewrite app_nil_r.
    split; [reflexivity|]. split; [exact Hok | constructor].
  - cbn [pdf_page_loop] in Hrun. rewrite bind_run in Hrun.
    destruct (pdf_page_step page page_num full_text page_info h)
      as [[e | st1] h1] eqn:Hstep; [discriminate|].
    apply pdf_page_step_inv in Hstep.
    destruct Hstep as [text [page_text [Htext [Hst1 [Hocr Hnative]]]]].
    subst st1 page_num. cbn [fst snd] in Hrun.
    apply IH in Hrun.
    + destruct Hrun as [rs [Hsnd [Hok' Hruns]]].
      eexists (_ :: rs). split; [|split; [exact Hok'|]].
      * rewrite Hsnd, <- app_assoc. reflexivity.
      * econstructor; [|exact Hruns].
        exists text. cbn [PageInfo.ocr_used PageInfo.text].
        split; [exact Htext|]. split; [reflexivity|]. split.
        -- intros Hlt. destruct (Hocr Hlt) as [pix [img [t [H1 [H2 [H3 H4]]]]]].
           exists pix, img, t. apply Z.ltb_lt in Hlt. auto 6.
        -- intros Hge. destruct (Hnative Hge) as [H1 H2].
           apply Z.ltb_ge in Hge. auto.
    + rewrite len_app. reflexivity.
    + apply offsets_ok_snoc. exact Hok.
Qed.

(** [extract_from_pdf_with_pages], when it returns, has opened the
    document and run the page loop over its pages. *)
Lemma extract_from_pdf_with_pages_inv (file_content : bytes) (h h' : History)
    (result : pystr) (page_info : list PageInfo.t) :
  extract_from_pdf_with_pages file_content h = (inr (result, page_info), h') ->
  exists (doc : list FitzPage) (full_text : list pystr),
    fitz_open h file_content = inr doc
    /\ result = join page_separator full_text
    /\ offsets_ok full_text page_info
    /\ pages_run (h ++ [CallFitzOpen file_content]) doc page_info h'.
Proof.
  unfold extract_from_pdf_with_pages, try_except.
  rewrite bind_run, external_run.
  destruct (fitz_open h file_content) as [e | doc] eqn:Hopen;
    [unfold raise; discriminate|].
  rewrite bind_run.
  destruct (pdf_page_loop doc 0 [] [] (h ++ [CallFitzOpen file_content]))
    as [[e | st] h1] eqn:Hloop; [unfold raise; discriminate|].
  unfold ret. intros E. injection E as E1 E2 E3. subst result page_info h1.
  apply pdf_page_loop_spec in Hloop; [|reflexivity | exact offsets_ok_nil].
  destruct Hloop as [rs [Hsnd [Hok Hruns]]]. cbn [app] in Hsnd.
  exists doc, (fst st). rewrite Hsnd in *. auto.
Qed.

(** The extraction returns whenever the calls into PyMuPDF succeed: the
    OCR service never makes it raise. *)
Lemma extract_from_pdf_with_pages_returns (file_content : bytes) (h : History) :
  (exists doc, fitz_open h file_content = inr doc) ->
  (forall hx page, exists text, fitz_get_text hx page = inr text) ->
  (forall hx page, exists pix, fitz_get_pixmap hx page 2 2 = inr pix) ->
  (forall hx pix, exists img, fitz_tobytes hx pix (lit "png") = inr img) ->
  exists (result : pystr) (page_info : list PageInfo.t) (h' : History),
    extract_from_pdf_with_pages file_content h = (inr (result, page_info), h').
Proof.
  intros [doc Hopen] Htext Hpix Hbytes.
  assert (Hstep : forall page page_num full_text page_info hx,
             exists st hx',
               pdf_page_step page page_num full_text page_info hx
               = (inr st, hx')).
  { intros page page_num full_text page_info hx.
    unfold pdf_page_step. rewrite bind_run, external_run.
    destruct (Htext hx page) as [text ->]. rewrite bind_run.
    destruct (len (strip text) <? 50).
    - rewrite bind_run, external_run.
      destruct (Hpix (hx ++ [CallGetText page]) page) as [pix ->].
      rewrite bind_run, external_run.
      destruct (Hbytes ((hx ++ [CallGetText page]) ++ [CallGetPixmap page 2 2]) pix)
        as [img ->].
      rewrite bind_run.
      destruct (extract_from_image_run img
                  (((hx ++ [CallGetText page]) ++ [CallGetPixmap page 2 2])
                     ++ [CallToBytes pix (lit "png")]))
        as [ocr_text [h1 [_ ->]]].
      unfold ret. eauto.
    - unfold ret. eauto. }
  assert (Hloop : forall pages page_num full_text page_info hx,
             exists st hx',
               pdf_page_loop pages page_num full_text page_info hx
               = (inr st, hx')).
  { induction pages as [|page pages IH]; intros page_num full_text page_info hx.
    - cbn [pdf_page_loop]. unfold ret. eauto.
    - cbn [pdf_page_loop]. rewrite bind_run.
      destruct (Hstep page page_num full_text page_info hx) as [st [hx' ->]].
      apply IH. }
  unfold extract_from_pdf_with_pages, try_except.
  rewrite bind_run, external_run, Hopen, bind_run.
  destruct (Hloop doc 0 [] [] (h ++ [CallFitzOpen file_content]))
    as [st [h' ->]].
  unfold ret. eauto.
Qed.

(** C3.  When [extract_from_pdf_with_pages] returns, every page record
    is as long as its text; the records are in page order, numbered from
    1; each record ends two characters before the next one starts; and
    the texts of the records joined by the two-character separator are
    the full text that is returned. *)
Theorem page_records_offsets
    (file_content : bytes) (h h' : History) (result : pystr)
    (page_info : list PageInfo.t) :
  extract_from_pdf_with_pages file_content h = (inr (result, page_info), h') ->
  Forall (fun r => PageInfo.char_end r - PageInfo.char_start r
                   = len (PageInfo.text r)) page_info
  /\ (forall (i : nat) (r : PageInfo.t),
        nth_error page_info i = Some r ->
        PageInfo.page_number r = Z.of_nat i + 1)
  /\ (forall (i : nat) (r1 r2 : PageInfo.t),
        nth_error page_info i = Some r1 ->
        nth_error page_info (S i) = Some r2 ->
        PageInfo.char_end r1 = PageInfo.char_start r2 - 2)
  /\ result = join page_separator (map PageInfo.text page_info).
Proof.
  intros Hrun. apply extract_from_pdf_with_pages_inv in Hrun.
  destruct Hrun as [doc [full_text [_ [Hres [[Htexts Hrecs] _]]]]].
  split; [|split; [|split]].
  - apply Forall_forall. intros r Hin.
    apply In_nth_error in Hin. destruct Hin as [i Hi].
    destruct (Hrecs i r Hi) as [_ [_ Hend]]. lia.
  - intros i r Hi. apply (Hrecs i r Hi).
  - intros i r1 r2 H1 H2.
    destruct (Hrecs i r1 H1) as [_ [Hs1 He1]].
    destruct (Hrecs (S i) r2 H2) as [_ [Hs2 _]].
    assert (Hnth : nth_error full_text i = Some (PageInfo.text r1)).
    { rewrite <- Htexts. rewrite nth_error_map, H1. reflexivity. }
    rewrite (firstn_succ_nth_error _ _ _ Hnth) in Hs2.
    rewrite map_app, py_sum_app in Hs2. cbn [map] in Hs2.
    change (py_sum [len (PageInfo.text r1) + 2])
      with (0 + (len (PageInfo.text r1) + 2)) in Hs2.
    unfold pystr in *. lia.
  - rewrite Htexts. exact Hres.
Qed.

(** C6.  When [extract_from_pdf_with_pages] returns, every page of the
    document has been processed as [page_run] says: a page whose native
    text has a trimmed length below 50 is rendered at 2x, given to the
    OCR service with the language hint ["auto"], and recorded with
    [ocr_used] true; any other page keeps its native text, with
    [ocr_used] false.  In a three-page document whose second page alone
    has fewer than 50 characters of native text, [ocr_used] is false,
    true, false. *)
Theorem scanned_pages_use_ocr :
  (forall (file_content : bytes) (h h' : History) (result : pystr)
          (page_info : list PageInfo.t),
     extract_from_pdf_with_pages file_content h = (inr (result, page_info), h') ->
     exists doc : list FitzPage,
       fitz_open h file_content = inr doc
       /\ pages_run (h ++ [CallFitzOpen file_content]) doc page_info h')
  /\ (forall (file_content : bytes) (h h' : History) (result : pystr)
             (page_info : list PageInfo.t) (p0 p1 p2 : FitzPage)
             (t0 t1 t2 : pystr),
        extract_from_pdf_with_pages file_content h
        = (inr (result, page_info), h') ->
        fitz_open h file_content = inr [p0; p1; p2] ->
        (forall hx, fitz_get_text hx p0 = inr t0) ->
        (forall hx, fitz_get_text hx p1 = inr t1) ->
        (forall hx, fitz_get_text hx p2 = inr t2) ->
        50 <= len (strip t0) -> len (strip t1) < 50 -> 50 <= len (strip t2) ->
        exists r0 r1 r2 : PageInfo.t,
          page_info = [r0; r1; r2]
          /\ PageInfo.ocr_used r0 = false
          /\ PageInfo.ocr_used r1 = true
          /\ PageInfo.ocr_used r2 = false).
Proof.
  split.
  - intros file_content h h' result page_info Hrun.
    apply extract_from_pdf_with_pages_inv in Hrun.
    destruct Hrun as [doc [full_text [Hopen [_ [_ Hruns]]]]].
    exists doc. auto.
  - intros file_content h h' result page_info p0 p1 p2 t0 t1 t2
           Hrun Hopen H0 H1 H2 Hl0 Hl1 Hl2.
    apply extract_from_pdf_with_pages_inv in Hrun.
    destruct Hrun as [doc [full_text [Hopen' [_ [_ Hruns]]]]].
    rewrite Hopen in Hopen'. injection Hopen' as <-.
    inversion Hruns as [|? ? ? ? r0 ? rs0 Hr0 Hruns0]; subst.
    inversion Hruns0 as [|? ? ? ? r1 ? rs1 Hr1 Hruns1]; subst.
    inversion Hruns1 as [|? ? ? ? r2 ? rs2 Hr2 Hruns2]; subst.
    inversion Hruns2; subst.
    exists r0, r1, r2. split; [reflexivity|].
    destruct Hr0 as [x0 [Hx0 [Hu0 _]]].
    destruct Hr1 as [x1 [Hx1 [Hu1 _]]].
    destruct Hr2 as [x2 [Hx2 [Hu2 _]]].
    rewrite H0 in Hx0. rewrite H1 in Hx1. rewrite H2 in Hx2.
    injection Hx0 as <-. injection Hx1 as <-. injection Hx2 as <-.
    rewrite Hu0, Hu1, Hu2.
    apply Z.ltb_ge in Hl0. apply Z.ltb_lt in Hl1. apply Z.ltb_ge in Hl2.
    auto.
Qed.

End PdfExtractionFacts.

(** C3 on the three-page document. *)
Lemma page_records_offsets_witness :
  exists (result : pystr) (page_info : list PageInfo.t)
         (h' : @History scan_libraries),
    @extract_from_pdf_with_pages scan_libraries [] []
    = (inr (result, page_info), h')
    /\ map PageInfo.char_start page_info = [0; 67; 99]
    /\ map PageInfo.char_end page_info = [65; 97; 161]
    /\ Forall (fun r => PageInfo.char_end r - PageInfo.char_start r
                        = len (PageInfo.text r)) page_info
    /\ result = join page_separator (map PageInfo.text page_info).
Proof.
  eexists. eexists. eexists.
  split; [vm_compute; reflexivity|].
  split; [reflexivity|]. split; [reflexivity|].
  pose proof (@page_records_offsets scan_libraries [] [] _ _ _ eq_refl)
    as [Hlen [_ [_ Hjoin]]].
  split; [exact Hlen | exact Hjoin].
Defined.

(** C6 on the three-page document. *)
Lemma scanned_pages_use_ocr_witness :
  exists (result : pystr) (page_info : list PageInfo.t)
         (h' : @History scan_libraries),
    @extract_from_pdf_with_pages scan_libraries [] []
    = (inr (result, page_info), h')
    /\ map PageInfo.ocr_used page_info = [false; true; false]
    /\ exists r0 r1 r2 : PageInfo.t,
         page_info = [r0; r1; r2]
         /\ PageInfo.ocr_used r0 = false
         /\ PageInfo.ocr_used r1 = true
         /\ PageInfo.ocr_used r2 = false.
Proof.
  eexists. eexists. eexists.
  split; [vm_compute; reflexivity|].
  split; [reflexivity|].
  apply (proj2 (@scanned_pages_use_ocr scan_libraries) [] [] _ _ _
           0%nat 1%nat 2%nat _ _ _ eq_refl eq_refl
           (fun _ => eq_refl) (fun _ => eq_refl) (fun _ => eq_refl));
    vm_compute; congruence.
Defined.

(** ** Locating a chunk in the full text *)

Lemma startswith_firstn (s sub : pystr) :
  startswith s sub = true ->
  firstn (List.length sub) s = sub /\ (List.length sub <= List.length s)%nat.
Proof.
  revert s. induction sub as [|x sub IH]; intros s Hs.
  - split; [reflexivity | cbn [List.length]; lia].
  - destruct s as [|y s]; [discriminate|].
    cbn [startswith] in Hs. apply andb_prop in Hs. destruct Hs as [Hxy Hs].
    apply N.eqb_eq in Hxy. subst y.
    destruct (IH s Hs) as [Hfirst Hlen].
    cbn [firstn List.length]. rewrite Hfirst. split; [reflexivity | lia].
Qed.

(** A position returned by the scan is the position of an occurrence. *)
Lemma find_at_found (s sub : pystr) :
  forall off p : Z,
    0 <= off -> find_at s sub off = p -> 0 <= p ->
    off <= p
    /\ startswith (skipn (Z.to_nat (p - off)) s) sub = true
    /\ p - off <= len s.
Proof.
  induction s as [|c r IH]; intros off p Hoff Hfind Hp.
  - cbn [find_at] in Hfind. destruct (startswith [] sub) eqn:Hs; [|lia].
    subst p. rewrite Z.sub_diag. cbn [Z.to_nat skipn].
    split; [lia|]. split; [exact Hs | reflexivity].
  - cbn [find_at] in Hfind. destruct (startswith (c :: r) sub) eqn:Hs.
    + subst p. rewrite Z.sub_diag. cbn [Z.to_nat skipn].
      split; [lia|]. split; [exact Hs | apply len_nonneg].
    + destruct (IH (off + 1) p ltac:(lia) Hfind Hp) as [Hle [Hstart Hlen]].
      split; [lia|]. split.
      * replace (Z.to_nat (p - off)) with (S (Z.to_nat (p - (off + 1)))) by lia.
        cbn [skipn]. exact Hstart.
      * rewrite len_cons. lia.
Qed.

Lemma len_skipn {A : Type} (n : nat) (l : list A) :
  len (skipn n l) = len l - Z.of_nat (Nat.min n (List.length l)).
Proof. unfold len. rewrite length_skipn. lia. Qed.

(** [s.find(sub, start)], when it is not [-1], is the position of an
    occurrence of [sub] in [s], at or after a non-negative [start]. *)
Lemma find_found (s sub : pystr) (start p : Z) :
  find s sub start = p -> 0 <= p ->
  (0 <= start -> start <= p)
  /\ p + len sub <= len s
  /\ slice s p (p + len sub) = sub.
Proof.
  unfold find. intros Hfind Hp.
  set (st := if start <? 0 then Z.max 0 (start + len s) else start) in *.
  assert (Hst : 0 <= st).
  { unfold st. destruct (start <? 0) eqn:E; [lia | apply Z.ltb_ge in E; lia]. }
  destruct (len s <? st) eqn:Hlen; [lia|]. apply Z.ltb_ge in Hlen.
  destruct (find_at_found _ _ _ _ Hst Hfind Hp) as [Hle [Hstart Hspan]].
  rewrite skipn_skipn in Hstart.
  replace (Z.to_nat (p - st) + Z.to_nat st)%nat with (Z.to_nat p) in Hstart by lia.
  destruct (startswith_firstn _ _ Hstart) as [Hfirst Hsub].
  rewrite length_skipn in Hsub.
  rewrite len_skipn in Hspan.
  assert (Hend : p + len sub <= len s).
  { unfold len in *. lia. }
  split; [|split; [exact Hend|]].
  - intros Hstart0. unfold st in Hle.
    destruct (start <? 0) eqn:E; [apply Z.ltb_lt in E; lia | exact Hle].
  - unfold slice, clamp_index.
    pose proof (len_nonneg sub) as Hsub0.
    destruct (p <? 0) eqn:E1; [apply Z.ltb_lt in E1; lia|].
    destruct (p + len sub <? 0) eqn:E2; [apply Z.ltb_lt in E2; lia|].
    rewrite !Z.min_l by lia.
    replace (Z.to_nat (p + len sub - p)) with (List.length sub)
      by (unfold len; lia).
    exact Hfirst.
Qed.

(** ** Chunks *)

Section ChunkFacts.
Context `{Settings} `{TextSplitter}.

(** What the loop of [chunk_text_with_pages] appends: a record for every
    fragment longer than 20 after trimming, none for the others; the span
    of a record is that of an occurrence of its text whenever the scan
    found one. *)
Lemma locate_chunks_spec (text : pystr) (page_info : list PageInfo.t)
    (fragments : list pystr) :
  forall (current_pos : Z) (chunks_with_pages : list Chunk.t),
  exists new : list Chunk.t,
    snd (fold_left (locate_chunk text page_info) fragments
           (current_pos, chunks_with_pages))
    = chunks_with_pages ++ new
    /\ map Chunk.text new = filter (fun c => len (strip c) >? 20) fragments
    /\ Forall (fun r => Chunk.char_end r = Chunk.char_start r + len (Chunk.text r)
                        /\ (0 <= Chunk.char_start r ->
                            slice text (Chunk.char_start r) (Chunk.char_end r)
                            = Chunk.text r))
         new.
Proof.
  induction fragments as [|chunk rest IH]; intros current_pos acc.
  - exists []. rewrite app_nil_r. split; [reflexivity|].
    split; [reflexivity | constructor].
  - cbn [fold_left filter]. unfold locate_chunk at 2.
    rewrite (Z.leb_antisym 20 (len (strip chunk))), <- Z.gtb_ltb.
    destruct (len (strip chunk) >? 20) eqn:Hlong; cbn [negb].
    + match goal with
      | |- context [fold_left _ rest (?pos, acc ++ [?r])] =>
        destruct (IH pos (acc ++ [r])) as [new [Hsnd [Htexts Hall]]];
          exists (r :: new)
      end.
      split; [rewrite Hsnd, <- app_assoc; reflexivity|].
      split; [cbn [map Chunk.text]; rewrite Htexts; reflexivity|].
      constructor; [|exact Hall].
      cbn [Chunk.char_start Chunk.char_end Chunk.text].
      split; [reflexivity|]. intros Hfound.
      apply (find_found text chunk current_pos _ eq_refl Hfound).
    + apply IH.
Qed.

(** Whatever fragments the splitter produces, [chunk_text] and
    [chunk_text_with_pages] return exactly the fragments whose trimmed
    length exceeds 20, in order, and every record whose chunk the scan
    found keeps a span of the full text. *)
Lemma long_fragments_are_kept
    (text : pystr) (page_info : list PageInfo.t)
    (chunk_size chunk_overlap : option Z) (fragments : list pystr) :
  choose_splitter chunk_size chunk_overlap text = inr fragments ->
  exists (chunks : list pystr) (records : list Chunk.t),
    chunk_text text chunk_size chunk_overlap = inr chunks
    /\ chunk_text_with_pages text page_info chunk_size chunk_overlap
       = inr records
    /\ Forall (fun c => 20 < len (strip c)) chunks
    /\ Forall (fun r => 20 < len (strip (Chunk.text r))) records
    /\ chunks = filter (fun c => len (strip c) >? 20) fragments
    /\ map Chunk.text records = chunks
    /\ Forall (fun r => 0 <= Chunk.char_start r ->
                        slice text (Chunk.char_start r) (Chunk.char_end r)
                        = Chunk.text r)
         records.
Proof.
  intros Hsplit.
  destruct (locate_chunks_spec text page_info fragments 0 [])
    as [records [Hsnd [Htexts Hall]]].
  cbn [app] in Hsnd.
  exists (filter (fun c => len (strip c) >? 20) fragments), records.
  assert (Hlong : Forall (fun c => 20 < len (strip c))
                    (filter (fun c => len (strip c) >? 20) fragments)).
  { apply Forall_forall. intros c Hc. apply filter_In in Hc.
    destruct Hc as [_ Hc]. apply Z.gtb_lt in Hc. exact Hc. }
  split; [unfold chunk_text; rewrite Hsplit; reflexivity|].
  split; [unfold chunk_text_with_pages; rewrite Hsplit, Hsnd; reflexivity|].
  split; [exact Hlong|].
  split.
  { rewrite <- Htexts in Hlong. rewrite Forall_map in Hlong. exact Hlong. }
  split; [reflexivity|]. split; [exact Htexts|].
  eapply Forall_impl; [|exact Hall]. intros r [_ Hr]. exact Hr.
Qed.

(** C8 on a text with a repeated word.  The fragment in the middle has
    20 characters and gives neither a chunk nor a record, as the claim
    says.  But it lies at 45, one character before the end of the first
    chunk, so the scan from 46 does not find it: the scan position is
    set to [-1 + 20 = 19] and moves back from 46 instead of advancing
    past the fragment, which ends at 65.  The last chunk, which the
    splitter took from 66, is then found at 19, in the first occurrence
    of the word: its record gets the span 19 to 44, before the fragment
    that was skipped. *)
Theorem short_fragment_moves_scan_back (page_info : list PageInfo.t) :
  split_text 46 10 separators repeated_text = inr repeated_fragments ->
  exists r1 r3 : Chunk.t,
    chunk_text repeated_text (Some 46) (Some 10)
    = inr [repeated_first; repeated_last]
    /\ chunk_text_with_pages repeated_text page_info (Some 46) (Some 10)
       = inr [r1; r3]
    /\ Chunk.text r1 = repeated_first /\ Chunk.text r3 = repeated_last
    /\ len (strip repeated_short) = 20
    /\ slice repeated_text 45 65 = repeated_short
    /\ slice repeated_text 66 91 = repeated_last
    /\ fst (fold_left (locate_chunk repeated_text page_info)
              [repeated_first] (0, [])) = 46
    /\ find repeated_text repeated_short 46 = -1
    /\ fst (fold_left (locate_chunk repeated_text page_info)
              [repeated_first; repeated_short] (0, [])) = 19
    /\ Chunk.char_start r1 = 0 /\ Chunk.char_end r1 = 46
    /\ Chunk.char_start r3 = 19 /\ Chunk.char_end r3 = 44.
Proof.
  intros Hsplit.
  unfold chunk_text, chunk_text_with_pages, choose_splitter.
  cbn [truthy int_or Z.eqb negb orb]. rewrite Hsplit.
  eexists. eexists. split; [reflexivity|]. split; [reflexivity|].
  cbn [Chunk.char_start Chunk.char_end Chunk.text].
  repeat split; reflexivity.
Qed.

(** C1 on a text whose chunks overlap.  The first chunk is found at 0 and
    ends at 51; the second starts inside the first, so the scan from 51
    does not find it: its record gets [char_start = -1] and
    [char_end = 50], and the slice of the full text between them is
    empty, not the chunk. *)
Theorem overlapping_chunk_is_not_located (page_info : list PageInfo.t) :
  split_text 60 30 separators overlap_text = inr overlap_chunks ->
  exists r1 r2 : Chunk.t,
    chunk_text_with_pages overlap_text page_info (Some 60) (Some 30)
    = inr [r1; r2]
    /\ Chunk.char_start r1 = 0 /\ Chunk.char_end r1 = 51
    /\ slice overlap_text (Chunk.char_start r1) (Chunk.char_end r1)
       = Chunk.text r1
    /\ Chunk.char_start r2 = -1 /\ Chunk.char_end r2 = 50
    /\ slice overlap_text (Chunk.char_start r2) (Chunk.char_end r2) = lit ""
    /\ slice overlap_text (Chunk.char_start r2) (Chunk.char_end r2)
       <> Chunk.text r2
    /\ slice overlap_text 26 77 = Chunk.text r2.
Proof.
  intros Hsplit.
  unfold chunk_text_with_pages, choose_splitter.
  cbn [truthy int_or Z.eqb negb orb]. rewrite Hsplit.
  eexists. eexists. split; [reflexivity|].
  cbn [Chunk.char_start Chunk.char_end Chunk.text].
  repeat split; try reflexivity. discriminate.
Qed.

End ChunkFacts.

(** C8 with the splitter of the repeated word. *)
Lemma short_fragment_moves_scan_back_witness :
  @split_text repeated_splitter 46 10 separators repeated_text
  = inr repeated_fragments
  /\ exists r1 r3 : Chunk.t,
       @chunk_text_with_pages default_settings repeated_splitter
         repeated_text [] (Some 46) (Some 10) = inr [r1; r3]
       /\ Chunk.char_end r1 = 46
       /\ Chunk.char_start r3 = 19
       /\ slice repeated_text 66 91 = Chunk.text r3.
Proof.
  split; [reflexivity|].
  destruct (@short_fragment_moves_scan_back default_settings repeated_splitter
              [] eq_refl)
    as [r1 [r3 [_ [Hrun [_ [Htext [_ [_ [Hlast [_ [_ [_ [_
         [Hend [Hstart _]]]]]]]]]]]]]]].
  exists r1, r3. rewrite Htext. auto.
Defined.

(** The splitter of the overlap example returns its two chunks. *)
Lemma overlapping_chunk_is_not_located_witness :
  @split_text overlap_splitter 60 30 separators overlap_text = inr overlap_chunks
  /\ exists r1 r2 : Chunk.t,
       @chunk_text_with_pages default_settings overlap_splitter
         overlap_text [] (Some 60) (Some 30) = inr [r1; r2]
       /\ Chunk.char_start r2 = -1
       /\ slice overlap_text (Chunk.char_start r2) (Chunk.char_end r2)
          <> Chunk.text r2.
Proof.
  split; [reflexivity|].
  destruct (@overlapping_chunk_is_not_located default_settings overlap_splitter
              [] eq_refl)
    as [r1 [r2 [Hrun [_ [_ [_ [Hstart [_ [_ [Hne _]]]]]]]]]].
  exists r1, r2. auto.
Defined.

(* ================================================================== *)
(** * Part III: further properties of the code                         *)
(* ================================================================== *)

(** ** The pages of a chunk *)

Lemma insert_uniq_In (x y : Z) (l : list Z) :
  In y (insert_uniq x l) <-> y = x \/ In y l.
Proof.
  induction l as [|z l IH]; cbn [insert_uniq].
  - cbn. intuition.
  - destruct (x <? z) eqn:E1.
    + cbn. intuition.
    + destruct (x =? z) eqn:E2.
      * apply Z.eqb_eq in E2. subst z. cbn. intuition.
      * cbn [In]. rewrite IH. intuition.
Qed.

Lemma insert_uniq_sorted (x : Z) (l : list Z) :
  StronglySorted Z.lt l -> StronglySorted Z.lt (insert_uniq x l).
Proof.
  induction 1 as [|z l Hs IH Hall]; cbn [insert_uniq].
  - repeat constructor.
  - destruct (x <? z) eqn:E1.
    + apply Z.ltb_lt in E1. constructor.
      * constructor; assumption.
      * constructor; [exact E1|].
        eapply Forall_impl; [|exact Hall]. cbn. intros; lia.
    + destruct (x =? z) eqn:E2.
      * constructor; assumption.
      * apply Z.ltb_ge in E1. apply Z.eqb_neq in E2.
        constructor; [exact IH|].
        apply Forall_forall. intros y Hy. apply insert_uniq_In in Hy.
        destruct Hy as [-> | Hy]; [lia|].
        rewrite Forall_forall in Hall. apply Hall. exact Hy.
Qed.

Lemma sorted_set_In (y : Z) (l : list Z) : In y (sorted_set l) <-> In y l.
Proof.
  unfold sorted_set. induction l as [|x l IH]; cbn [fold_right].
  - reflexivity.
  - rewrite insert_uniq_In, IH. cbn. intuition.
Qed.

Lemma sorted_set_sorted (l : list Z) : StronglySorted Z.lt (sorted_set l).
Proof.
  unfold sorted_set. induction l as [|x l IH]; cbn [fold_right].
  - constructor.
  - apply insert_uniq_sorted. exact IH.
Qed.

Lemma find_chunk_pages_In
    (chunk_start chunk_end : Z) (page_info : list PageInfo.t) (n : Z) :
  In n (_find_chunk_pages chunk_start chunk_end page_info)
  <-> exists page : PageInfo.t,
        In page page_info
        /\ PageInfo.page_number page = n
        /\ chunk_start < PageInfo.char_end page
        /\ chunk_end > PageInfo.char_start page.
Proof.
  unfold _find_chunk_pages. rewrite sorted_set_In, in_map_iff. split.
  - intros [page [Hn Hin]]. apply filter_In in Hin.
    destruct Hin as [Hin Hov]. apply andb_prop in Hov.
    destruct Hov as [H1 H2]. apply Z.ltb_lt in H1. apply Z.gtb_lt in H2.
    exists page. repeat split; try assumption. lia.
  - intros [page [Hin [Hn [H1 H2]]]]. exists page. split; [exact Hn|].
    apply filter_In. split; [exact Hin|].
    apply andb_true_intro. split; [apply Z.ltb_lt; exact H1|].
    apply Z.gtb_lt. lia.
Qed.

(** X1.  [_find_chunk_pages] returns, in strictly increasing order and
    hence without repetition, exactly the page numbers of the records
    whose interval the chunk overlaps: [chunk_start < char_end] and
    [chunk_end > char_start]. *)
Theorem find_chunk_pages_spec
    (chunk_start chunk_end : Z) (page_info : list PageInfo.t) :
  StronglySorted Z.lt (_find_chunk_pages chunk_start chunk_end page_info)
  /\ forall n : Z,
       In n (_find_chunk_pages chunk_start chunk_end page_info)
       <-> exists page : PageInfo.t,
             In page page_info
             /\ PageInfo.page_number page = n
             /\ chunk_start < PageInfo.char_end page
             /\ chunk_end > PageInfo.char_start page.
Proof.
  split.
  - unfold _find_chunk_pages. apply sorted_set_sorted.
  - intros n. apply find_chunk_pages_In.
Qed.

Lemma page_offset_succ (full_text : list pystr) (i : nat) (t : pystr) :
  nth_error full_text i = Some t ->
  page_offset full_text (S i) = page_offset full_text i + len t + 2.
Proof.
  intros Hn. unfold page_offset.
  rewrite (firstn_succ_nth_error _ _ _ Hn), map_app, py_sum_app.
  cbn [map]. change (py_sum [len t + 2]) with (0 + (len t + 2)).
  unfold pystr in *. lia.
Qed.

Lemma page_offset_step (full_text : list pystr) (i : nat) :
  page_offset full_text i <= page_offset full_text (S i).
Proof.
  destruct (nth_error full_text i) as [t|] eqn:Hn.
  - rewrite (page_offset_succ _ _ _ Hn). pose proof (len_nonneg t). lia.
  - apply nth_error_None in Hn. unfold page_offset.
    rewrite !firstn_all2 by lia. lia.
Qed.

Lemma page_offset_mono (full_text : list pystr) (i j : nat) :
  (i <= j)%nat -> page_offset full_text i <= page_offset full_text j.
Proof.
  induction 1 as [|j Hle IH]; [lia|].
  pose proof (page_offset_step full_text j). lia.
Qed.

(** Under [offsets_ok], record [i] starts at [page_offset i] and ends two
    characters before [page_offset (i + 1)]. *)
Lemma offsets_ok_record (full_text : list pystr) (page_info : list PageInfo.t)
    (i : nat) (r : PageInfo.t) :
  offsets_ok full_text page_info ->
  nth_error page_info i = Some r ->
  PageInfo.page_number r = Z.of_nat i + 1
  /\ PageInfo.char_start r = page_offset full_text i
  /\ PageInfo.char_end r = page_offset full_text (S i) - 2.
Proof.
  intros [Htexts Hrecs] Hi.
  destruct (Hrecs i r Hi) as [Hnum [Hstart Hend]].
  assert (Hnth : nth_error full_text i = Some (PageInfo.text r)).
  { rewrite <- Htexts. rewrite nth_error_map, Hi. reflexivity. }
  rewrite (page_offset_succ _ _ _ Hnth). fold (page_offset full_text i) in Hstart.
  split; [exact Hnum|]. split; [exact Hstart|]. lia.
Qed.

Lemma offsets_ok_length (full_text : list pystr) (page_info : list PageInfo.t) :
  offsets_ok full_text page_info ->
  List.length page_info = List.length full_text.
Proof. intros [Htexts _]. rewrite <- Htexts, length_map. reflexivity. Qed.

Lemma py_sum_cons (x : Z) (l : list Z) : py_sum (x :: l) = x + py_sum l.
Proof.
  change (x :: l) with ([x] ++ l). rewrite py_sum_app.
  change (py_sum [x]) with (0 + x). lia.
Qed.

Lemma len_join_pages (full_text : list pystr) :
  full_text <> [] ->
  len (join page_separator full_text)
  = page_offset full_text (List.length full_text) - 2.
Proof.
  unfold page_offset. rewrite firstn_all.
  induction full_text as [|t rest IH]; [congruence|]. intros _.
  destruct rest as [|u rest].
  - cbn [join map]. rewrite py_sum_cons. change (py_sum []) with 0. lia.
  - change (join page_separator (t :: u :: rest))
      with (t ++ page_separator ++ join page_separator (u :: rest)).
    rewrite !len_app, IH by discriminate.
    cbn [map]. rewrite !py_sum_cons.
    change (len page_separator) with 2. lia.
Qed.

(** X2.  On page records that agree with the page texts, as
    [extract_from_pdf_with_pages] builds them, the pages of a chunk are
    consecutive: every page number between two pages of the chunk is a
    page of the chunk. *)
Theorem find_chunk_pages_consecutive
    (full_text : list pystr) (page_info : list PageInfo.t)
    (chunk_start chunk_end p q n : Z) :
  offsets_ok full_text page_info ->
  In p (_find_chunk_pages chunk_start chunk_end page_info) ->
  In q (_find_chunk_pages chunk_start chunk_end page_info) ->
  p <= n <= q ->
  In n (_find_chunk_pages chunk_start chunk_end page_info).
Proof.
  intros Hok Hp Hq Hn.
  apply find_chunk_pages_In in Hp. apply find_chunk_pages_In in Hq.
  apply find_chunk_pages_In.
  destruct Hp as [rp [Hinp [Hnump [Hp1 _]]]].
  destruct Hq as [rq [Hinq [Hnumq [_ Hq2]]]].
  apply In_nth_error in Hinp. destruct Hinp as [i Hi].
  apply In_nth_error in Hinq. destruct Hinq as [j Hj].
  destruct (offsets_ok_record _ _ _ _ Hok Hi) as [Hni [_ Hei]].
  destruct (offsets_ok_record _ _ _ _ Hok Hj) as [Hnj [Hsj _]].
  assert (Hjlt : (j < List.length page_info)%nat).
  { apply nth_error_Some. congruence. }
  set (k := Z.to_nat (n - 1)).
  assert (Hik : (i <= k)%nat) by (unfold k; lia).
  assert (Hkj : (k <= j)%nat) by (unfold k; lia).
  destruct (nth_error page_info k) as [rk|] eqn:Hk;
    [|apply nth_error_None in Hk; lia].
  destruct (offsets_ok_record _ _ _ _ Hok Hk) as [Hnk [Hsk Hek]].
  exists rk. split; [eapply nth_error_In; exact Hk|].
  split; [unfold k in Hnk; lia|].
  pose proof (page_offset_mono full_text (S i) (S k) ltac:(lia)).
  pose proof (page_offset_mono full_text k j Hkj).
  lia.
Qed.

(** The witness of X2: a chunk over all three pages of the scanned
    document has the pages 1, 2, 3. *)
Lemma find_chunk_pages_consecutive_witness :
  exists (result : pystr) (page_info : list PageInfo.t)
         (h' : @History scan_libraries),
    @extract_from_pdf_with_pages scan_libraries [] []
    = (inr (result, page_info), h')
    /\ _find_chunk_pages 10 120 page_info = [1; 2; 3]
    /\ In 2 (_find_chunk_pages 10 120 page_info).
Proof.
  eexists. eexists. eexists.
  split; [vm_compute; reflexivity|].
  split; [reflexivity|].
  destruct (@extract_from_pdf_with_pages_inv scan_libraries [] [] _ _ _ eq_refl)
    as [doc [full_text [_ [_ [Hok _]]]]].
  apply (find_chunk_pages_consecutive full_text _ 10 120 1 3 2 Hok).
  - left. reflexivity.
  - right. right. left. reflexivity.
  - lia.
Defined.

(** A span of at least three characters inside the full text overlaps a
    page record. *)
Lemma span_overlaps_a_page
    (full_text : list pystr) (page_info : list PageInfo.t)
    (chunk_start chunk_end : Z) :
  offsets_ok full_text page_info ->
  0 <= chunk_start -> chunk_start + 3 <= chunk_end ->
  chunk_end <= len (join page_separator full_text) ->
  _find_chunk_pages chunk_start chunk_end page_info <> [].
Proof.
  intros Hok Hcs Hlen Hce.
  destruct full_text as [|t0 rest] eqn:Hft.
  { cbn in Hce. lia. }
  rewrite <- Hft in *.
  assert (Hne : full_text <> []) by (rewrite Hft; discriminate).
  rewrite (len_join_pages _ Hne) in Hce.
  set (m := List.length full_text) in *.
  assert (Hm : (0 < m)%nat) by (unfold m; rewrite Hft; cbn; lia).
  assert (Hsearch : forall (d j : nat),
             (j + d = m - 1)%nat ->
             page_offset full_text j < chunk_end ->
             exists i : nat,
               (i < m)%nat
               /\ chunk_start < page_offset full_text (S i) - 2
               /\ page_offset full_text i < chunk_end).
  { induction d as [|d IH]; intros j Hj Hoff.
    - exists j. split; [lia|]. split; [|exact Hoff].
      replace (S j) with m by lia. lia.
    - destruct (Z_lt_ge_dec (page_offset full_text (S j)) chunk_end)
        as [Hlt | Hge].
      + apply (IH (S j)); [lia | exact Hlt].
      + exists j. split; [lia|]. split; [lia | exact Hoff]. }
  destruct (Hsearch (m - 1)%nat 0%nat ltac:(lia)) as [i [Hi [H1 H2]]].
  { change (page_offset full_text 0) with 0. lia. }
  assert (Hlen' := offsets_ok_length _ _ Hok). fold m in Hlen'.
  destruct (nth_error page_info i) as [r|] eqn:Hr;
    [|apply nth_error_None in Hr; lia].
  destruct (offsets_ok_record _ _ _ _ Hok Hr) as [Hnum [Hs He]].
  intros Hnil.
  assert (Hin : In (Z.of_nat i + 1)
                  (_find_chunk_pages chunk_start chunk_end page_info)).
  { apply find_chunk_pages_In.
    exists r. split; [eapply nth_error_In; exact Hr|].
    split; [exact Hnum|]. lia. }
  rewrite Hnil in Hin. exact Hin.
Qed.

(** ** Chunk records *)

Lemma len_lstrip_le (s : pystr) : len (lstrip s) <= len s.
Proof.
  induction s as [|c r IH]; cbn [lstrip]; [lia|].
  destruct (is_space c); [rewrite len_cons; lia | lia].
Qed.

Lemma len_rev {A : Type} (l : list A) : len (rev l) = len l.
Proof. unfold len. rewrite length_rev. reflexivity. Qed.

Lemma len_strip_le (s : pystr) : len (strip s) <= len s.
Proof.
  unfold strip, rstrip. rewrite len_rev.
  pose proof (len_lstrip_le (rev (lstrip s))) as H1.
  rewrite len_rev in H1. pose proof (len_lstrip_le s). lia.
Qed.

Lemma find_at_ge (s sub : pystr) :
  forall off : Z, 0 <= off -> -1 <= find_at s sub off.
Proof.
  induction s as [|c r IH]; intros off Hoff; cbn [find_at];
    destruct (startswith _ sub); try lia.
  apply IH. lia.
Qed.

Lemma find_ge (s sub : pystr) (start : Z) : -1 <= find s sub start.
Proof.
  unfold find.
  destruct (len s <? (if start <? 0 then Z.max 0 (start + len s) else start));
    [lia|].
  apply find_at_ge.
  destruct (start <? 0) eqn:E; [lia | apply Z.ltb_ge in E; exact E].
Qed.

Section ChunkRecordFacts.
Context `{Libraries} `{Settings} `{TextSplitter}.

(** Every record the loop of [chunk_text_with_pages] appends. *)
Lemma locate_chunks_records (text : pystr) (page_info : list PageInfo.t)
    (fragments : list pystr) :
  forall (current_pos : Z) (chunks_with_pages : list Chunk.t),
  exists new : list Chunk.t,
    snd (fold_left (locate_chunk text page_info) fragments
           (current_pos, chunks_with_pages))
    = chunks_with_pages ++ new
    /\ Forall (fun r =>
                 20 < len (strip (Chunk.text r))
                 /\ Chunk.char_end r = Chunk.char_start r + len (Chunk.text r)
                 /\ Chunk.pages r
                    = _find_chunk_pages (Chunk.char_start r) (Chunk.char_end r)
                        page_info
                 /\ (Chunk.char_start r = -1
                     \/ (0 <= Chunk.char_start r
                         /\ Chunk.char_end r <= len text
                         /\ slice text (Chunk.char_start r) (Chunk.char_end r)
                            = Chunk.text r)))
         new.
Proof.
  induction fragments as [|chunk rest IH]; intros current_pos acc.
  - exists []. rewrite app_nil_r. split; [reflexivity | constructor].
  - cbn [fold_left]. unfold locate_chunk at 2.
    destruct (len (strip chunk) <=? 20) eqn:Hshort.
    + apply IH.
    + match goal with
      | |- context [fold_left _ rest (?pos, acc ++ [?r])] =>
        destruct (IH pos (acc ++ [r])) as [new [Hsnd Hall]];
          exists (r :: new)
      end.
      split; [rewrite Hsnd, <- app_assoc; reflexivity|].
      constructor; [|exact Hall].
      cbn [Chunk.char_start Chunk.char_end Chunk.text Chunk.pages].
      apply Z.leb_gt in Hshort.
      split; [exact Hshort|]. split; [reflexivity|]. split; [reflexivity|].
      pose proof (find_ge text chunk current_pos) as Hge.
      destruct (Z.eq_dec (find text chunk current_pos) (-1)) as [E | E];
        [left; exact E | right].
      assert (Hfound : 0 <= find text chunk current_pos) by lia.
      destruct (find_found text chunk current_pos _ eq_refl Hfound)
        as [_ [Hend Hslice]].
      auto.
Qed.

(** X3.  Every record of [chunk_text_with_pages] is more than 20
    characters long: [char_end - char_start == len(text) > 20], so
    [char_start < char_end]; its pages are those of its span; and its
    [char_start] is either -1 or the position of an occurrence of its
    text in the full text. *)
Theorem chunk_records_spans
    (text : pystr) (page_info : list PageInfo.t)
    (chunk_size chunk_overlap : option Z) (records : list Chunk.t) :
  chunk_text_with_pages text page_info chunk_size chunk_overlap = inr records ->
  Forall (fun r =>
            Chunk.char_end r - Chunk.char_start r = len (Chunk.text r)
            /\ 20 < len (Chunk.text r)
            /\ Chunk.char_start r < Chunk.char_end r
            /\ Chunk.pages r
               = _find_chunk_pages (Chunk.char_start r) (Chunk.char_end r)
                   page_info
            /\ (Chunk.char_start r = -1
                \/ (0 <= Chunk.char_start r
                    /\ Chunk.char_end r <= len text
                    /\ slice text (Chunk.char_start r) (Chunk.char_end r)
                       = Chunk.text r)))
    records.
Proof.
  unfold chunk_text_with_pages.
  destruct (choose_splitter chunk_size chunk_overlap text)
    as [e | fragments]; [discriminate|].
  intros E. injection E as <-.
  destruct (locate_chunks_records text page_info fragments 0 [])
    as [new [Hsnd Hall]].
  cbn [app] in Hsnd. rewrite Hsnd.
  eapply Forall_impl; [|exact Hall].
  intros r [Hlong [Hend [Hpages Hloc]]].
  pose proof (len_strip_le (Chunk.text r)).
  repeat split; try assumption; lia.
Qed.

(** X4.  Chunking the text that [extract_from_pdf_with_pages] returns,
    with the page records it returns: every record whose chunk was
    located has at least one page. *)
Theorem located_chunks_have_pages
    (file_content : bytes) (h h' : History) (text : pystr)
    (page_info : list PageInfo.t) (chunk_size chunk_overlap : option Z)
    (records : list Chunk.t) :
  extract_from_pdf_with_pages file_content h = (inr (text, page_info), h') ->
  chunk_text_with_pages text page_info chunk_size chunk_overlap = inr records ->
  Forall (fun r => 0 <= Chunk.char_start r -> Chunk.pages r <> []) records.
Proof.
  intros Hrun Hchunks.
  apply extract_from_pdf_with_pages_inv in Hrun.
  destruct Hrun as [doc [full_text [_ [Htext [Hok _]]]]].
  unfold chunk_text_with_pages in Hchunks.
  destruct (choose_splitter chunk_size chunk_overlap text)
    as [e | fragments]; [discriminate|].
  injection Hchunks as <-.
  destruct (locate_chunks_records text page_info fragments 0 [])
    as [new [Hsnd Hall]].
  cbn [app] in Hsnd. rewrite Hsnd.
  eapply Forall_impl; [|exact Hall].
  intros r [Hlong [Hend [Hpages Hloc]]] Hstart.
  destruct Hloc as [Hneg | [_ [Hin _]]]; [lia|].
  rewrite Hpages.
  pose proof (len_strip_le (Chunk.text r)).
  apply (span_overlaps_a_page full_text); try assumption; try lia.
  rewrite <- Htext. exact Hin.
Qed.

End ChunkRecordFacts.

(** X3 on the heading and its paragraph. *)
Lemma chunk_records_spans_witness :
  exists records : list Chunk.t,
    @chunk_text_with_pages heading_settings heading_splitter
      heading_text [] None None = inr records
    /\ map Chunk.char_end records = [30; 74]
    /\ Forall (fun r => Chunk.char_start r < Chunk.char_end r) records.
Proof.
  eexists. split; [vm_compute; reflexivity|]. split; [reflexivity|].
  pose proof (@chunk_records_spans heading_settings heading_splitter
                heading_text [] None None _ eq_refl) as Hall.
  eapply Forall_impl; [|exact Hall].
  intros r [_ [_ [Hlt _]]]. exact Hlt.
Defined.

(** X4 on the three-page document: the chunks lie on pages 1, 2 and 3. *)
Lemma located_chunks_have_pages_witness :
  exists (text : pystr) (page_info : list PageInfo.t)
         (h' : @History scan_libraries) (records : list Chunk.t),
    @extract_from_pdf_with_pages scan_libraries [] []
    = (inr (text, page_info), h')
    /\ @chunk_text_with_pages scan_settings scan_splitter
         text page_info None None = inr records
    /\ map Chunk.pages records = [[1]; [2]; [3]]
    /\ Forall (fun r => 0 <= Chunk.char_start r -> Chunk.pages r <> []) records.
Proof.
  eexists. eexists. eexists. eexists.
  split; [vm_compute; reflexivity|].
  split; [vm_compute; reflexivity|].
  split; [reflexivity|].
  apply (@located_chunks_have_pages scan_libraries scan_settings scan_splitter
           [] [] _ _ _ None None _ eq_refl eq_refl).
Defined.

(** ** Cleaning OCR text *)

Lemma lstrip_head (s : pystr) :
  lstrip s = [] \/ exists c r, lstrip s = c :: r /\ is_space c = false.
Proof.
  induction s as [|c r IH]; cbn [lstrip]; [left; reflexivity|].
  destruct (is_space c) eqn:E; [exact IH | right; eauto].
Qed.

Lemma lstrip_nonspace (c : char) (r : pystr) :
  is_space c = false -> lstrip (c :: r) = c :: r.
Proof. intros E. cbn [lstrip]. rewrite E. reflexivity. Qed.

Lemma lstrip_idem (s : pystr) : lstrip (lstrip s) = lstrip s.
Proof.
  destruct (lstrip_head s) as [-> | [c [r [-> E]]]]; [reflexivity|].
  apply lstrip_nonspace. exact E.
Qed.

Lemma lstrip_snoc (a : pystr) (c : char) :
  is_space c = false -> exists a', lstrip (a ++ [c]) = a' ++ [c].
Proof.
  intros E. induction a as [|x a IH]; cbn [app lstrip].
  - rewrite E. exists []. reflexivity.
  - destruct (is_space x); [exact IH|]. exists (x :: a). reflexivity.
Qed.

Lemma rstrip_idem (s : pystr) : rstrip (rstrip s) = rstrip s.
Proof. unfold rstrip. rewrite rev_involutive, lstrip_idem. reflexivity. Qed.

Lemma lstrip_rstrip_lstrip (s : pystr) :
  lstrip (rstrip (lstrip s)) = rstrip (lstrip s).
Proof.
  destruct (lstrip_head s) as [-> | [c [r [-> E]]]]; [reflexivity|].
  unfold rstrip. cbn [rev].
  destruct (lstrip_snoc (rev r) c E) as [a' ->].
  rewrite rev_app_distr. cbn [rev app]. apply lstrip_nonspace. exact E.
Qed.

(** Trimming a trimmed string changes nothing. *)
Lemma strip_idem (s : pystr) : strip (strip s) = strip s.
Proof.
  unfold strip. rewrite lstrip_rstrip_lstrip. apply rstrip_idem.
Qed.

Lemma lstrip_Forall (P : char -> Prop) (s : pystr) :
  Forall P s -> Forall P (lstrip s).
Proof.
  induction 1 as [|c r Hc Hr IH]; cbn [lstrip]; [constructor|].
  destruct (is_space c); [exact IH | constructor; assumption].
Qed.

Lemma strip_Forall (P : char -> Prop) (s : pystr) :
  Forall P s -> Forall P (strip s).
Proof.
  intros Hs. unfold strip, rstrip.
  apply Forall_rev, lstrip_Forall, Forall_rev, lstrip_Forall. exact Hs.
Qed.

(** The fields of a split do not contain the separator. *)
Lemma split_on_fields (sep : char) (s : pystr) :
  Forall (Forall (fun c => c <> sep)) (split_on sep s).
Proof.
  induction s as [|c r IH]; cbn [split_on].
  - repeat constructor.
  - destruct (c =? sep)%N eqn:E.
    + constructor; [constructor | exact IH].
    + apply N.eqb_neq in E.
      destruct (split_on sep r) as [|p ps].
      * repeat constructor. exact E.
      * inversion IH as [|? ? Hp Hps]; subst.
        constructor; [constructor; assumption | exact Hps].
Qed.

(** Splitting what was joined gives the parts back. *)
Lemma split_on_join (sep : char) (parts : list pystr) :
  parts <> [] ->
  Forall (Forall (fun c => c <> sep)) parts ->
  split_on sep (join [sep] parts) = parts.
Proof.
  induction parts as [|p rest IH]; [congruence|]. intros _ Hall.
  inversion Hall as [|? ? Hp Hrest]; subst.
  destruct rest as [|q rest].
  - cbn [join]. apply split_on_no_sep. exact Hp.
  - change (join [sep] (p :: q :: rest))
      with (p ++ sep :: join [sep] (q :: rest)).
    rewrite (split_on_app_sep _ _ _ Hp), IH by (discriminate || assumption).
    reflexivity.
Qed.

(** The lines [_clean_ocr_text] keeps. *)
Lemma clean_lines_spec (text : pystr) :
  let lines := filter (fun line => negb (len line =? 0))
                 (map strip (split_on 10%N text)) in
  Forall (fun line => line <> [] /\ strip line = line
                      /\ Forall (fun c => c <> 10%N) line) lines.
Proof.
  cbn zeta. apply Forall_forall. intros line Hin.
  apply filter_In in Hin. destruct Hin as [Hin Hne].
  apply in_map_iff in Hin. destruct Hin as [raw [<- Hraw]].
  split; [|split].
  - intros E. rewrite E in Hne. discriminate.
  - apply strip_idem.
  - apply strip_Forall.
    pose proof (split_on_fields 10%N text) as Hall.
    rewrite Forall_forall in Hall. apply Hall. exact Hraw.
Qed.

Lemma filter_map_id {A : Type} (f : A -> bool) (g : A -> A) (l : list A) :
  Forall (fun x => g x = x /\ f x = true) l -> filter f (map g l) = l.
Proof.
  induction 1 as [|x l [Hg Hf] Hl IH]; cbn [map filter]; [reflexivity|].
  rewrite Hg, Hf, IH. reflexivity.
Qed.

Lemma split_on_all_space (sep : char) (text : pystr) :
  forallb is_space text = true ->
  Forall (fun field => forallb is_space field = true) (split_on sep text).
Proof.
  induction text as [|c r IH]; intros Hspace; cbn [split_on].
  - repeat constructor.
  - cbn [forallb] in Hspace. apply andb_prop in Hspace.
    destruct Hspace as [Hc Hr]. specialize (IH Hr).
    destruct (c =? sep)%N.
    + constructor; [reflexivity | exact IH].
    + destruct (split_on sep r) as [|p ps].
      * repeat constructor. cbn. rewrite Hc. reflexivity.
      * inversion IH as [|? ? Hp Hps]; subst.
        constructor; [|exact Hps]. cbn [forallb]. rewrite Hc, Hp. reflexivity.
Qed.

Lemma clean_ocr_text_all_space (text : pystr) :
  forallb is_space text = true -> _clean_ocr_text text = [].
Proof.
  intros Hspace. unfold _clean_ocr_text.
  pose proof (split_on_all_space 10%N text Hspace) as Hall.
  induction (split_on 10%N text) as [|field fields IH]; [reflexivity|].
  inversion Hall as [|? ? Hf Hfs]; subst.
  cbn [map filter]. rewrite (strip_all_space field Hf). cbn.
  apply IH. exact Hfs.
Qed.

Lemma lstrip_nil (s : pystr) : lstrip s = [] -> forallb is_space s = true.
Proof.
  induction s as [|c r IH]; cbn [lstrip forallb]; [reflexivity|].
  destruct (is_space c); [exact IH | discriminate].
Qed.

(** Only a text of whitespace is trimmed to nothing. *)
Lemma strip_nil (s : pystr) : strip s = [] -> forallb is_space s = true.
Proof.
  unfold strip, rstrip. intros E.
  apply (f_equal (@rev char)) in E. rewrite rev_involutive in E.
  cbn [rev] in E. apply lstrip_nil in E.
  destruct (lstrip_head s) as [Hn | [c [r [Hc Hsp]]]].
  - apply lstrip_nil. exact Hn.
  - rewrite Hc in E. rewrite forallb_forall in E.
    rewrite (E c) in Hsp; [discriminate|].
    apply in_rev. rewrite rev_involutive. left. reflexivity.
Qed.

Lemma blank_line_test (line : pystr) :
  (len (strip line) =? 0) = forallb is_space line.
Proof.
  destruct (forallb is_space line) eqn:E.
  - rewrite (strip_all_space line E). reflexivity.
  - apply Z.eqb_neq. intros Hlen. apply len_nil_iff, strip_nil in Hlen.
    congruence.
Qed.

(** Trimming the lines and dropping the empty ones is dropping the blank
    lines and trimming the others. *)
Lemma clean_lines_kept (lines : list pystr) :
  filter (fun line => negb (len line =? 0)) (map strip lines)
  = map strip (filter (fun line => negb (forallb is_space line)) lines).
Proof.
  induction lines as [|line rest IH]; [reflexivity|].
  cbn [map filter]. rewrite blank_line_test.
  destruct (forallb is_space line); cbn [negb map]; rewrite IH; reflexivity.
Qed.

(** X5.  The text [_clean_ocr_text] returns consists of the non-blank
    lines of its input, trimmed, joined by single newlines.  With [kept]
    the lines of the input that have a character other than white space,
    in order: the result is the trimmed lines of [kept] joined by
    newlines; split at newlines it gives back exactly these trimmed
    lines, none of which is empty or has surrounding white space; it is
    empty when no line is kept; cleaning it again changes nothing; and a
    text of white space only is cleaned to the empty string. *)
Theorem clean_ocr_text_spec (text : pystr) :
  let kept :=
    filter (fun line => negb (forallb is_space line)) (split_on 10%N text) in
  _clean_ocr_text text = join [10%N] (map strip kept)
  /\ (kept <> [] ->
      split_on 10%N (_clean_ocr_text text) = map strip kept)
  /\ (kept = [] -> _clean_ocr_text text = [])
  /\ Forall (fun line => line <> [] /\ strip line = line) (map strip kept)
  /\ _clean_ocr_text (_clean_ocr_text text) = _clean_ocr_text text
  /\ (forallb is_space text = true -> _clean_ocr_text text = []).
Proof.
  cbn zeta.
  pose proof (clean_lines_spec text) as Hlines. cbn zeta in Hlines.
  assert (Hdef : _clean_ocr_text text
                 = join [10%N]
                     (map strip
                        (filter (fun line => negb (forallb is_space line))
                           (split_on 10%N text)))).
  { unfold _clean_ocr_text. rewrite clean_lines_kept. reflexivity. }
  rewrite clean_lines_kept in Hlines.
  split; [exact Hdef|]. split; [|split; [|split; [|split]]].
  - intros Hkept. rewrite Hdef. apply split_on_join.
    + intros Hnil. apply map_eq_nil in Hnil. contradiction.
    + eapply Forall_impl; [|exact Hlines]. intros l [_ [_ Hl]]. exact Hl.
  - intros Hkept. rewrite Hdef, Hkept. reflexivity.
  - eapply Forall_impl; [|exact Hlines]. intros l [H1 [H2 _]]. auto.
  - unfold _clean_ocr_text at 2 3.
    rewrite clean_lines_kept.
    destruct (map strip
                (filter (fun line => negb (forallb is_space line))
                   (split_on 10%N text))) as [|l0 ls] eqn:El;
      [reflexivity|].
    unfold _clean_ocr_text. rewrite split_on_join.
    + rewrite filter_map_id; [reflexivity|].
      eapply Forall_impl; [|exact Hlines]. intros l [H1 [H2 _]].
      split; [exact H2|]. destruct l; [congruence | reflexivity].
    + discriminate.
    + eapply Forall_impl; [|exact Hlines]. intros l [_ [_ Hl]]. exact Hl.
  - apply clean_ocr_text_all_space.
Qed.

(** ** More on the metadata parser *)

Lemma parse_textbook_metadata_of_stem (f1 f2 : pystr) :
  stem f1 = stem f2 ->
  parse_textbook_metadata f1 = parse_textbook_metadata f2.
Proof.
  intros Hstem.
  destruct (Z_lt_ge_dec (len (split_on 95%N (stem f1))) 4) as [Hshort | Hlong].
  - rewrite (parse_textbook_metadata_short f1 Hshort).
    rewrite Hstem in Hshort.
    rewrite (parse_textbook_metadata_short f2 Hshort). reflexivity.
  - destruct (split_on 95%N (stem f1)) as [|b [|s [|p [|g rest]]]] eqn:E;
      try (cbn in Hlong; lia).
    rewrite (parse_textbook_metadata_fields f1 _ _ _ _ _ E).
    rewrite Hstem in E.
    rewrite (parse_textbook_metadata_fields f2 _ _ _ _ _ E). reflexivity.
Qed.

(** X6.  [parse_textbook_metadata] never raises, and its result depends
    on the file name only through the part before the first dot: two
    names with the same such part give the same metadata, so everything
    from the first dot on, not only the extension, is ignored. *)
Theorem parse_textbook_metadata_reads_stem :
  (forall filename : pystr,
     exists m : BookMetadata.t, parse_textbook_metadata filename = inr m)
  /\ (forall f1 f2 : pystr,
        stem f1 = stem f2 ->
        parse_textbook_metadata f1 = parse_textbook_metadata f2)
  /\ (forall name ext : pystr,
        Forall (fun c => c <> 46%N) name ->
        parse_textbook_metadata (name ++ 46%N :: ext)
        = parse_textbook_metadata name)
  /\ parse_textbook_metadata (lit "SGK_TIN_CD_3.5.pdf")
     = parse_textbook_metadata (lit "SGK_TIN_CD_3").
Proof.
  split; [|split; [exact parse_textbook_metadata_of_stem|split]].
  - intros filename.
    destruct (Z_lt_ge_dec (len (split_on 95%N (stem filename))) 4)
      as [Hshort | Hlong].
    + eexists. apply (parse_textbook_metadata_short _ Hshort).
    + destruct (split_on 95%N (stem filename)) as [|b [|s [|p [|g rest]]]] eqn:E;
        try (cbn in Hlong; lia).
      eexists. apply (parse_textbook_metadata_fields _ _ _ _ _ _ E).
  - intros name ext Hname. apply parse_textbook_metadata_of_stem.
    destruct (stem_no_dot name ext Hname) as [-> ->]. reflexivity.
  - reflexivity.
Qed.

(** ** More on the OCR service *)

Section OCRRunFacts.
Context `{Libraries}.

(** The run of [extract_text] on an image that loads. *)
Lemma extract_text_run (image_content : bytes) (enhance : bool)
    (language : pystr) (h : History) (img : ndarray) :
  pil_open_bgr h image_content = inr img ->
  let config := lit "--oem 3 --psm 6" in
  let lang :=
    if str_eqb language (lit "vi") then lit "vie"
    else if str_eqb language (lit "en") || str_eqb language (lit "code")
         then lit "eng" else lit "eng+vie" in
  let h1 := h ++ [CallImageOpen image_content] in
  let text :=
    match tesseract_image_to_string h1 img lang config with
    | inl _ => lit ""
    | inr raw => strip raw
    end in
  let h2 := h1 ++ [CallImageToString img lang config] in
  let img_enhanced :=
    match cv2_enhance h2 img with inl _ => img | inr i => i end in
  let h3 := h2 ++ [CallEnhance img] in
  let text_enhanced :=
    match tesseract_image_to_string h3 img_enhanced lang config with
    | inl _ => lit ""
    | inr raw => strip raw
    end in
  extract_text image_content enhance language h
  = if enhance
       && ((len (strip text) <? 10)
           || (len (split_ws text) <? 2 * single_char_tokens text))
    then (inr (if len text_enhanced >? len text then text_enhanced else text),
          h3 ++ [CallImageToString img_enhanced lang config])
    else (inr text, h2).
Proof.
  intros Hopen. cbn zeta.
  unfold extract_text, try_except at 1, bind at 1, _load_image,
    try_except at 1, external, raise, ret.
  rewrite Hopen. rewrite bind_run, _ocr_image_run.
  destruct enhance; cbn [andb].
  - rewrite bind_run. unfold lift. rewrite _is_poor_result_eq.
    match goal with
    | |- context [if ?b then _ else _] => destruct b
    end.
    + rewrite !bind_run, _enhance_for_ocr_run. cbv iota beta.
      rewrite bind_run, _ocr_image_run. reflexivity.
    + reflexivity.
  - reflexivity.
Qed.

Lemma strip_or_empty_trimmed (r : result pystr) :
  strip match r with inl _ => lit "" | inr raw => strip raw end
  = match r with inl _ => lit "" | inr raw => strip raw end.
Proof. destruct r; [reflexivity | apply strip_idem]. Qed.



End OCRRunFacts.



(** ** The metadata of textbook chunks *)

Lemma textbook_metadata_loop_index
    (filename file_type file_hash : pystr) (product_name : option pystr)
    (book_metadata : TextbookInfo.t) (total : Z)
    (chunks_with_pages : list Chunk.t) :
  forall (idx : Z) (metadata_list : list ChunkMeta.t),
  exists rest : list ChunkMeta.t,
    textbook_metadata_loop filename file_type file_hash product_name
      book_metadata total idx chunks_with_pages metadata_list
    = inr (metadata_list ++ rest)
    /\ List.length rest = List.length chunks_with_pages
    /\ forall (k : nat) (meta : ChunkMeta.t),
         nth_error rest k = Some meta ->
         ChunkMeta.chunk_index meta = idx + Z.of_nat k
         /\ ChunkMeta.total_chunks meta = total
         /\ ChunkMeta.filename meta = filename
         /\ ChunkMeta.file_type meta = file_type
         /\ ChunkMeta.file_hash meta = file_hash
         /\ ChunkMeta.book_full_name meta = TextbookInfo.full_name book_metadata
         /\ ChunkMeta.product_name meta
            = match product_name with
              | Some n => if len n =? 0
                          then TextbookInfo.full_name book_metadata else n
              | None => TextbookInfo.full_name book_metadata
              end
         /\ exists chunk_info : Chunk.t,
              nth_error chunks_with_pages k = Some chunk_info
              /\ ChunkMeta.pages meta = Chunk.pages chunk_info
              /\ ChunkMeta.char_start meta = Chunk.char_start chunk_info
              /\ ChunkMeta.char_end meta = Chunk.char_end chunk_info.
Proof.
  induction chunks_with_pages as [|chunk_info chunks IH]; intros idx acc.
  - exists []. rewrite app_nil_r. split; [reflexivity|].
    split; [reflexivity|]. intros [|k] meta; discriminate.
  - cbn [textbook_metadata_loop].
    destruct (page_range_of_total (Chunk.pages chunk_info)) as [label ->].
    match goal with
    | |- context [acc ++ [?m]] => set (meta0 := m)
    end.
    destruct (IH (idx + 1) (acc ++ [meta0])) as [rest [Hrun [Hlen Hall]]].
    exists (meta0 :: rest). split; [rewrite Hrun, <- app_assoc; reflexivity|].
    split; [cbn [List.length]; rewrite Hlen; reflexivity|].
    intros [|k] meta Hk; cbn [nth_error] in Hk.
    + injection Hk as <-. unfold meta0. cbn.
      repeat split; try reflexivity; try lia.
      exists chunk_info. auto.
    + destruct (Hall k meta Hk) as [Hidx Hrest].
      split; [lia | exact Hrest].
Qed.

(** X9.  [process_textbook_document] builds one metadata entry per chunk
    record, in order, and never fails in doing so: entry [i] has
    [chunk_index] [i] and [total_chunks] the number of records, carries
    the file name, type and hash, the pages and the span of record [i],
    and has the caller's [product_name] unless that is missing or empty,
    in which case it has the book's full name. *)
Theorem textbook_metadata_bookkeeping
    (filename file_type file_hash : pystr) (product_name : option pystr)
    (book_metadata : TextbookInfo.t) (chunks_with_pages : list Chunk.t) :
  exists metadata_list : list ChunkMeta.t,
    textbook_metadata filename file_type file_hash product_name
      book_metadata chunks_with_pages = inr metadata_list
    /\ List.length metadata_list = List.length chunks_with_pages
    /\ forall (i : nat) (meta : ChunkMeta.t),
         nth_error metadata_list i = Some meta ->
         ChunkMeta.chunk_index meta = Z.of_nat i
         /\ ChunkMeta.total_chunks meta = len chunks_with_pages
         /\ ChunkMeta.filename meta = filename
         /\ ChunkMeta.file_type meta = file_type
         /\ ChunkMeta.file_hash meta = file_hash
         /\ ChunkMeta.book_full_name meta = TextbookInfo.full_name book_metadata
         /\ ChunkMeta.product_name meta
            = match product_name with
              | Some n => if len n =? 0
                          then TextbookInfo.full_name book_metadata else n
              | None => TextbookInfo.full_name book_metadata
              end
         /\ exists chunk_info : Chunk.t,
              nth_error chunks_with_pages i = Some chunk_info
              /\ ChunkMeta.pages meta = Chunk.pages chunk_info
              /\ ChunkMeta.char_start meta = Chunk.char_start chunk_info
              /\ ChunkMeta.char_end meta = Chunk.char_end chunk_info.
Proof.
  destruct (textbook_metadata_loop_index filename file_type file_hash
              product_name book_metadata (len chunks_with_pages)
              chunks_with_pages 0 [])
    as [rest [Hrun [Hlen Hall]]].
  exists rest. split; [exact Hrun|]. split; [exact Hlen|].
  intros i meta Hi. destruct (Hall i meta Hi) as [Hidx Hrest].
  split; [lia | exact Hrest].
Qed.

(** ** Dictionaries and batches *)

Lemma dict_lookup_set_same (d : pydict) (k : pystr) (v : PyVal) :
  dict_lookup (dict_set d k v) k = Some v.
Proof.
  induction d as [|[k' v'] d IH]; cbn [dict_set dict_lookup].
  - rewrite str_eqb_refl. reflexivity.
  - destruct (str_eqb k k') eqn:E; cbn [dict_lookup]; rewrite E;
      [reflexivity | exact IH].
Qed.

Lemma dict_lookup_set_other (d : pydict) (k k' : pystr) (v : PyVal) :
  k' <> k -> dict_lookup (dict_set d k v) k' = dict_lookup d k'.
Proof.
  intros Hne.
  assert (Hkk : str_eqb k' k = false).
  { destruct (str_eqb k' k) eqn:E; [|reflexivity].
    apply str_eqb_eq in E. contradiction. }
  induction d as [|[k0 v0] d IH]; cbn [dict_set dict_lookup].
  - rewrite Hkk. reflexivity.
  - destruct (str_eqb k k0) eqn:E; cbn [dict_lookup].
    + apply str_eqb_eq in E. subst k0. rewrite Hkk. reflexivity.
    + rewrite IH. reflexivity.
Qed.

Lemma firstn_plus {A : Type} (n m : nat) (l : list A) :
  firstn (n + m) l = firstn n l ++ firstn m (skipn n l).
Proof.
  revert l. induction n as [|n IH]; intros l; [reflexivity|].
  destruct l as [|x l]; cbn [Nat.add firstn skipn app].
  - rewrite firstn_nil. reflexivity.
  - rewrite IH. reflexivity.
Qed.

(** [l[i:i+b]] for a start inside or outside the list. *)
Lemma slice_batch {A : Type} (l : list A) (i b : Z) :
  0 <= i -> 0 <= b ->
  slice l i (i + b) = firstn (Z.to_nat b) (skipn (Z.to_nat i) l).
Proof.
  intros Hi Hb. unfold slice, clamp_index.
  pose proof (len_nonneg l) as Hn.
  destruct (i <? 0) eqn:E1; [apply Z.ltb_lt in E1; lia|].
  destruct (i + b <? 0) eqn:E2; [apply Z.ltb_lt in E2; lia|].
  unfold len in *.
  destruct (Z_le_gt_dec i (Z.of_nat (List.length l))) as [Hin | Hout].
  - rewrite (Z.min_l i) by lia.
    destruct (Z_le_gt_dec (i + b) (Z.of_nat (List.length l))) as [Hfit | Hcut].
    + rewrite Z.min_l by lia. f_equal. lia.
    + rewrite Z.min_r by lia.
      rewrite !firstn_all2; [reflexivity | |]; rewrite length_skipn; lia.
  - rewrite !Z.min_r by lia. rewrite Z.sub_diag. cbn [Z.to_nat firstn].
    rewrite skipn_all2 by lia. rewrite firstn_nil. reflexivity.
Qed.

Lemma range_step_bounds (n b : Z) :
  0 <= n -> 0 < b ->
  let k := (n + b - 1) / b in
  0 <= k /\ n <= b * k /\ (0 < k -> b * (k - 1) < n).
Proof.
  intros Hn Hb. cbn zeta.
  pose proof (Z.div_mod (n + b - 1) b ltac:(lia)) as Hdm.
  pose proof (Z.mod_pos_bound (n + b - 1) b Hb) as Hmod.
  assert (0 <= (n + b - 1) / b) by (apply Z.div_pos; lia).
  split; [assumption|]. split; nia.
Qed.

(** The batches [l[i:i+b]] for [i] in [range(0, len(l), b)] make up [l];
    none is empty and none has more than [b] elements. *)
Lemma batches_partition {A : Type} (l : list A) (b : Z) :
  0 < b ->
  List.concat (map (fun i => slice l i (i + b)) (range_step (len l) b)) = l
  /\ Forall (fun batch : list A => 1 <= len batch <= b)
       (map (fun i => slice l i (i + b)) (range_step (len l) b))
  /\ len (range_step (len l) b) = (len l + b - 1) / b.
Proof.
  intros Hb. unfold range_step.
  pose proof (range_step_bounds (len l) b (len_nonneg l) Hb) as Hk.
  cbn zeta in Hk. destruct Hk as [Hk0 [Hcover Hlast]].
  set (k := Z.to_nat ((len l + b - 1) / b)) in *.
  assert (Hkz : Z.of_nat k = (len l + b - 1) / b) by (unfold k; lia).
  rewrite <- Hkz in Hcover, Hlast.
  rewrite map_map.
  assert (Hconcat : forall j : nat,
             List.concat (map (fun x : nat =>
                            slice l (b * Z.of_nat x) (b * Z.of_nat x + b))
                       (seq 0 j))
             = firstn (Z.to_nat b * j) l).
  { induction j as [|j IH]; [rewrite Nat.mul_0_r; reflexivity|].
    rewrite seq_S, map_app, concat_app, IH. cbn [map List.concat Nat.add].
    rewrite app_nil_r, slice_batch by lia.
    replace (Z.to_nat (b * Z.of_nat j)) with (Z.to_nat b * j)%nat by lia.
    rewrite <- firstn_plus. f_equal. lia. }
  split; [|split].
  - rewrite Hconcat. apply firstn_all2. unfold len in *. lia.
  - apply Forall_forall. intros batch Hin.
    apply in_map_iff in Hin. destruct Hin as [j [<- Hj]].
    apply in_seq in Hj. rewrite slice_batch by lia.
    unfold len in *. rewrite length_firstn, length_skipn.
    assert (b * Z.of_nat j < Z.of_nat (List.length l)).
    { assert (b * Z.of_nat j <= b * (Z.of_nat k - 1)) by nia. lia. }
    lia.
  - unfold len. rewrite length_map, length_seq. fold (len l). lia.
Qed.

(** ** The Qdrant service *)

Section QdrantFacts.
Context `{Qdrant}.

Lemma qcall_run {A : Type} (c : QCall Vector) (answer : QLog -> result A)
    (log : QLog) :
  qcall c answer log = (answer log, log ++ [c]).
Proof. reflexivity. Qed.

Lemma upserted_points_app (l1 l2 : QLog) :
  upserted_points (l1 ++ l2) = upserted_points l1 ++ upserted_points l2.
Proof. unfold upserted_points. apply flat_map_app. Qed.

Lemma upsert_calls_app (l1 l2 : QLog) :
  upsert_calls (l1 ++ l2) = upsert_calls l1 ++ upsert_calls l2.
Proof. unfold upsert_calls. apply flat_map_app. Qed.

(** The loop that builds the points never fails, sends nothing, and
    appends one point per item. *)
Lemma upsert_points_loop_spec (doc_id : pystr)
    (items : list (pystr * Vector * pydict)) :
  forall (idx : Z) (points : list (PointStruct.t Vector)) (log : QLog),
  exists (new : list (PointStruct.t Vector)) (calls : QLog),
    upsert_points_loop doc_id items idx points log
    = (inr (points ++ new), log ++ calls)
    /\ upsert_calls calls = []
    /\ List.length new = List.length items
    /\ forall (k : nat) (p : PointStruct.t Vector),
         nth_error new k = Some p ->
         exists doc emb meta,
           nth_error items k = Some (doc, emb, meta)
           /\ point_carries doc_id (idx + Z.of_nat k) doc emb meta p.
Proof.
  induction items as [|[[doc emb] meta] rest IH]; intros idx points log.
  - exists [], []. rewrite !app_nil_r. split; [reflexivity|].
    split; [reflexivity|]. split; [reflexivity|].
    intros [|k] p; discriminate.
  - cbn [upsert_points_loop]. rewrite bind_run, qcall_run.
    cbv iota beta. rewrite bind_run, qcall_run. cbv iota beta.
    match goal with
    | |- context [upsert_points_loop _ _ _ (points ++ [?p0]) ?log0] =>
      destruct (IH (idx + 1) (points ++ [p0]) log0)
        as [new [calls [Hrun [Hnone [Hlen Hall]]]]];
        exists (p0 :: new), ([QUuid4; QUtcnow] ++ calls)
    end.
    split.
    { rewrite Hrun, <- !app_assoc. reflexivity. }
    split; [rewrite upsert_calls_app, Hnone; reflexivity|].
    split; [cbn [List.length]; rewrite Hlen; reflexivity|].
    intros [|k] p Hk; cbn [nth_error] in Hk.
    + injection Hk as <-. exists doc, emb, meta.
      split; [reflexivity|].
      unfold point_carries. cbn [PointStruct.vector PointStruct.payload].
      split; [reflexivity|]. split; [reflexivity|].
      eexists. split; [reflexivity|].
      rewrite Z.add_0_r.
      split.
      { rewrite !dict_lookup_set_other by discriminate.
        apply dict_lookup_set_same. }
      split.
      { rewrite dict_lookup_set_other by discriminate.
        apply dict_lookup_set_same. }
      split; [eexists; apply dict_lookup_set_same|].
      intros key H1 H2 H3.
      rewrite !dict_lookup_set_other by assumption. reflexivity.
    + destruct (Hall k p Hk) as [d [e [m [Hitem Hcarry]]]].
      exists d, e, m. split; [exact Hitem|].
      replace (idx + Z.of_nat (S k)) with (idx + 1 + Z.of_nat k) by lia.
      exact Hcarry.
Qed.

(** The loop that sends the batches, when it does not fail, has sent
    every batch, in order. *)
Lemma upsert_batches_loop_spec (collection_name : pystr)
    (points : list (PointStruct.t Vector)) (starts : list Z) :
  forall (log log' : QLog),
    upsert_batches_loop collection_name points starts log = (inr tt, log') ->
    log' = log ++ map (fun i => QUpsert collection_name
                                  (slice points i (i + 100))) starts.
Proof.
  induction starts as [|i rest IH]; intros log log' Hrun.
  - cbn in Hrun. injection Hrun as <-. rewrite app_nil_r. reflexivity.
  - cbn [upsert_batches_loop] in Hrun. rewrite bind_run, qcall_run in Hrun.
    destruct (client_upsert log collection_name (slice points i (i + 100)))
      as [e | []]; [discriminate|].
    apply IH in Hrun. rewrite Hrun, <- app_assoc. reflexivity.
Qed.

Lemma upsert_calls_batches (collection_name : pystr)
    (points : list (PointStruct.t Vector)) (starts : list Z) :
  upsert_calls (map (fun i => QUpsert collection_name
                                (slice points i (i + 100))) starts)
  = map (fun i => (collection_name, slice points i (i + 100))) starts.
Proof.
  induction starts as [|i rest IH]; [reflexivity|].
  cbn [map]. change (upsert_calls (?c :: ?l)) with (upsert_calls ([c] ++ l)).
  rewrite upsert_calls_app, IH. reflexivity.
Qed.

Lemma upserted_points_calls (log : QLog) :
  upserted_points log = List.concat (map snd (upsert_calls log)).
Proof.
  unfold upserted_points, upsert_calls.
  induction log as [|c log IH]; [reflexivity|].
  cbn [flat_map]. rewrite map_app, concat_app, <- IH.
  destruct c; cbn; rewrite ?app_nil_r; reflexivity.
Qed.

(** What a successful [upsert_documents] has done. *)
Lemma upsert_documents_inv (collection_name : pystr) (documents : list pystr)
    (embeddings : list Vector) (metadata : list pydict)
    (log log' : QLog) (doc_id : pystr) :
  upsert_documents collection_name documents embeddings metadata log
  = (inr doc_id, log') ->
  len documents = len embeddings /\ len embeddings = len metadata
  /\ doc_id = uuid4 log
  /\ exists (points : list (PointStruct.t Vector)) (calls : QLog),
       log' = log ++ calls
       /\ upsert_calls calls
          = map (fun i => (collection_name, slice points i (i + 100)))
              (range_step (len points) 100)
       /\ List.length points = List.length documents
       /\ forall (k : nat) (p : PointStruct.t Vector),
            nth_error points k = Some p ->
            exists doc emb meta,
              nth_error (combine (combine documents embeddings) metadata) k
              = Some (doc, emb, meta)
              /\ point_carries doc_id (Z.of_nat k) doc emb meta p.
Proof.
  unfold upsert_documents, try_except.
  destruct ((len documents =? len embeddings)
            && (len embeddings =? len metadata)) eqn:Hlens; cbn [negb];
    [|unfold raise; discriminate].
  apply andb_prop in Hlens. destruct Hlens as [H1 H2].
  apply Z.eqb_eq in H1. apply Z.eqb_eq in H2.
  rewrite bind_run, qcall_run. cbv iota beta. rewrite bind_run.
  destruct (upsert_points_loop_spec (uuid4 log)
              (combine (combine documents embeddings) metadata) 0 []
              (log ++ [QUuid4]))
    as [points [pcalls [Hrun [Hnone [Hlen Hall]]]]].
  rewrite Hrun. cbn [app]. cbv iota beta. rewrite bind_run.
  destruct (upsert_batches_loop collection_name points
              (range_step (len points) 100) ((log ++ [QUuid4]) ++ pcalls))
    as [[e | []] log1] eqn:Hbatches; [unfold raise; discriminate|].
  unfold ret. intros E. injection E as <- <-.
  split; [exact H1|]. split; [exact H2|]. split; [reflexivity|].
  apply upsert_batches_loop_spec in Hbatches.
  exists points. eexists. split.
  { rewrite Hbatches, <- !app_assoc. reflexivity. }
  split.
  { rewrite !upsert_calls_app, Hnone, upsert_calls_batches. reflexivity. }
  split.
  { rewrite Hlen, !length_combine. unfold len in *. lia. }
  intros k p Hk. destruct (Hall k p Hk) as [d [e [m [Hitem Hcarry]]]].
  exists d, e, m. split; [exact Hitem|]. exact Hcarry.
Qed.

(** X10.  [upsert_documents] checks the three lengths first: when they
    differ it raises [ValueError] and has called neither the client nor
    [uuid4]; when it returns, they are equal. *)
Theorem upsert_documents_checks_lengths (collection_name : pystr)
    (documents : list pystr) (embeddings : list Vector)
    (metadata : list pydict) (log : QLog) :
  (len documents <> len embeddings \/ len embeddings <> len metadata ->
   upsert_documents collection_name documents embeddings metadata log
   = (inl ValueError, log))
  /\ (forall doc_id log',
        upsert_documents collection_name documents embeddings metadata log
        = (inr doc_id, log') ->
        len documents = len embeddings /\ len embeddings = len metadata).
Proof.
  split.
  - intros Hdiff. unfold upsert_documents, try_except.
    assert (Hlens : (len documents =? len embeddings)
                    && (len embeddings =? len metadata) = false).
    { apply andb_false_iff.
      destruct Hdiff as [Hd | Hd]; [left | right]; apply Z.eqb_neq; exact Hd. }
    rewrite Hlens. reflexivity.
  - intros doc_id log' Hrun. apply upsert_documents_inv in Hrun.
    destruct Hrun as [H1 [H2 _]]. auto.
Qed.

(** X11.  When [upsert_documents] returns, the points it has sent are,
    in order, one per document: point [i] has the vector [i] and the text
    [i], and its metadata is the metadata [i] of the caller with
    [document_id] set to the identifier returned, [chunk_index] set to
    [i] and a [timestamp] added, whatever the caller had under these
    three keys; every other key is kept. *)
Theorem upsert_documents_points (collection_name : pystr)
    (documents : list pystr) (embeddings : list Vector)
    (metadata : list pydict) (log log' : QLog) (doc_id : pystr) :
  upsert_documents collection_name documents embeddings metadata log
  = (inr doc_id, log') ->
  exists calls : QLog,
    log' = log ++ calls
    /\ List.length (upserted_points calls) = List.length documents
    /\ forall (i : nat) (p : PointStruct.t Vector),
         nth_error (upserted_points calls) i = Some p ->
         exists doc emb meta,
           nth_error documents i = Some doc
           /\ nth_error embeddings i = Some emb
           /\ nth_error metadata i = Some meta
           /\ point_carries doc_id (Z.of_nat i) doc emb meta p.
Proof.
  intros Hrun. apply upsert_documents_inv in Hrun.
  destruct Hrun as [_ [_ [_ [points [calls [Hlog [Hcalls [Hlen Hall]]]]]]]].
  exists calls. split; [exact Hlog|].
  assert (Hpts : upserted_points calls = points).
  { rewrite upserted_points_calls, Hcalls, map_map. cbn [snd].
    apply (batches_partition points 100). lia. }
  rewrite Hpts. split; [exact Hlen|].
  intros i p Hi. destruct (Hall i p Hi) as [d [e [m [Hitem Hcarry]]]].
  exists d, e, m.
  assert (Hsplit : nth_error documents i = Some d
                   /\ nth_error embeddings i = Some e
                   /\ nth_error metadata i = Some m).
  { clear - Hitem. revert documents embeddings metadata Hitem.
    induction i as [|i IH]; intros [|d0 ds] [|e0 es] [|m0 ms] Hitem;
      cbn in Hitem; try discriminate.
    - injection Hitem as <- <- <-. auto.
    - apply IH in Hitem. exact Hitem. }
  destruct Hsplit as [Hd [He Hm]]. auto.
Qed.

(** X12.  When [upsert_documents] returns, it has sent the points to the
    given collection in [ceil(n / 100)] calls, none empty and none with
    more than 100 points; with no document it sends nothing. *)
Theorem upsert_documents_batches (collection_name : pystr)
    (documents : list pystr) (embeddings : list Vector)
    (metadata : list pydict) (log log' : QLog) (doc_id : pystr) :
  upsert_documents collection_name documents embeddings metadata log
  = (inr doc_id, log') ->
  exists calls : QLog,
    log' = log ++ calls
    /\ Forall (fun call => fst call = collection_name
                           /\ 1 <= len (snd call) <= 100)
         (upsert_calls calls)
    /\ len (upsert_calls calls) = (len documents + 99) / 100
    /\ (documents = [] -> upsert_calls calls = []).
Proof.
  intros Hrun. apply upsert_documents_inv in Hrun.
  destruct Hrun as [_ [_ [_ [points [calls [Hlog [Hcalls [Hlen Hall]]]]]]]].
  exists calls. split; [exact Hlog|].
  destruct (batches_partition points 100 ltac:(lia)) as [_ [Hsizes Hcount]].
  rewrite Hcalls.
  assert (Hlenz : len points = len documents) by (unfold len; lia).
  split; [|split].
  - apply Forall_forall. intros call Hin.
    apply in_map_iff in Hin. destruct Hin as [i [<- Hi]]. cbn [fst snd].
    split; [reflexivity|].
    rewrite Forall_forall in Hsizes. apply Hsizes.
    apply in_map_iff. exists i. split; [reflexivity | exact Hi].
  - unfold len at 1. rewrite length_map. fold (len (range_step (len points) 100)).
    rewrite Hcount, Hlenz. f_equal. lia.
  - intros ->. destruct points; [reflexivity | discriminate].
Qed.

(** X13.  [delete_document] and [health_check] never raise: each makes
    one call to the client and returns [True] if the call returns and
    [False] if it raises. *)
Theorem delete_document_never_raises (collection_name document_id : pystr)
    (log : QLog) :
  delete_document collection_name document_id log
  = (inr match client_delete log collection_name (lit "document_id")
                 document_id with
         | inl _ => false
         | inr _ => true
         end,
     log ++ [QDelete collection_name (lit "document_id") document_id])
  /\ health_check log
     = (inr match client_get_collections log with
            | inl _ => false
            | inr _ => true
            end,
        log ++ [QGetCollections]).
Proof.
  split.
  - unfold delete_document, try_except. rewrite bind_run, qcall_run.
    destruct (client_delete log collection_name (lit "document_id") document_id);
      reflexivity.
  - unfold health_check, try_except. rewrite bind_run, qcall_run.
    destruct (client_get_collections log); reflexivity.
Qed.

(** X14.  When [init_collection] returns, it has listed the collections
    once; it has deleted the collection only if [recreate] was set and
    the collection existed, and has created it exactly when it did not
    exist or was deleted.  An existing collection is left alone when
    [recreate] is not set. *)
Theorem init_collection_calls (collection_name : pystr) (vector_size : Z)
    (distance : Distance) (recreate : bool) (log log' : QLog) :
  init_collection collection_name vector_size distance recreate log
  = (inr tt, log') ->
  exists collections : list pystr,
    client_get_collections log = inr collections
    /\ let present :=
         existsb (fun name => str_eqb name collection_name) collections in
       log' = log ++ [QGetCollections]
              ++ (if recreate && present
                  then [QDeleteCollection collection_name] else [])
              ++ (if recreate || negb present
                  then [QCreateCollection collection_name vector_size distance]
                  else []).
Proof.
  unfold init_collection, try_except. rewrite bind_run, qcall_run.
  destruct (client_get_collections log) as [e | collections];
    [unfold raise; discriminate|].
  intros Hrun. exists collections. split; [reflexivity|]. cbn zeta.
  rewrite bind_run in Hrun.
  destruct (existsb (fun name => str_eqb name collection_name) collections);
    destruct recreate; cbn [andb orb negb] in *.
  - rewrite bind_run, qcall_run in Hrun.
    destruct (client_delete_collection (log ++ [QGetCollections]) collection_name)
      as [e | []]; [unfold raise in Hrun; discriminate|].
    unfold ret in Hrun. cbn [negb] in Hrun. rewrite qcall_run in Hrun.
    destruct (client_create_collection _ collection_name vector_size distance)
      as [e | []]; [unfold raise in Hrun; discriminate|].
    injection Hrun as <-. rewrite <- !app_assoc. reflexivity.
  - unfold ret in Hrun. cbn [negb] in Hrun. injection Hrun as <-.
    rewrite app_nil_r. reflexivity.
  - unfold ret in Hrun. cbn [negb] in Hrun. rewrite qcall_run in Hrun.
    destruct (client_create_collection _ collection_name vector_size distance)
      as [e | []]; [unfold raise in Hrun; discriminate|].
    injection Hrun as <-. rewrite <- ?app_assoc. reflexivity.
  - unfold ret in Hrun. cbn [negb] in Hrun. rewrite qcall_run in Hrun.
    destruct (client_create_collection _ collection_name vector_size distance)
      as [e | []]; [unfold raise in Hrun; discriminate|].
    injection Hrun as <-. rewrite <- ?app_assoc. reflexivity.
Qed.

End QdrantFacts.

(** X11 on two chunks: the second point has [chunk_index] 1, not the 7
    of the caller, and keeps the file name. *)
Lemma upsert_documents_points_witness :
  exists (doc_id : pystr) (log' : @QLog demo_qdrant) (p : PointStruct.t (list Z)),
    @upsert_documents demo_qdrant (lit "docs") demo_documents demo_embeddings
      demo_metadata [] = (inr doc_id, log')
    /\ doc_id = lit "id-0"
    /\ nth_error (upserted_points log') 1 = Some p
    /\ point_carries doc_id 1 (lit "second chunk") [3; 4]
         [(lit "chunk_index", VInt 7); (lit "filename", VStr (lit "a.txt"))] p.
Proof.
  eexists. eexists. eexists.
  split; [vm_compute; reflexivity|]. split; [reflexivity|].
  split; [vm_compute; reflexivity|].
  destruct (@upsert_documents_points demo_qdrant (lit "docs") demo_documents
              demo_embeddings demo_metadata [] _ _ eq_refl)
    as [calls [Hlog [_ Hall]]].
  cbn [app] in Hlog. subst calls.
  destruct (Hall 1%nat _ eq_refl) as [doc [emb [meta [Hd [He [Hm Hcarry]]]]]].
  cbn in Hd, He, Hm. injection Hd as <-. injection He as <-. injection Hm as <-.
  exact Hcarry.
Defined.

(** X12 on two chunks: one call with both points. *)
Lemma upsert_documents_batches_witness :
  exists (doc_id : pystr) (log' : @QLog demo_qdrant),
    @upsert_documents demo_qdrant (lit "docs") demo_documents demo_embeddings
      demo_metadata [] = (inr doc_id, log')
    /\ len (upsert_calls log') = 1
    /\ Forall (fun call => fst call = lit "docs" /\ 1 <= len (snd call) <= 100)
         (upsert_calls log').
Proof.
  eexists. eexists.
  split; [vm_compute; reflexivity|]. split; [reflexivity|].
  destruct (@upsert_documents_batches demo_qdrant (lit "docs") demo_documents
              demo_embeddings demo_metadata [] _ _ eq_refl)
    as [calls [Hlog [Hall _]]].
  cbn [app] in Hlog. subst calls. exact Hall.
Defined.

(** X14 on the existing collection: without [recreate] it is only
    listed, with [recreate] it is deleted and created again. *)
Lemma init_collection_calls_witness :
  @init_collection demo_qdrant (lit "docs") 1536 COSINE false []
  = (inr tt, [QGetCollections])
  /\ @init_collection demo_qdrant (lit "docs") 1536 COSINE true []
     = (inr tt, [QGetCollections; QDeleteCollection (lit "docs");
                 QCreateCollection (lit "docs") 1536 COSINE]).
Proof.
  destruct (@init_collection_calls demo_qdrant (lit "docs") 1536 COSINE false
              [] _ eq_refl) as [c1 [Hc1 Hlog1]].
  destruct (@init_collection_calls demo_qdrant (lit "docs") 1536 COSINE true
              [] _ eq_refl) as [c2 [Hc2 Hlog2]].
  split; reflexivity.
Defined.

(** ** The embedder *)

Section EmbedderFacts.
Context `{OpenAI}.

Lemma ecall_run {A : Type} (c : ECall) (answer : list ECall -> result A)
    (log : list ECall) :
  ecall c answer log = (answer log, log ++ [c]).
Proof. reflexivity. Qed.

(** The turns of the loop of [embed] that are followed by another one:
    each sends its batch and pauses. *)
Lemma embed_loop_inner (texts : list pystr) (inner : list Z) :
  forall (rest : list Z) (all_embeddings embs : list Embedding)
         (log log' : list ECall),
    Forall (fun i => (i + 100 <? len texts) = true) inner ->
    embed_loop texts (inner ++ rest) all_embeddings log = (inr embs, log') ->
    exists answers : list (list Embedding),
      List.length answers = List.length inner
      /\ (forall (k : nat) (i : Z) (answer : list Embedding),
            nth_error inner k = Some i ->
            nth_error answers k = Some answer ->
            embeddings_create
              (log ++ paused_requests
                        (map (fun i => slice texts i (i + 100)) (firstn k inner)))
              (slice texts i (i + 100)) embedder_model
            = inr answer)
      /\ embed_loop texts rest (all_embeddings ++ List.concat answers)
           (log ++ paused_requests (map (fun i => slice texts i (i + 100)) inner))
         = (inr embs, log').
Proof.
  induction inner as [|i inner IH]; intros rest acc embs log log' Hall Hrun.
  - exists []. split; [reflexivity|]. split.
    + intros k i answer Hk. destruct k; discriminate.
    + cbn [List.concat map paused_requests flat_map]. rewrite !app_nil_r.
      exact Hrun.
  - inversion Hall as [|? ? Hi Hinner]; subst.
    cbn [app embed_loop] in Hrun. rewrite bind_run, ecall_run in Hrun.
    destruct (embeddings_create log (slice texts i (i + 100)) embedder_model)
      as [e | answer] eqn:Hanswer; [discriminate|].
    rewrite bind_run, Hi, ecall_run in Hrun.
    destruct (IH _ _ _ _ _ Hinner Hrun) as [answers [Hlen [Htie Hrest]]].
    exists (answer :: answers). split; [cbn [List.length]; lia|]. split.
    + intros k i' answer' Hk Ha. destruct k as [|k].
      * cbn in Hk, Ha. injection Hk as <-. injection Ha as <-.
        cbn [firstn map paused_requests flat_map]. rewrite app_nil_r.
        exact Hanswer.
      * cbn [nth_error] in Hk, Ha.
        specialize (Htie k i' answer' Hk Ha).
        cbn [firstn map]. unfold paused_requests in *. cbn [flat_map app].
        rewrite <- !app_assoc in Htie. cbn [app] in Htie. exact Htie.
    + cbn [List.concat map]. unfold paused_requests in *. cbn [flat_map app].
      rewrite <- !app_assoc in Hrest. cbn [app] in Hrest. exact Hrest.
Qed.

(** The starts [range(0, n, 100)] for [n > 0]: those followed by another
    batch, and the last. *)
Lemma range_step_last (n : Z) :
  0 < n ->
  exists k : nat,
    Z.of_nat (S k) = (n + 99) / 100
    /\ range_step n 100
       = map (fun j : nat => 100 * Z.of_nat j) (seq 0 k) ++ [100 * Z.of_nat k]
    /\ 100 * Z.of_nat k < n <= 100 * Z.of_nat k + 100.
Proof.
  intros Hn. unfold range_step.
  pose proof (range_step_bounds n 100 ltac:(lia) ltac:(lia)) as Hk.
  cbn zeta in Hk. destruct Hk as [Hk0 [Hcover Hlast]].
  replace (n + 100 - 1) with (n + 99) in * by lia.
  destruct (Z.to_nat ((n + 99) / 100)) as [|k] eqn:Ek; [lia|].
  exists k. split; [lia|]. split.
  - rewrite seq_S, map_app. reflexivity.
  - lia.
Qed.

(** X15.  [embed] on the empty list returns the empty list without a
    request.  When it returns on other texts, it has cut them, in order,
    into batches of exactly 100 texts and a last batch of 1 to 100,
    [ceil(n / 100)] in all, and its log is one request per batch for the
    model [text-embedding-3-small], each request but the last followed at
    once by a pause of 0.1 s.  The embeddings returned are the answers to
    these requests, concatenated in the order of the requests, each
    answer being what the service gave for its batch after the requests
    and pauses before it; the number of embeddings in an answer is not
    compared with the number of texts in its batch. *)
Theorem embed_batches (texts : list pystr) (log : list ECall) :
  embed [] log = (inr [], log)
  /\ forall (embs : list Embedding) (log' : list ECall),
       texts <> [] ->
       embed texts log = (inr embs, log') ->
       exists (full : list (list pystr)) (last : list pystr)
              (answers : list (list Embedding)) (last_answer : list Embedding),
         texts = List.concat full ++ last
         /\ Forall (fun batch : list pystr => len batch = 100) full
         /\ 1 <= len last <= 100
         /\ len full + 1 = (len texts + 99) / 100
         /\ log' = log ++ paused_requests full ++ [ECreate last embedder_model]
         /\ List.length answers = List.length full
         /\ (forall (k : nat) (batch : list pystr) (answer : list Embedding),
               nth_error full k = Some batch ->
               nth_error answers k = Some answer ->
               embeddings_create (log ++ paused_requests (firstn k full))
                 batch embedder_model
               = inr answer)
         /\ embeddings_create (log ++ paused_requests full) last embedder_model
            = inr last_answer
         /\ embs = List.concat answers ++ last_answer.
Proof.
  split; [reflexivity|].
  intros embs log' Hne Hrun. unfold embed, try_except in Hrun.
  assert (Hpos : 0 < len texts).
  { pose proof (len_nonneg texts).
    destruct (Z.eq_dec (len texts) 0) as [E | E]; [|lia].
    apply len_nil_iff in E. contradiction. }
  destruct (len texts =? 0) eqn:Hempty; [apply Z.eqb_eq in Hempty; lia|].
  destruct (embed_loop texts (range_step (len texts) 100) [] log)
    as [[e | embs'] log1] eqn:Hloop; [unfold raise in Hrun; discriminate|].
  injection Hrun as <- <-.
  destruct (range_step_last (len texts) Hpos) as [k [Hcount [Hstarts [Hlo Hhi]]]].
  destruct (batches_partition texts 100 ltac:(lia)) as [Hcat [Hsizes _]].
  rewrite Hstarts in Hloop, Hcat, Hsizes.
  set (inner := map (fun j : nat => 100 * Z.of_nat j) (seq 0 k)) in *.
  assert (Hinner : Forall (fun i => 0 <= i /\ i + 100 <= 100 * Z.of_nat k) inner).
  { apply Forall_forall. intros i Hi. apply in_map_iff in Hi.
    destruct Hi as [j [<- Hj]]. apply in_seq in Hj. lia. }
  assert (Hmore : Forall (fun i => (i + 100 <? len texts) = true) inner).
  { eapply Forall_impl; [|exact Hinner]. intros i [_ Hi].
    apply Z.ltb_lt. lia. }
  destruct (embed_loop_inner texts inner _ _ _ _ _ Hmore Hloop)
    as [answers [Hlen [Htie Hlast]]].
  cbn [embed_loop app] in Hlast. rewrite bind_run, ecall_run in Hlast.
  destruct (embeddings_create
              (log ++ paused_requests
                        (map (fun i => slice texts i (i + 100)) inner))
              (slice texts (100 * Z.of_nat k) (100 * Z.of_nat k + 100))
              embedder_model)
    as [e | last_answer] eqn:Hanswer; [discriminate|].
  assert (Hstop : (100 * Z.of_nat k + 100 <? len texts) = false)
    by (apply Z.ltb_ge; lia).
  rewrite bind_run, Hstop in Hlast. unfold ret in Hlast.
  injection Hlast as <- <-.
  rewrite map_app, concat_app in Hcat. cbn [map List.concat] in Hcat.
  rewrite app_nil_r in Hcat.
  rewrite map_app in Hsizes. apply Forall_app in Hsizes.
  destruct Hsizes as [_ Hsize_last]. cbn [map] in Hsize_last.
  inversion Hsize_last as [|? ? Hlast_len _]; subst.
  exists (map (fun i => slice texts i (i + 100)) inner),
         (slice texts (100 * Z.of_nat k) (100 * Z.of_nat k + 100)),
         answers, last_answer.
  split; [symmetry; exact Hcat|]. split.
  { apply Forall_map. eapply Forall_impl; [|exact Hinner]. intros i [Hi0 Hi].
    rewrite slice_batch by lia. unfold len in *.
    rewrite length_firstn, length_skipn. lia. }
  split; [exact Hlast_len|]. split.
  { unfold len at 1. rewrite length_map. unfold inner.
    rewrite length_map, length_seq. lia. }
  split; [rewrite <- app_assoc; reflexivity|].
  split; [rewrite Hlen, length_map; reflexivity|]. split.
  { intros j batch answer Hj Ha. rewrite nth_error_map in Hj.
    destruct (nth_error inner j) as [i|] eqn:Hi; [|discriminate].
    cbn [option_map] in Hj. injection Hj as <-.
    rewrite firstn_map. exact (Htie j i answer Hi Ha). }
  split; [exact Hanswer | reflexivity].
Qed.

End EmbedderFacts.

(** X15 on three texts: one request, no pause, three embeddings. *)
Lemma embed_batches_witness :
  exists (embs : list Z) (log' : list ECall),
    @embed demo_openai [lit "a"; lit "bc"; lit "def"] [] = (inr embs, log')
    /\ embs = [1; 2; 3]
    /\ exists full : list (list pystr),
         log' = paused_requests full
                ++ [ECreate [lit "a"; lit "bc"; lit "def"] embedder_model].
Proof.
  eexists. eexists. split; [vm_compute; reflexivity|].
  split; [reflexivity|].
  destruct (proj2 (@embed_batches demo_openai [lit "a"; lit "bc"; lit "def"] [])
              _ _ ltac:(discriminate) eq_refl)
    as [full [last [_ [_ [Hcat [Hfull [_ [Hcount [Hlog _]]]]]]]]].
  destruct full as [|batch full].
  - exists []. cbn [app List.concat] in Hcat. subst last. exact Hlog.
  - exfalso. unfold len in Hcount. cbn [List.length] in Hcount.
    vm_compute ((Z.of_nat 3 + 99) / 100) in Hcount. lia.
Defined.

(** ** The endpoints of main.py *)

Lemma truthy_str_Some (s : option pystr) :
  truthy_str s = true -> exists v : pystr, s = Some v /\ 0 < len v.
Proof.
  destruct s as [v|]; cbn [truthy_str]; [|discriminate]. intros Hv.
  exists v. split; [reflexivity|].
  apply negb_true_iff, Z.eqb_neq in Hv. pose proof (len_nonneg v). lia.
Qed.

(** [not s or not s.strip()] is the test that [s.strip()] is empty. *)
Lemma blank_test (s : pystr) :
  (len s =? 0) || (len (strip s) =? 0) = (len (strip s) =? 0).
Proof.
  destruct (len s =? 0) eqn:E; [|reflexivity].
  apply Z.eqb_eq, len_nil_iff in E. subst s. reflexivity.
Qed.

Ltac api_step :=
  unfold api_try, api_bind, api_raise, api_ret, await, api_lift.

Section EndpointFacts.

Variables (W Vec : Type).
Variable MAX_FILE_SIZE_MB : Z.
Variable COLLECTION_NAME : pystr.
Variable service_extract_text : bytes -> option pystr -> option pystr -> M W pystr.
Variable service_process_document :
  bytes -> option pystr -> option pystr -> option pystr -> M W (ProcessResult.t Vec).
Variable service_process_textbook_document :
  bytes -> option pystr -> option pystr -> pystr -> pystr -> option pystr ->
  option pystr -> M W (ProcessResult.t Vec).
Variable qdrant_upsert_documents :
  pystr -> list pystr -> list Vec -> list pydict -> M W pystr.
Variable exc_str : ApiExc -> pystr.
Variable size_detail : Z -> pystr.

(** X16.  The endpoint [POST /extract] answers a file without a name
    with status 400 before it reads anything; whatever the file and the
    extraction service do, an error it raises is an [HTTPException] with
    status 400 or 500; and a response it returns carries the text of the
    extraction service unchanged, which has a character that is not
    white space, with [char_count] its length, the name and the content
    type of the file (so a file without content type gets no response),
    and a file within the size limit. *)
Theorem extract_endpoint_outcomes (file : UploadFile.t W) (w : W) :
  (truthy_str (UploadFile.filename file) = false ->
   Main.extract_text W MAX_FILE_SIZE_MB service_extract_text exc_str
     size_detail file w
   = (inl (HTTPException 400 (lit "Invalid file")), w))
  /\ (forall (e : ApiExc) (w' : W),
        Main.extract_text W MAX_FILE_SIZE_MB service_extract_text exc_str
          size_detail file w = (inl e, w') ->
        exists (status_code : Z) (detail : pystr),
          e = HTTPException status_code detail
          /\ (status_code = 400 \/ status_code = 500))
  /\ (forall (resp : ExtractResponse.t) (w' : W),
        Main.extract_text W MAX_FILE_SIZE_MB service_extract_text exc_str
          size_detail file w = (inr resp, w') ->
        exists (content : bytes) (w1 : W),
          UploadFile.read file w = (inr content, w1)
          /\ len content <= MAX_FILE_SIZE_MB * (1024 * 1024)
          /\ service_extract_text content (UploadFile.filename file)
               (UploadFile.content_type file) w1
             = (inr (ExtractResponse.text resp), w')
          /\ 0 < len (strip (ExtractResponse.text resp))
          /\ ExtractResponse.char_count resp = len (ExtractResponse.text resp)
          /\ UploadFile.filename file = Some (ExtractResponse.filename resp)
          /\ UploadFile.content_type file = Some (ExtractResponse.file_type resp)
          /\ ExtractResponse.status resp = lit "success").
Proof.
  unfold Main.extract_text. api_step.
  destruct (truthy_str (UploadFile.filename file)) eqn:Hname; cbn [negb].
  2:{ split; [reflexivity|]. split.
      - intros e w' Hrun. injection Hrun as <- <-. eauto.
      - intros resp w' Hrun. discriminate. }
  split; [discriminate|].
  destruct (UploadFile.read file w) as [[e0 | content] w1] eqn:Hread.
  { split.
    - intros e w' Hrun. injection Hrun as <- <-. eauto.
    - intros resp w' Hrun. discriminate. }
  destruct (len content >? MAX_FILE_SIZE_MB * (1024 * 1024)) eqn:Hsize.
  { split.
    - intros e w' Hrun. injection Hrun as <- <-. eauto.
    - intros resp w' Hrun. discriminate. }
  destruct (service_extract_text content (UploadFile.filename file)
              (UploadFile.content_type file) w1)
    as [[e1 | text] w2] eqn:Hext.
  { split.
    - intros e w' Hrun. injection Hrun as <- <-. eauto.
    - intros resp w' Hrun. discriminate. }
  rewrite blank_test.
  destruct (len (strip text) =? 0) eqn:Hblank.
  { split.
    - intros e w' Hrun. injection Hrun as <- <-. eauto.
    - intros resp w' Hrun. discriminate. }
  unfold Main.new_extract_response, required_str.
  destruct (UploadFile.filename file) as [name|] eqn:Hfn.
  2:{ split.
      - intros e w' Hrun. injection Hrun as <- <-. eauto.
      - intros resp w' Hrun. discriminate. }
  destruct (UploadFile.content_type file) as [ftype|] eqn:Hct.
  2:{ split.
      - intros e w' Hrun. injection Hrun as <- <-. eauto.
      - intros resp w' Hrun. discriminate. }
  split; [intros e w' Hrun; discriminate|].
  intros resp w' Hrun. injection Hrun as <- <-.
  exists content, w1.
  cbn [ExtractResponse.text ExtractResponse.char_count ExtractResponse.filename
       ExtractResponse.file_type ExtractResponse.status].
  apply Z.eqb_neq in Hblank. pose proof (len_nonneg (strip text)) as Hnn.
  assert (Hle : len content <= MAX_FILE_SIZE_MB * (1024 * 1024)).
  { destruct (Z.gtb_spec (len content) (MAX_FILE_SIZE_MB * (1024 * 1024)));
      [discriminate | assumption]. }
  assert (Hpos : 0 < len (strip text)) by (unfold pystr in *; lia).
  repeat split; auto.
Qed.

(** The three ways [upload_document] ends. *)
Lemma upload_document_run (file : UploadFile.t W) (metadata : option pystr)
    (w : W) :
  (truthy_str (UploadFile.filename file) = false
   /\ Main.upload_document W Vec COLLECTION_NAME service_process_document
        qdrant_upsert_documents exc_str file metadata w
      = (inl (HTTPException 500
                (exc_str (HTTPException 400 (lit "Invalid file")))), w))
  \/ (truthy_str (UploadFile.filename file) = true
      /\ exists (e : PyExc) (w' : W),
           Main.upload_document W Vec COLLECTION_NAME service_process_document
             qdrant_upsert_documents exc_str file metadata w
           = (inl (HTTPException 500 (exc_str (ServiceError e))), w'))
  \/ (exists (content : bytes) (result : ProcessResult.t Vec) (doc_id : pystr)
             (name : pystr) (w1 w2 w' : W),
        UploadFile.read file w = (inr content, w1)
        /\ service_process_document content (UploadFile.filename file)
             (UploadFile.content_type file) metadata w1 = (inr result, w2)
        /\ qdrant_upsert_documents COLLECTION_NAME (ProcessResult.chunks result)
             (ProcessResult.embeddings result) (ProcessResult.metadata result)
             w2 = (inr doc_id, w')
        /\ UploadFile.filename file = Some name
        /\ 0 < len name
        /\ Main.upload_document W Vec COLLECTION_NAME service_process_document
             qdrant_upsert_documents exc_str file metadata w
           = (inr (DocumentResponse.mk doc_id name
                     (len (ProcessResult.chunks result)) (lit "success")
                     (lit "Document processed and indexed successfully")),
              w')).
Proof.
  unfold Main.upload_document. api_step.
  destruct (truthy_str (UploadFile.filename file)) eqn:Hname; cbn [negb];
    [|left; split; reflexivity].
  right.
  destruct (UploadFile.read file w) as [[e0 | content] w1] eqn:Hread;
    [left; split; [reflexivity|]; eauto|].
  destruct (service_process_document content (UploadFile.filename file)
              (UploadFile.content_type file) metadata w1)
    as [[e1 | result] w2] eqn:Hproc;
    [left; split; [reflexivity|]; eauto|].
  destruct (qdrant_upsert_documents COLLECTION_NAME (ProcessResult.chunks result)
              (ProcessResult.embeddings result) (ProcessResult.metadata result)
              w2)
    as [[e2 | doc_id] w3] eqn:Hup;
    [left; split; [reflexivity|]; eauto|].
  right. destruct (truthy_str_Some _ Hname) as [name [Hfn Hpos]].
  exists content, result, doc_id, name, w1, w2, w3.
  rewrite Hfn in *. unfold Main.new_document_response, required_str.
  repeat split; auto.
Qed.

(** X17.  The endpoint [POST /upload-document] raises nothing but an
    [HTTPException] with status 500: the status 400 it raises for a file
    without a name is caught by its own [except Exception] and sent as
    500, with the text of the 400 as detail.  A response it returns has
    the identifier that [upsert_documents] returned, the name of the
    file and the number of chunks of the processing step, which ran on
    the bytes read from the file. *)
Theorem upload_endpoint_outcomes (file : UploadFile.t W)
    (metadata : option pystr) (w : W) :
  (truthy_str (UploadFile.filename file) = false ->
   Main.upload_document W Vec COLLECTION_NAME service_process_document
     qdrant_upsert_documents exc_str file metadata w
   = (inl (HTTPException 500
             (exc_str (HTTPException 400 (lit "Invalid file")))), w))
  /\ (forall (e : ApiExc) (w' : W),
        Main.upload_document W Vec COLLECTION_NAME service_process_document
          qdrant_upsert_documents exc_str file metadata w = (inl e, w') ->
        exists detail : pystr, e = HTTPException 500 detail)
  /\ (forall (resp : DocumentResponse.t) (w' : W),
        Main.upload_document W Vec COLLECTION_NAME service_process_document
          qdrant_upsert_documents exc_str file metadata w = (inr resp, w') ->
        exists (content : bytes) (result : ProcessResult.t Vec) (w1 w2 : W),
          UploadFile.read file w = (inr content, w1)
          /\ service_process_document content (UploadFile.filename file)
               (UploadFile.content_type file) metadata w1 = (inr result, w2)
          /\ qdrant_upsert_documents COLLECTION_NAME
               (ProcessResult.chunks result) (ProcessResult.embeddings result)
               (ProcessResult.metadata result) w2
             = (inr (DocumentResponse.document_id resp), w')
          /\ DocumentResponse.chunks_count resp
             = len (ProcessResult.chunks result)
          /\ UploadFile.filename file = Some (DocumentResponse.filename resp)
          /\ DocumentResponse.status resp = lit "success").
Proof.
  destruct (upload_document_run file metadata w)
    as [[Hname Hrun] | [[Hname [e0 [w0 Hrun]]]
                       | [content [result [doc_id [name [w1 [w2 [w3
                           [Hread [Hproc [Hup [Hfn [Hpos Hrun]]]]]]]]]]]]]];
    rewrite Hrun.
  - split; [reflexivity|]. split.
    + intros e w' Heq. injection Heq as <- <-. eauto.
    + intros resp w' Heq. discriminate.
  - split; [rewrite Hname; discriminate|]. split.
    + intros e w' Heq. injection Heq as <- <-. eauto.
    + intros resp w' Heq. discriminate.
  - split.
    { rewrite Hfn. cbn [truthy_str]. intros Hf.
      apply negb_false_iff, Z.eqb_eq in Hf. lia. }
    split; [intros e w' Heq; discriminate|].
    intros resp w' Heq. injection Heq as <- <-.
    exists content, result, w1, w2. cbn [DocumentResponse.document_id
      DocumentResponse.chunks_count DocumentResponse.filename
      DocumentResponse.status].
    repeat split; auto.
Qed.

(** One turn of the loop of [upload_batch] on a file that has a name,
    empty or not: a response is appended and the loop goes on. *)
Lemma upload_batch_loop_cons (file : UploadFile.t W)
    (rest : list (UploadFile.t W)) (results : list DocumentResponse.t)
    (w : W) (name : pystr) :
  UploadFile.filename file = Some name ->
  exists (r : DocumentResponse.t) (w1 : W),
    Main.upload_batch_loop W Vec COLLECTION_NAME service_process_document
      qdrant_upsert_documents exc_str (file :: rest) results w
    = Main.upload_batch_loop W Vec COLLECTION_NAME service_process_document
        qdrant_upsert_documents exc_str rest (results ++ [r]) w1
    /\ DocumentResponse.filename r = name
    /\ (DocumentResponse.status r = lit "success"
        \/ (DocumentResponse.status r = lit "failed"
            /\ DocumentResponse.document_id r = lit ""
            /\ DocumentResponse.chunks_count r = 0
            /\ exists detail : pystr,
                 DocumentResponse.message r
                 = exc_str (HTTPException 500 detail))).
Proof.
  intros Hfn. cbn [Main.upload_batch_loop]. api_step.
  destruct (upload_document_run file None w)
    as [[Hname Hrun] | [[Hname [e0 [w0 Hrun]]]
                       | [content [result [doc_id [name' [w1 [w2 [w3
                           [Hread [Hproc [Hup [Hfn' [Hpos Hrun]]]]]]]]]]]]]];
    rewrite Hrun.
  - unfold Main.new_document_response, required_str. rewrite Hfn.
    eexists. exists w. split; [reflexivity|].
    cbn [DocumentResponse.filename DocumentResponse.status
         DocumentResponse.document_id DocumentResponse.chunks_count
         DocumentResponse.message].
    split; [reflexivity|]. right. repeat split. eauto.
  - unfold Main.new_document_response, required_str. rewrite Hfn.
    eexists. exists w0. split; [reflexivity|].
    cbn [DocumentResponse.filename DocumentResponse.status
         DocumentResponse.document_id DocumentResponse.chunks_count
         DocumentResponse.message].
    split; [reflexivity|]. right. repeat split. eauto.
  - eexists. exists w3. split; [reflexivity|].
    cbn [DocumentResponse.filename DocumentResponse.status].
    split; [congruence|]. left. reflexivity.
Qed.

(** One turn of the loop on a file whose name is [None]: the response
    for the failed upload cannot be built, and the loop ends there. *)
Lemma upload_batch_loop_None (file : UploadFile.t W)
    (rest : list (UploadFile.t W)) (results : list DocumentResponse.t) (w : W) :
  UploadFile.filename file = None ->
  Main.upload_batch_loop W Vec COLLECTION_NAME service_process_document
    qdrant_upsert_documents exc_str (file :: rest) results w
  = (inl ValidationError, w).
Proof.
  intros Hfn. cbn [Main.upload_batch_loop]. api_step.
  destruct (upload_document_run file None w)
    as [[Hname Hrun] | [[Hname _]
                       | [content [result [doc_id [name' [w1 [w2 [w3
                           [_ [_ [_ [Hfn' _]]]]]]]]]]]]].
  - rewrite Hrun. unfold Main.new_document_response, required_str.
    rewrite Hfn. reflexivity.
  - rewrite Hfn in Hname. discriminate.
  - congruence.
Qed.

Lemma upload_batch_loop_named (files : list (UploadFile.t W)) :
  forall (results : list DocumentResponse.t) (w : W),
    Forall (fun file => UploadFile.filename file <> None) files ->
    exists (rs : list DocumentResponse.t) (w' : W),
      Main.upload_batch_loop W Vec COLLECTION_NAME service_process_document
        qdrant_upsert_documents exc_str files results w
      = (inr (results ++ rs), w')
      /\ Forall2
           (fun file r =>
              UploadFile.filename file = Some (DocumentResponse.filename r)
              /\ (DocumentResponse.status r = lit "success"
                  \/ (DocumentResponse.status r = lit "failed"
                      /\ DocumentResponse.document_id r = lit ""
                      /\ DocumentResponse.chunks_count r = 0
                      /\ exists detail : pystr,
                           DocumentResponse.message r
                           = exc_str (HTTPException 500 detail))))
           files rs.
Proof.
  induction files as [|file rest IH]; intros results w Hall.
  - exists [], w. rewrite app_nil_r. split; [reflexivity | constructor].
  - inversion Hall as [|f l Hfile Hrest]; subst.
    destruct (UploadFile.filename file) as [name|] eqn:Hfn; [|congruence].
    destruct (upload_batch_loop_cons file rest results w name Hfn)
      as [r [w1 [Hstep [Hname Hkind]]]].
    destruct (IH (results ++ [r]) w1 Hrest) as [rs [w' [Hrun Hrs]]].
    exists (r :: rs), w'. rewrite Hstep, Hrun, <- app_assoc.
    split; [reflexivity|]. constructor; [|exact Hrs].
    split; [congruence | exact Hkind].
Qed.

Lemma upload_batch_loop_unnamed (files : list (UploadFile.t W)) :
  forall (results : list DocumentResponse.t) (w : W),
    Exists (fun file => UploadFile.filename file = None) files ->
    exists w' : W,
      Main.upload_batch_loop W Vec COLLECTION_NAME service_process_document
        qdrant_upsert_documents exc_str files results w
      = (inl ValidationError, w').
Proof.
  induction files as [|file rest IH]; intros results w Hex.
  - inversion Hex.
  - destruct (UploadFile.filename file) as [name|] eqn:Hfn.
    + destruct (upload_batch_loop_cons file rest results w name Hfn)
        as [r [w1 [Hstep _]]].
      rewrite Hstep. apply IH.
      inversion Hex as [f l Hhere | f l Hthere]; subst; [congruence | exact Hthere].
    + exists w. apply upload_batch_loop_None. exact Hfn.
Qed.

(** X18.  The endpoint [POST /upload-batch], when every file has a name
    (the empty name included), never raises, whatever the uploads do: it
    returns one response per file, in the order of the files and with
    the name of each, and the response of a failed upload has the
    status ["failed"], no identifier, no chunk, and as message the text
    of the status-500 exception of [upload_document].  One file whose
    name is [None] makes the whole batch fail: the response for the
    failed upload is refused by the response model inside the [except]
    block, and the responses collected so far are lost. *)
Theorem batch_endpoint_outcomes (files : list (UploadFile.t W)) (w : W) :
  (Forall (fun file => UploadFile.filename file <> None) files ->
   exists (results : list DocumentResponse.t) (w' : W),
     Main.upload_batch W Vec COLLECTION_NAME service_process_document
       qdrant_upsert_documents exc_str files w = (inr results, w')
     /\ Forall2
          (fun file r =>
             UploadFile.filename file = Some (DocumentResponse.filename r)
             /\ (DocumentResponse.status r = lit "success"
                 \/ (DocumentResponse.status r = lit "failed"
                     /\ DocumentResponse.document_id r = lit ""
                     /\ DocumentResponse.chunks_count r = 0
                     /\ exists detail : pystr,
                          DocumentResponse.message r
                          = exc_str (HTTPException 500 detail))))
          files results)
  /\ (Exists (fun file => UploadFile.filename file = None) files ->
      exists w' : W,
        Main.upload_batch W Vec COLLECTION_NAME service_process_document
          qdrant_upsert_documents exc_str files w
        = (inl ValidationError, w')).
Proof.
  unfold Main.upload_batch. split.
  - intros Hall. destruct (upload_batch_loop_named files [] w Hall)
      as [rs [w' [Hrun Hrs]]].
    exists rs, w'. split; [exact Hrun | exact Hrs].
  - apply upload_batch_loop_unnamed.
Qed.

(** X19.  The endpoint [POST /upload-textbook] raises nothing but an
    [HTTPException] with status 500.  A book name or a publisher that is
    empty or white space is refused before the file is read, and the
    status 400 raised for it is sent as 500 with the text of the 400 as
    detail.  A response is returned only for a book name and a publisher
    with a character that is not white space; its message ends with the
    full name of the book when the processing step returned book
    metadata, and with the name of the file otherwise. *)
Theorem textbook_endpoint_outcomes (file : UploadFile.t W)
    (book_name publisher : pystr) (grade product_name : option pystr) (w : W) :
  (forall (e : ApiExc) (w' : W),
     Main.upload_textbook W Vec COLLECTION_NAME
       service_process_textbook_document qdrant_upsert_documents exc_str
       file book_name publisher grade product_name w = (inl e, w') ->
     exists detail : pystr, e = HTTPException 500 detail)
  /\ (truthy_str (UploadFile.filename file) = true ->
      len (strip book_name) = 0 ->
      Main.upload_textbook W Vec COLLECTION_NAME
        service_process_textbook_document qdrant_upsert_documents exc_str
        file book_name publisher grade product_name w
      = (inl (HTTPException 500
                (exc_str (HTTPException 400 (lit "Book name is required")))),
         w))
  /\ (truthy_str (UploadFile.filename file) = true ->
      len (strip book_name) <> 0 ->
      len (strip publisher) = 0 ->
      Main.upload_textbook W Vec COLLECTION_NAME
        service_process_textbook_document qdrant_upsert_documents exc_str
        file book_name publisher grade product_name w
      = (inl (HTTPException 500
                (exc_str (HTTPException 400 (lit "Publisher is required")))),
         w))
  /\ (forall (resp : DocumentResponse.t) (w' : W),
        Main.upload_textbook W Vec COLLECTION_NAME
          service_process_textbook_document qdrant_upsert_documents exc_str
          file book_name publisher grade product_name w = (inr resp, w') ->
        0 < len (strip book_name)
        /\ 0 < len (strip publisher)
        /\ exists (content : bytes) (result : ProcessResult.t Vec) (w1 w2 : W),
             UploadFile.read file w = (inr content, w1)
             /\ service_process_textbook_document content
                  (UploadFile.filename file) (UploadFile.content_type file)
                  book_name publisher grade product_name w1 = (inr result, w2)
             /\ qdrant_upsert_documents COLLECTION_NAME
                  (ProcessResult.chunks result)
                  (ProcessResult.embeddings result)
                  (ProcessResult.metadata result) w2
                = (inr (DocumentResponse.document_id resp), w')
             /\ DocumentResponse.chunks_count resp
                = len (ProcessResult.chunks result)
             /\ UploadFile.filename file
                = Some (DocumentResponse.filename resp)
             /\ DocumentResponse.message resp
                = lit "Textbook processed successfully. Book: "
                  ++ match ProcessResult.book_metadata result with
                     | Some book => TextbookInfo.full_name book
                     | None => DocumentResponse.filename resp
                     end).
Proof.
  unfold Main.upload_textbook. api_step. rewrite !blank_test.
  destruct (truthy_str (UploadFile.filename file)) eqn:Hname; cbn [negb].
  2:{ split; [intros e w' Hrun; injection Hrun as <- <-; eauto|].
      split; [discriminate|]. split; [discriminate|].
      intros resp w' Hrun. discriminate. }
  destruct (len (strip book_name) =? 0) eqn:Hbook.
  { apply Z.eqb_eq in Hbook.
    split; [intros e w' Hrun; injection Hrun as <- <-; eauto|].
    split; [reflexivity|]. split; [intros _ Hne; contradiction|].
    intros resp w' Hrun. discriminate. }
  apply Z.eqb_neq in Hbook.
  destruct (len (strip publisher) =? 0) eqn:Hpub.
  { apply Z.eqb_eq in Hpub.
    split; [intros e w' Hrun; injection Hrun as <- <-; eauto|].
    split; [intros _ Heq; contradiction|]. split; [reflexivity|].
    intros resp w' Hrun. discriminate. }
  apply Z.eqb_neq in Hpub.
  destruct (UploadFile.read file w) as [[e0 | content] w1] eqn:Hread.
  { split; [intros e w' Hrun; injection Hrun as <- <-; eauto|].
    split; [intros _ Heq; contradiction|].
    split; [intros _ _ Heq; contradiction|].
    intros resp w' Hrun. discriminate. }
  destruct (service_process_textbook_document content
              (UploadFile.filename file) (UploadFile.content_type file)
              book_name publisher grade product_name w1)
    as [[e1 | result] w2] eqn:Hproc.
  { split; [intros e w' Hrun; injection Hrun as <- <-; eauto|].
    split; [intros _ Heq; contradiction|].
    split; [intros _ _ Heq; contradiction|].
    intros resp w' Hrun. discriminate. }
  destruct (qdrant_upsert_documents COLLECTION_NAME
              (ProcessResult.chunks result) (ProcessResult.embeddings result)
              (ProcessResult.metadata result) w2)
    as [[e2 | doc_id] w3] eqn:Hup.
  { split; [intros e w' Hrun; injection Hrun as <- <-; eauto|].
    split; [intros _ Heq; contradiction|].
    split; [intros _ _ Heq; contradiction|].
    intros resp w' Hrun. discriminate. }
  destruct (truthy_str_Some _ Hname) as [name [Hfn Hpos]].
  rewrite Hfn. unfold Main.new_document_response, required_str.
  split; [intros e w' Hrun; discriminate|].
  split; [intros _ Heq; contradiction|].
  split; [intros _ _ Heq; contradiction|].
  intros resp w' Hrun. injection Hrun as <- <-.
  pose proof (len_nonneg (strip book_name)).
  pose proof (len_nonneg (strip publisher)).
  split; [unfold pystr in *; lia|]. split; [unfold pystr in *; lia|].
  exists content, result, w1, w2.
  cbn [DocumentResponse.document_id DocumentResponse.chunks_count
       DocumentResponse.filename DocumentResponse.message].
  rewrite <- Hfn. repeat split; auto.
Qed.

(** X20.  The endpoint [GET /document/{document_id}/metadata] answers
    every request with status 500 and touches nothing: the method
    [search_documents] it calls is not defined by [QdrantService], the
    [AttributeError] is not an [HTTPException], and the handler sends its
    text as the detail.  In particular the endpoint returns no metadata
    and never the status 404 of its own code. *)
Theorem metadata_endpoint_always_500 (document_id : pystr) (w : W) :
  Main.get_document_metadata W Vec exc_str document_id w
  = (inl (HTTPException 500 (exc_str (AttributeError (lit "search_documents")))),
     w).
Proof. reflexivity. Qed.

End EndpointFacts.

Section DeleteEndpoint.
Context `{Qdrant}.
Variable COLLECTION_NAME : pystr.
Variable exc_str : ApiExc -> pystr.

(** X21.  The endpoint [DELETE /document/{document_id}] over
    [QdrantService.delete_document]: it makes one call, a deletion by
    the filter [document_id = <id>] in the configured collection.  When
    the client accepts the call the endpoint returns the success
    message, whether or not a point had that identifier; when the client
    raises, the service returns [False], the endpoint raises its status
    404 inside the [try] block, and its own [except Exception] sends it
    as status 500.  The status 404 is never sent. *)
Theorem delete_endpoint_outcomes (document_id : pystr) (log : QLog) :
  Main.delete_document QLog COLLECTION_NAME delete_document exc_str
    document_id log
  = (match client_delete log COLLECTION_NAME (lit "document_id") document_id with
     | inr _ =>
       inr [ (lit "status", VStr (lit "success"));
             (lit "message",
              VStr (lit "Document " ++ document_id ++ lit " deleted")) ]
     | inl _ =>
       inl (HTTPException 500
              (exc_str (HTTPException 404 (lit "Document not found"))))
     end,
     log ++ [QDelete COLLECTION_NAME (lit "document_id") document_id]).
Proof.
  unfold Main.delete_document, delete_document. api_step.
  unfold try_except, bind, qcall, ret.
  destruct (client_delete log COLLECTION_NAME (lit "document_id") document_id)
    as [e | []]; reflexivity.
Qed.

End DeleteEndpoint.

(** X16 on a text file of three bytes: the response counts the three
    characters of the extracted text. *)
Lemma extract_endpoint_outcomes_witness :
  exists (resp : ExtractResponse.t) (log' : @QLog demo_qdrant),
    Main.extract_text (@QLog demo_qdrant) 100 demo_extract_text demo_exc_str
      demo_size_detail (demo_file (Some (lit "a.txt"))) []
    = (inr resp, log')
    /\ ExtractResponse.text resp = lit "abc"
    /\ ExtractResponse.char_count resp = 3
    /\ Main.extract_text (@QLog demo_qdrant) 100 demo_extract_text demo_exc_str
         demo_size_detail (demo_file (Some (lit ""))) []
       = (inl (HTTPException 400 (lit "Invalid file")), []).
Proof.
  eexists. eexists. split; [vm_compute; reflexivity|].
  split; [reflexivity|].
  split.
  - destruct (proj2 (proj2 (extract_endpoint_outcomes (@QLog demo_qdrant) 100
                              demo_extract_text demo_exc_str demo_size_detail
                              (demo_file (Some (lit "a.txt"))) []))
                _ _ eq_refl)
      as [content [w1 [_ [_ [_ [_ [Hcount _]]]]]]].
    exact Hcount.
  - apply (proj1 (extract_endpoint_outcomes (@QLog demo_qdrant) 100
                    demo_extract_text demo_exc_str demo_size_detail
                    (demo_file (Some (lit ""))) [])).
    reflexivity.
Defined.

(** X17 on the same file: two chunks are stored under the identifier of
    the batch; without a name the status is 500, not 400. *)
Lemma upload_endpoint_outcomes_witness :
  exists (resp : DocumentResponse.t) (log' : @QLog demo_qdrant),
    Main.upload_document (@QLog demo_qdrant) (list Z) (lit "docs")
      demo_process_document (@upsert_documents demo_qdrant) demo_exc_str
      (demo_file (Some (lit "a.txt"))) None []
    = (inr resp, log')
    /\ DocumentResponse.document_id resp = lit "id-0"
    /\ DocumentResponse.chunks_count resp = 2
    /\ Main.upload_document (@QLog demo_qdrant) (list Z) (lit "docs")
         demo_process_document (@upsert_documents demo_qdrant) demo_exc_str
         (demo_file None) None []
       = (inl (HTTPException 500 (lit "400: Invalid file")), []).
Proof.
  eexists. eexists. split; [vm_compute; reflexivity|].
  split; [reflexivity|].
  split.
  - destruct (proj2 (proj2 (upload_endpoint_outcomes (@QLog demo_qdrant) (list Z)
                              (lit "docs") demo_process_document
                              (@upsert_documents demo_qdrant) demo_exc_str
                              (demo_file (Some (lit "a.txt"))) None []))
                _ _ eq_refl)
      as [content [result [w1 [w2 [Hread [Hproc [_ [Hcount _]]]]]]]].
    vm_compute in Hproc. injection Hproc as <- <-. exact Hcount.
  - apply (proj1 (upload_endpoint_outcomes (@QLog demo_qdrant) (list Z)
                    (lit "docs") demo_process_document
                    (@upsert_documents demo_qdrant) demo_exc_str
                    (demo_file None) None [])).
    reflexivity.
Defined.

(** X18 on a batch of a named file and a file with the empty name: the
    first upload succeeds, the second is reported as failed. *)
Lemma batch_endpoint_outcomes_witness :
  exists (results : list DocumentResponse.t) (log' : @QLog demo_qdrant),
    Main.upload_batch (@QLog demo_qdrant) (list Z) (lit "docs")
      demo_process_document (@upsert_documents demo_qdrant) demo_exc_str
      [demo_file (Some (lit "a.txt")); demo_file (Some (lit ""))] []
    = (inr results, log')
    /\ map DocumentResponse.status results = [lit "success"; lit "failed"]
    /\ Forall2
         (fun (file : UploadFile.t (@QLog demo_qdrant)) r =>
            UploadFile.filename file = Some (DocumentResponse.filename r))
         [demo_file (Some (lit "a.txt")); demo_file (Some (lit ""))] results
    /\ exists log'' : @QLog demo_qdrant,
         Main.upload_batch (@QLog demo_qdrant) (list Z) (lit "docs")
           demo_process_document (@upsert_documents demo_qdrant) demo_exc_str
           [demo_file (Some (lit "a.txt")); demo_file None] []
         = (inl ValidationError, log'').
Proof.
  eexists. eexists. split; [vm_compute; reflexivity|].
  split; [reflexivity|].
  split.
  - destruct (proj1 (batch_endpoint_outcomes (@QLog demo_qdrant) (list Z)
                       (lit "docs") demo_process_document
                       (@upsert_documents demo_qdrant) demo_exc_str
                       [demo_file (Some (lit "a.txt")); demo_file (Some (lit ""))]
                       []))
      as [results [w' [Hrun Hall]]].
    { repeat constructor; discriminate. }
    vm_compute in Hrun. injection Hrun as <- <-.
    eapply Forall2_impl; [|exact Hall]. intros file r [Hfn _]. exact Hfn.
  - apply (proj2 (batch_endpoint_outcomes (@QLog demo_qdrant) (list Z)
                    (lit "docs") demo_process_document
                    (@upsert_documents demo_qdrant) demo_exc_str
                    [demo_file (Some (lit "a.txt")); demo_file None] [])).
    right. left. reflexivity.
Defined.

(** X19 on a publisher of one space: status 500 with the text of the
    400, and nothing is read or stored. *)
Lemma textbook_endpoint_outcomes_witness :
  Main.upload_textbook (@QLog demo_qdrant) (list Z) (lit "docs")
    demo_process_textbook_document (@upsert_documents demo_qdrant)
    demo_exc_str (demo_file (Some (lit "SGK_TIN_CD_3.pdf")))
    (lit "Tin hoc 3") (lit " ") None None []
  = (inl (HTTPException 500 (lit "400: Publisher is required")), []).
Proof.
  apply (proj1 (proj2 (proj2
           (textbook_endpoint_outcomes (@QLog demo_qdrant) (list Z) (lit "docs")
              demo_process_textbook_document (@upsert_documents demo_qdrant)
              demo_exc_str (demo_file (Some (lit "SGK_TIN_CD_3.pdf")))
              (lit "Tin hoc 3") (lit " ") None None [])))).
  - reflexivity.
  - vm_compute. discriminate.
  - reflexivity.
Defined.

(** ** One text *)

(** X22.  [embed_single] sends one request, with the text alone and the
    model of the embedder, and no pause.  It returns the first embedding
    of the answer, whatever their number; an answer without embeddings
    makes it raise [IndexError], and an error of the request is passed
    on. *)
Theorem embed_single_request `{OpenAI} (text : pystr) (log : list ECall) :
  embed_single text log
  = (match embeddings_create log [text] embedder_model with
     | inl e => inl e
     | inr [] => inl IndexError
     | inr (first :: _) => inr first
     end,
     log ++ [ECreate [text] embedder_model]).
Proof.
  unfold embed_single, embed, try_except, bind, lift.
  change (len [text] =? 0) with false. cbv iota.
  change (range_step (len [text]) 100) with [0].
  cbn [embed_loop]. unfold bind.
  change (slice [text] 0 (0 + 100)) with [text].
  rewrite ecall_run.
  destruct (embeddings_create log [text] embedder_model) as [e | embs];
    [reflexivity|].
  change (0 + 100 <? len [text]) with false. cbv iota.
  unfold ret. cbn [app].
  destruct embs as [|first rest]; [reflexivity|].
  unfold getitem. change (0 <? 0) with false. cbv iota.
  rewrite len_cons. pose proof (len_nonneg rest).
  destruct (1 + len rest <=? 0) eqn:E; [apply Z.leb_le in E; lia|].
  reflexivity.
Qed.
